(** * Backtesting framework of kc-datacenter-impact: a shallow embedding

    The development follows [src/backtest_models.py]:
    - [Py]: the fragment of the Python runtime the script relies on
      (exceptions, [range], indexing and slicing with Python's index rules);
    - [NumPy]: float64 values and the array operations used by the script;
    - [Sklearn]: [TimeSeriesSplit], [MinMaxScaler], the [SVR] estimator object
      and the regression metrics;
    - [Backtest]: the three functions of the script that the validation
      engine consists of, statement by statement.

    Numbers.  A finite float64 is modelled by the real number it denotes and
    arithmetic on finite values is exact (rounding is not modelled); the
    special values [inf], [-inf] and [nan] are kept, so that a division by
    zero or the mean of an empty array behaves as it does in NumPy.  Console
    output ([print]) is not part of the model.

    Statements over these modules say which expressions the program
    evaluates and how their values are ordered; they do not say that two
    different expressions give the same float64.  Where rounding decides,
    [Binary64] evaluates the same expressions in the kernel's binary64
    numbers, bit for bit, on short arrays. *)

From Stdlib Require Import String.
From Stdlib Require Import Reals List ZArith Lia Lra Bool.
From Stdlib Require Floats.
Import ListNotations.

Set Warnings "-inexact-float".

(* ===================================================================== *)
(** * Python runtime *)
(* ===================================================================== *)

Module Py.

(** The exceptions that the modelled code can raise. *)
Inductive exn : Set :=
  | ValueError
  | IndexError
  | NotFittedError.

(** A Python computation either returns a value or raises. *)
Inductive result (A : Type) : Type :=
  | Ok (a : A)
  | Raise (e : exn).
Arguments Ok {A} a.
Arguments Raise {A} e.

Definition bind {A B : Type} (c : result A) (k : A -> result B) : result B :=
  match c with
  | Ok a => k a
  | Raise e => Raise e
  end.

Definition raises {A : Type} (c : result A) : Prop :=
  exists e, c = Raise e.

(** [for x in xs: body], threading the local variables [st]. *)
Fixpoint for_each {A S : Type} (xs : list A) (body : A -> S -> result S)
    (st : S) : result S :=
  match xs with
  | [] => Ok st
  | x :: xs' => bind (body x st) (for_each xs' body)
  end.

(** [range(lo, hi)]. *)
Definition range (lo hi : Z) : list Z :=
  map (fun k => (lo + Z.of_nat k)%Z) (seq 0 (Z.to_nat (hi - lo))).

(** [range(lo, hi, step)]; a zero step raises. *)
Definition range_step (lo hi step : Z) : result (list Z) :=
  if (step =? 0)%Z then Raise ValueError
  else if (step <? 0)%Z then
    Ok (map (fun k => (lo + Z.of_nat k * step)%Z)
            (seq 0 (Z.to_nat ((lo - hi - step - 1) / (- step)))))
  else
    Ok (map (fun k => (lo + Z.of_nat k * step)%Z)
            (seq 0 (Z.to_nat ((hi - lo + step - 1) / step)))).

(** A possibly negative index is taken from the end. *)
Definition wrap (n i : Z) : Z := if (i <? 0)%Z then (i + n)%Z else i.

(** [l[i]]: raises [IndexError] out of range. *)
Definition getitem {A : Type} (l : list A) (i : Z) : result A :=
  let j := wrap (Z.of_nat (length l)) i in
  if (j <? 0)%Z then Raise IndexError
  else match nth_error l (Z.to_nat j) with
       | Some x => Ok x
       | None => Raise IndexError
       end.

(** Bounds of a slice are wrapped, then clamped to [0, len]. *)
Definition clamp (n i : Z) : Z := Z.max 0 (Z.min n (wrap n i)).

(** [l[lo:hi]]: never raises. *)
Definition slice {A : Type} (l : list A) (lo hi : Z) : list A :=
  let n := Z.of_nat (length l) in
  let a := clamp n lo in
  let b := clamp n hi in
  firstn (Z.to_nat (b - a)) (skipn (Z.to_nat a) l).

(** [enumerate(xs, start)]. *)
Fixpoint enumerate {A : Type} (xs : list A) (start : Z) : list (Z * A) :=
  match xs with
  | [] => []
  | x :: xs' => (start, x) :: enumerate xs' (start + 1)%Z
  end.

End Py.

Import Py.

Declare Scope py_scope.
Delimit Scope py_scope with py.
Notation "x <- c ;; k" := (bind c (fun x => k))
  (at level 61, c at next level, right associativity) : py_scope.
Notation "' p <- c ;; k" := (bind c (fun x => match x with p => k end))
  (at level 61, p pattern, c at next level, right associativity) : py_scope.
Notation "c ;;; k" := (bind c (fun _ => k))
  (at level 61, right associativity) : py_scope.
Open Scope py_scope.

(* ===================================================================== *)
(** * NumPy: float64 and arrays *)
(* ===================================================================== *)

Module NumPy.

Open Scope R_scope.

(** A float64: a finite value, an infinity or not-a-number. *)
Inductive float : Type :=
  | Fin (r : R)
  | PInf
  | NInf
  | NaN.

Definition Rzerob (x : R) : bool := if Req_dec_T x 0 then true else false.
Definition Rnegb (x : R) : bool := if Rlt_dec x 0 then true else false.
Definition Rposb (x : R) : bool := if Rlt_dec 0 x then true else false.

Definition signed_inf (negative : bool) : float :=
  if negative then NInf else PInf.

Definition fnegative (a : float) : bool :=
  match a with
  | Fin x => Rnegb x
  | NInf => true
  | PInf | NaN => false
  end.

Definition fzero (a : float) : bool :=
  match a with
  | Fin x => Rzerob x
  | _ => false
  end.

Definition is_finite (a : float) : Prop :=
  match a with
  | Fin _ => True
  | _ => False
  end.

Definition fadd (a b : float) : float :=
  match a, b with
  | NaN, _ | _, NaN => NaN
  | Fin x, Fin y => Fin (x + y)
  | PInf, NInf | NInf, PInf => NaN
  | PInf, _ | _, PInf => PInf
  | NInf, _ | _, NInf => NInf
  end.

Definition fopp (a : float) : float :=
  match a with
  | Fin x => Fin (- x)
  | PInf => NInf
  | NInf => PInf
  | NaN => NaN
  end.

Definition fsub (a b : float) : float := fadd a (fopp b).

Definition fmul (a b : float) : float :=
  match a, b with
  | NaN, _ | _, NaN => NaN
  | Fin x, Fin y => Fin (x * y)
  | _, _ =>
      if fzero a || fzero b then NaN
      else signed_inf (xorb (fnegative a) (fnegative b))
  end.

(** True division.  A finite value divided by zero gives an infinity with
    the sign of the numerator, and [0/0] gives [nan]; NumPy only warns. *)
Definition fdiv (a b : float) : float :=
  match a, b with
  | NaN, _ | _, NaN => NaN
  | Fin x, Fin y =>
      if Rzerob y then (if Rzerob x then NaN else signed_inf (Rnegb x))
      else Fin (x / y)
  | Fin _, _ => Fin 0
  | _, Fin y => signed_inf (xorb (fnegative a) (Rnegb y))
  | _, _ => NaN
  end.

Definition fabs (a : float) : float :=
  match a with
  | Fin x => Fin (Rabs x)
  | PInf | NInf => PInf
  | NaN => NaN
  end.

(** [np.sqrt]. *)
Definition fsqrt (a : float) : float :=
  match a with
  | Fin x => if Rnegb x then NaN else Fin (sqrt x)
  | PInf => PInf
  | NInf | NaN => NaN
  end.

(** [a > 0] on a float64; false on [nan]. *)
Definition fpos (a : float) : bool :=
  match a with
  | Fin x => Rposb x
  | PInf => true
  | NInf | NaN => false
  end.

(** Sum of the elements of an array. *)
Definition Rsum (l : list R) : R := fold_right Rplus 0 l.
Definition fsum (l : list float) : float := fold_right fadd (Fin 0) l.

(** [np.mean]: the sum divided by the number of elements ([nan] when empty). *)
Definition mean (l : list float) : float :=
  fdiv (fsum l) (Fin (INR (length l))).

(** [np.mean] of a boolean array: [True] counts as 1.0. *)
Definition mean_bool (l : list bool) : float :=
  mean (map (fun b : bool => if b then Fin 1 else Fin 0) l).

(** [np.diff]: first differences [a[k+1] - a[k]]. *)
Fixpoint diff (l : list R) : list R :=
  match l with
  | x :: ((y :: _) as tl) => (y - x) :: diff tl
  | _ => []
  end.

(** Elementwise operations on two 1-D arrays follow broadcasting: equal
    length, or one operand of length one; anything else raises. *)
Fixpoint zip_with {A B C : Type} (f : A -> B -> C) (l : list A) (m : list B)
    : list C :=
  match l, m with
  | x :: l', y :: m' => f x y :: zip_with f l' m'
  | _, _ => []
  end.

Definition broadcast {A B C : Type} (f : A -> B -> C) (l : list A)
    (m : list B) : result (list C) :=
  if (length l =? length m)%nat then Ok (zip_with f l m)
  else match l, m with
       | [x], _ => Ok (map (f x) m)
       | _, [y] => Ok (map (fun x => f x y) l)
       | _, _ => Raise ValueError
       end.

(** [a - b] on arrays of finite values. *)
Definition sub (a b : list R) : result (list R) := broadcast Rminus a b.

(** [np.var(a, ddof)]: mean, deviations, squares, sum, divided by
    [max(n - ddof, 0)]. *)
Definition var (ddof : nat) (a : list R) : float :=
  let n := length a in
  let arrmean := fdiv (Fin (Rsum a)) (Fin (INR n)) in
  let x := map (fun v => fsub (Fin v) arrmean) a in
  let x2 := map (fun d => fmul d d) x in
  fdiv (fsum x2) (Fin (INR (n - ddof))).

(** [np.std(a, ddof)]; the default is [ddof = 0]. *)
Definition std (ddof : nat) (a : list R) : float := fsqrt (var ddof a).

(** [a[idx]] with an integer index array. *)
Fixpoint take {A : Type} (a : list A) (idx : list Z) : result (list A) :=
  match idx with
  | [] => Ok []
  | i :: idx' =>
      x <- getitem a i ;;
      xs <- take a idx' ;;
      Ok (x :: xs)
  end.

(** [np.arange(n)]. *)
Definition arange (n : Z) : list Z := range 0 n.

End NumPy.

Import NumPy.

(* ===================================================================== *)
(** * scikit-learn and SciPy: the library objects the script uses *)
(* ===================================================================== *)

Module Sklearn.

Open Scope R_scope.

(** ** [sklearn.model_selection.TimeSeriesSplit] *)

(** The splitter object; the script only sets [n_splits], so
    [max_train_size] and [test_size] are [None] and [gap] is 0. *)
Record TimeSeriesSplit : Set := { n_splits : Z }.

(** The constructor refuses fewer than two splits. *)
Definition TimeSeriesSplit_new (n : Z) : result TimeSeriesSplit :=
  if (n <=? 1)%Z then Raise ValueError else Ok {| n_splits := n |}.

(** [tscv.split(X)]: the (train indices, test indices) pairs, in order.
    Both checks precede the first pair, so a failing call yields nothing. *)
Definition split (tscv : TimeSeriesSplit) (n_samples : Z)
    : result (list (list Z * list Z)) :=
  let n_folds := (n_splits tscv + 1)%Z in
  let test_size := (n_samples / n_folds)%Z in
  if (n_samples <? n_folds)%Z then Raise ValueError
  else if (n_samples - test_size * n_splits tscv <=? 0)%Z then Raise ValueError
  else
    let indices := arange n_samples in
    test_starts <-
      range_step (n_samples - n_splits tscv * test_size) n_samples test_size ;;
    Ok (map (fun test_start : Z =>
               (slice indices 0 test_start,
                slice indices test_start (test_start + test_size)))
            test_starts).

(** ** [sklearn.preprocessing.MinMaxScaler] on one feature column *)

(** The attributes that [fit] stores on the object. *)
Record scaler_attrs : Type := {
  data_min_ : R;
  data_max_ : R;
  data_range_ : R;
  scale_ : R;
  min_ : R
}.

(** A scaler object: unfitted after construction. *)
Record MinMaxScaler : Type := { scaler_fitted : option scaler_attrs }.

Definition MinMaxScaler_new : MinMaxScaler := {| scaler_fitted := None |}.

Definition Rmin_list (x : R) (l : list R) : R := fold_left Rmin l x.
Definition Rmax_list (x : R) (l : list R) : R := fold_left Rmax l x.

(** A constant column has range 0; its scale is computed from 1 instead. *)
Definition handle_zeros_in_scale (s : R) : R := if Rzerob s then 1 else s.

(** The bounds learnt from a column (feature range (0, 1)). *)
Definition fit_attrs (x : R) (l : list R) : scaler_attrs :=
  let lo := Rmin_list x l in
  let hi := Rmax_list x l in
  let sc := (1 - 0) / handle_zeros_in_scale (hi - lo) in
  {| data_min_ := lo; data_max_ := hi; data_range_ := hi - lo;
     scale_ := sc; min_ := 0 - lo * sc |}.

(** [X * scale_ + min_]: no clipping, values outside the fitted bounds are
    extrapolated. *)
Definition apply_attrs (a : scaler_attrs) (X : list R) : list R :=
  map (fun x => x * scale_ a + min_ a) X.

(** [scaler.fit(X)]: an empty column is refused. *)
Definition MinMaxScaler_fit (self : MinMaxScaler) (X : list R)
    : result MinMaxScaler :=
  match X with
  | [] => Raise ValueError
  | x :: l => Ok {| scaler_fitted := Some (fit_attrs x l) |}
  end.

(** [scaler.transform(X)]: reads the fitted attributes, changes nothing. *)
Definition MinMaxScaler_transform (self : MinMaxScaler) (X : list R)
    : result (list R) :=
  match scaler_fitted self with
  | None => Raise NotFittedError
  | Some a =>
      match X with
      | [] => Raise ValueError
      | _ => Ok (apply_attrs a X)
      end
  end.

(** [scaler.fit_transform(X)] is [fit(X).transform(X)]; it returns the
    refitted object together with the scaled column. *)
Definition MinMaxScaler_fit_transform (self : MinMaxScaler) (X : list R)
    : result (MinMaxScaler * list R) :=
  self' <- MinMaxScaler_fit self X ;;
  Xs <- MinMaxScaler_transform self' X ;;
  Ok (self', Xs).

(** ** [sklearn.svm.SVR] *)

Inductive kernel_name : Set := rbf | linear | poly | sigmoid.

Record svr_params : Type := {
  kernel : kernel_name;
  C : R;
  gamma : R;
  epsilon : R
}.

(** The numerical solver behind [SVR] (libsvm) is an external library: it
    is taken as an interface, a deterministic training routine and the
    decision function of a trained model. *)
Class Libsvm : Type := {
  svm_model : Type;
  svm_train : svr_params -> list R -> list R -> svm_model;
  svm_predict : svm_model -> R -> R
}.

(** An estimator object: its hyperparameters and, once fitted, its model. *)
Record SVR `{Libsvm} : Type := {
  svr_hyper : svr_params;
  svr_fitted : option svm_model
}.

Definition SVR_new `{Libsvm} (k : kernel_name) (c g e : R) : SVR :=
  {| svr_hyper := {| kernel := k; C := c; gamma := g; epsilon := e |};
     svr_fitted := None |}.

(** [model.fit(X, y)]: one row of [X] per target, at least one row. *)
Definition SVR_fit `{Libsvm} (self : SVR) (X y : list R) : result SVR :=
  match X with
  | [] => Raise ValueError
  | _ =>
      if (length X =? length y)%nat then
        Ok {| svr_hyper := svr_hyper self;
              svr_fitted := Some (svm_train (svr_hyper self) X y) |}
      else Raise ValueError
  end.

(** [model.predict(X)]: one prediction per row. *)
Definition SVR_predict `{Libsvm} (self : SVR) (X : list R)
    : result (list R) :=
  match svr_fitted self with
  | None => Raise NotFittedError
  | Some m =>
      match X with
      | [] => Raise ValueError
      | _ => Ok (map (svm_predict m) X)
      end
  end.

(** ** [sklearn.metrics] *)

(** Input validation shared by the regression metrics: equal lengths and at
    least one sample. *)
Definition check_reg_targets (y_true y_pred : list R) : result unit :=
  if negb (length y_true =? length y_pred)%nat then Raise ValueError
  else match y_true with
       | [] => Raise ValueError
       | _ => Ok tt
       end.

Definition sq (x : R) : R := x * x.

Definition mean_squared_error (y_true y_pred : list R) : result R :=
  check_reg_targets y_true y_pred ;;;
  Ok (Rsum (zip_with (fun t p => sq (t - p)) y_true y_pred)
      / INR (length y_true)).

Definition mean_absolute_error (y_true y_pred : list R) : result R :=
  check_reg_targets y_true y_pred ;;;
  Ok (Rsum (zip_with (fun t p => Rabs (p - t)) y_true y_pred)
      / INR (length y_true)).

(** Residual and total sums of squares. *)
Definition ss_res (y_true y_pred : list R) : R :=
  Rsum (zip_with (fun t p => sq (t - p)) y_true y_pred).

Definition ss_tot (y_true : list R) : R :=
  let avg := Rsum y_true / INR (length y_true) in
  Rsum (map (fun t => sq (t - avg)) y_true).

(** [r2_score] with its defaults.  Fewer than two samples give [nan] (and a
    warning).  A zero total sum of squares is replaced by a finite score:
    1.0 for a perfect prediction, 0.0 otherwise. *)
Definition r2_score (y_true y_pred : list R) : result float :=
  check_reg_targets y_true y_pred ;;;
  if (length y_pred <? 2)%nat then Ok NaN
  else
    let numerator := ss_res y_true y_pred in
    let denominator := ss_tot y_true in
    if Rzerob numerator then Ok (Fin 1)
    else if Rzerob denominator then Ok (Fin 0)
    else Ok (Fin (1 - numerator / denominator)).

(** ** [scipy.stats.norm.ppf] *)

(** The quantile function of the standard normal distribution on the open
    unit interval is an external special function ([ndtri]); what is used
    of it is that quantiles at or above the median are not negative. *)
Class NormalQuantile : Type := {
  ndtri : R -> R;
  ndtri_upper_half : forall p, 1 / 2 <= p < 1 -> 0 <= ndtri p
}.

(** [norm.ppf(q)]: [-inf] at 0, [inf] at 1, [nan] outside [0, 1]. *)
Definition norm_ppf `{NormalQuantile} (q : R) : float :=
  if Rzerob q then NInf
  else if Rzerob (q - 1) then PInf
  else if Rnegb q then NaN
  else if Rposb (q - 1) then NaN
  else Fin (ndtri q).

End Sklearn.

Import Sklearn.

(* ===================================================================== *)
(** * The backtesting script *)
(* ===================================================================== *)

Module Backtest.

Open Scope R_scope.

(** Values stored in the result dictionaries. *)
Inductive pyval : Type :=
  | VInt (n : Z)
  | VFloat (x : float).

(** A dictionary literal, in the order it is written. *)
Definition dict : Type := list (String.string * pyval).

Fixpoint dict_get (d : dict) (k : String.string) : option pyval :=
  match d with
  | [] => None
  | (k', v) :: d' => if String.eqb k k' then Some v else dict_get d' k
  end.

Definition len {A : Type} (l : list A) : Z := Z.of_nat (length l).

(** [np.mean(np.abs((y_true - y_pred) / y_true)) * 100], as written in both
    validation functions.  Nothing tests [y_true] for zeros. *)
Definition mape_of (y_true y_pred : list R) : result float :=
  num <- sub y_true y_pred ;;
  ratio <- broadcast (fun a b => fdiv (Fin a) (Fin b)) num y_true ;;
  Ok (fmul (mean (map fabs ratio)) (Fin 100)).

(** [np.mean((changes_actual > 0) == (changes_pred > 0)) * 100]. *)
Definition directional_accuracy_of (actuals predictions : list R)
    : result float :=
  let changes_actual := diff actuals in
  let changes_pred := diff predictions in
  same <- broadcast Bool.eqb (map Rposb changes_actual)
                             (map Rposb changes_pred) ;;
  Ok (fmul (mean_bool same) (Fin 100)).

Section Engine.

Context {svm : Libsvm} {nq : NormalQuantile}.

(** ** Section 1: time-series cross-validation *)

(** Local variables of [time_series_cross_validation] that live across
    iterations of its loop: the accumulated rows and the two estimator
    objects bound by the previous iteration (unbound before the first). *)
Record cv_locals : Type := {
  fold_results : list dict;
  cv_scaler : option MinMaxScaler;
  cv_model : option SVR
}.

(** Lines 44-58: split, scale, train, predict.  Returns the objects bound
    to [scaler] and [model] and the arrays [y_test], [y_pred]. *)
Definition cv_fit_predict (X y : list R) (train_idx test_idx : list Z)
    : result (MinMaxScaler * SVR * list R * list R) :=
  X_train <- take X train_idx ;;
  X_test <- take X test_idx ;;
  y_train <- take y train_idx ;;
  y_test <- take y test_idx ;;
  let scaler := MinMaxScaler_new in
  ' (scaler, X_train_scaled) <- MinMaxScaler_fit_transform scaler X_train ;;
  X_test_scaled <- MinMaxScaler_transform scaler X_test ;;
  let model := SVR_new rbf 100 0.1 0.1 in
  model <- SVR_fit model X_train_scaled y_train ;;
  y_pred <- SVR_predict model X_test_scaled ;;
  Ok (scaler, model, y_test, y_pred).

(** One iteration of the loop over the folds (lines 43-74). *)
Definition cv_fold (X y : list R) (it : Z * (list Z * list Z))
    (st : cv_locals) : result cv_locals :=
  let '(fold, (train_idx, test_idx)) := it in
  ' (scaler, model, y_test, y_pred) <-
      cv_fit_predict X y train_idx test_idx ;;
  mse <- mean_squared_error y_test y_pred ;;
  let rmse := fsqrt (Fin mse) in
  mae <- mean_absolute_error y_test y_pred ;;
  r2 <- r2_score y_test y_pred ;;
  mape <- mape_of y_test y_pred ;;
  Ok {| fold_results :=
          fold_results st ++
          [[("fold"%string, VInt fold);
            ("train_size"%string, VInt (len train_idx));
            ("test_size"%string, VInt (len test_idx));
            ("rmse"%string, VFloat rmse);
            ("mae"%string, VFloat (Fin mae));
            ("r2"%string, VFloat r2);
            ("mape"%string, VFloat mape)]];
        cv_scaler := Some scaler;
        cv_model := Some model |}.

(** [time_series_cross_validation(X, y, n_splits)]: the rows of the
    returned table. *)
Definition time_series_cross_validation (X y : list R) (n_splits : Z)
    : result (list dict) :=
  tscv <- TimeSeriesSplit_new n_splits ;;
  splits <- split tscv (len X) ;;
  st <- for_each (enumerate splits 1) (cv_fold X y)
          {| fold_results := []; cv_scaler := None; cv_model := None |} ;;
  Ok (fold_results st).

(** ** Section 2: walk-forward validation *)

Record wf_locals : Type := {
  predictions : list R;
  actuals : list R;
  wf_scaler : option MinMaxScaler;
  wf_model : option SVR
}.

(** Lines 118-135: the window, the test point, scale, train, predict.
    Returns the objects bound to [scaler] and [model], [y_test] and
    [y_pred]. *)
Definition wf_fit_predict (demand_data prices : list R) (window_size i : Z)
    : result (MinMaxScaler * SVR * R * R) :=
  let X_train := slice demand_data (i - window_size) i in
  let y_train := slice prices (i - window_size) i in
  x <- getitem demand_data i ;;
  let X_test := [x] in
  y_test <- getitem prices i ;;
  let scaler := MinMaxScaler_new in
  ' (scaler, X_train_scaled) <- MinMaxScaler_fit_transform scaler X_train ;;
  X_test_scaled <- MinMaxScaler_transform scaler X_test ;;
  let model := SVR_new rbf 100 0.1 0.1 in
  model <- SVR_fit model X_train_scaled y_train ;;
  y_preds <- SVR_predict model X_test_scaled ;;
  y_pred <- getitem y_preds 0 ;;
  Ok (scaler, model, y_test, y_pred).

(** One iteration of the rolling loop (lines 117-138). *)
Definition wf_step (demand_data prices : list R) (window_size i : Z)
    (st : wf_locals) : result wf_locals :=
  ' (scaler, model, y_test, y_pred) <-
      wf_fit_predict demand_data prices window_size i ;;
  Ok {| predictions := predictions st ++ [y_pred];
        actuals := actuals st ++ [y_test];
        wf_scaler := Some scaler;
        wf_model := Some model |}.

(** The loop of lines 114-138. *)
Definition wf_loop (demand_data prices : list R) (window_size : Z)
    : result wf_locals :=
  for_each (range window_size (len demand_data))
           (wf_step demand_data prices window_size)
           {| predictions := []; actuals := [];
              wf_scaler := None; wf_model := None |}.

(** Lines 143-168: the metrics of the collected predictions. *)
Definition wf_metrics (predictions actuals : list R) : result dict :=
  mse <- mean_squared_error actuals predictions ;;
  let rmse := fsqrt (Fin mse) in
  mae <- mean_absolute_error actuals predictions ;;
  r2 <- r2_score actuals predictions ;;
  mape <- mape_of actuals predictions ;;
  directional_accuracy <- directional_accuracy_of actuals predictions ;;
  Ok [("rmse"%string, VFloat rmse);
      ("mae"%string, VFloat (Fin mae));
      ("r2"%string, VFloat r2);
      ("mape"%string, VFloat mape);
      ("directional_accuracy"%string, VFloat directional_accuracy)].

(** [walk_forward_validation(demand_data, prices, window_size)]. *)
Definition walk_forward_validation (demand_data prices : list R)
    (window_size : Z) : result (list R * list R * dict) :=
  st <- wf_loop demand_data prices window_size ;;
  m <- wf_metrics (predictions st) (actuals st) ;;
  Ok (predictions st, actuals st, m).

(** ** Section 5: confidence intervals *)

(** The local variables of [calculate_confidence_intervals] when it
    returns; the wholesale and bill bounds are only printed. *)
Record ci_locals : Type := {
  residuals : list R;
  se : float;
  z_score : float;
  margin : float;
  base_prediction_2035 : float;
  lower_bound : float;
  upper_bound : float;
  retail_multiplier : float;
  retail_base_cost : float;
  retail_point : float;
  retail_lower : float;
  retail_upper : float;
  kwh_per_month : float;
  bill_point : float;
  bill_lower : float;
  bill_upper : float
}.

(** Lines 446-487.  The point estimate is the literal 100.98; the function
    has no parameter for it. *)
Definition ci_frame (predictions actuals : list R) (confidence : R)
    : result ci_locals :=
  residuals <- sub actuals predictions ;;
  let se := std 0 residuals in
  let z_score := norm_ppf ((1 + confidence) / 2) in
  let margin := fmul z_score se in
  let base_prediction_2035 := Fin 100.98 in
  let lower_bound := fsub base_prediction_2035 margin in
  let upper_bound := fadd base_prediction_2035 margin in
  let retail_multiplier := Fin 3.5 in
  let retail_base_cost := Fin 0.05 in
  let to_retail (w : float) :=
    fadd (fmul (fdiv w (Fin 1000)) retail_multiplier) retail_base_cost in
  let retail_point := to_retail base_prediction_2035 in
  let retail_lower := to_retail lower_bound in
  let retail_upper := to_retail upper_bound in
  let kwh_per_month := Fin 1000 in
  Ok {| residuals := residuals; se := se; z_score := z_score;
        margin := margin; base_prediction_2035 := base_prediction_2035;
        lower_bound := lower_bound; upper_bound := upper_bound;
        retail_multiplier := retail_multiplier;
        retail_base_cost := retail_base_cost;
        retail_point := retail_point; retail_lower := retail_lower;
        retail_upper := retail_upper; kwh_per_month := kwh_per_month;
        bill_point := fmul retail_point kwh_per_month;
        bill_lower := fmul retail_lower kwh_per_month;
        bill_upper := fmul retail_upper kwh_per_month |}.

(** [calculate_confidence_intervals(predictions, actuals, confidence)]:
    the returned dictionary (lines 496-502). *)
Definition calculate_confidence_intervals (predictions actuals : list R)
    (confidence : R) : result dict :=
  f <- ci_frame predictions actuals confidence ;;
  Ok [("se"%string, VFloat (se f));
      ("margin"%string, VFloat (margin f));
      ("retail_point"%string, VFloat (retail_point f));
      ("retail_lower"%string, VFloat (retail_lower f));
      ("retail_upper"%string, VFloat (retail_upper f))].

End Engine.

End Backtest.

Import Backtest.

(* ===================================================================== *)
(** * Reference formulations the code is compared with *)
(* ===================================================================== *)

Module Reference.

Open Scope R_scope.

(** The indices [i - w, i) of a rolling training window. *)
Definition train_indices (i w : nat) : list nat := seq (i - w) w.

(** The values of a series at the indices of the window ending before [i]. *)
Definition window (l : list R) (i w : nat) : list R :=
  map (fun j => nth j l 0) (train_indices i w).

(** The bounds a min-max normalizer learns from training inputs alone. *)
Definition train_bounds (X_train : list R) : option scaler_attrs :=
  match X_train with
  | [] => None
  | x :: l => Some (fit_attrs x l)
  end.

(** The hyperparameters written in the script. *)
Definition script_params : svr_params :=
  {| kernel := rbf; C := 100; gamma := 0.1; epsilon := 0.1 |}.

(** Predictions of a normalizer and a model built from nothing but one
    split: bounds from [X_train], a model trained on the scaled [X_train]
    and [y_train], the test inputs scaled with the training bounds. *)
Definition fresh_prediction `{Libsvm} (X_train y_train X_test : list R)
    : list R :=
  match train_bounds X_train with
  | None => []
  | Some a =>
      map (svm_predict (svm_train script_params (apply_attrs a X_train)
                                  y_train))
          (apply_attrs a X_test)
  end.

(** The one-step prediction for index [i] of a walk-forward run. *)
Definition step_prediction `{Libsvm} (demand prices : list R) (w i : nat)
    : R :=
  hd 0 (fresh_prediction (window demand i w) (window prices i w)
                         [nth i demand 0]).

(** Two changes point the same way when both are strictly positive or both
    are non-positive (a change of exactly 0 counts as non-positive). *)
Definition same_direction (da dp : R) : Prop :=
  (0 < da /\ 0 < dp) \/ (da <= 0 /\ dp <= 0).

Definition Rnonposb (x : R) : bool := if Rle_dec x 0 then true else false.

Definition same_directionb (da dp : R) : bool :=
  (Rposb da && Rposb dp) || (Rnonposb da && Rnonposb dp).

(** Number of steps of the first-difference series that point the same
    way. *)
Definition agreeing_steps (actual predicted : list R) : nat :=
  length (filter (fun d => same_directionb (fst d) (snd d))
                 (combine (diff actual) (diff predicted))).

Definition mean_of (l : list R) : R := Rsum l / INR (length l).

(** Sum of squared deviations from the mean. *)
Definition sum_sq_dev (l : list R) : R :=
  Rsum (map (fun r => sq (r - mean_of l)) l).

(** Standard deviation with divisor [n]. *)
Definition population_sd (l : list R) : R :=
  sqrt (sum_sq_dev l / INR (length l)).

(** Standard deviation with Bessel's correction, divisor [n - 1]. *)
Definition sample_sd (l : list R) : R :=
  sqrt (sum_sq_dev l / (INR (length l) - 1)).

(** [mean(|yTrue - yPred| / |yTrue|) * 100]. *)
Definition mape_formula (y_true y_pred : list R) : R :=
  mean_of (zip_with (fun t p => Rabs (t - p) / Rabs t) y_true y_pred) * 100.

(** The exclusion policy for zero actual values: the same formula over the
    points whose actual value is not zero. *)
Definition nonzero_points (y_true y_pred : list R) : list (R * R) :=
  filter (fun tp => negb (Rzerob (fst tp))) (combine y_true y_pred).

Definition mape_excluding_zeros (y_true y_pred : list R) : R :=
  let pts := nonzero_points y_true y_pred in
  mape_formula (map fst pts) (map snd pts).

(** One term of the MAPE sum, as the script computes it. *)
Definition ape (t p : R) : float := fabs (fdiv (Fin (t - p)) (Fin t)).

(** A sequence whose elements are all equal to [c]. *)
Definition constant (c : R) (l : list R) : Prop := Forall (fun x => x = c) l.


(** A row or dictionary reports R2 and MAPE of given actual and predicted
    values when its entries are the values of the two expressions. *)
Definition reports_metrics (d : dict) (y_true y_pred : list R) : Prop :=
  exists r2 mape,
    r2_score y_true y_pred = Ok r2 /\
    mape_of y_true y_pred = Ok mape /\
    dict_get d "r2"%string = Some (VFloat r2) /\
    dict_get d "mape"%string = Some (VFloat mape).

(** The change of a sequence at step [k]: from point [k] to point
    [k + 1]. *)
Definition change (l : list R) (k : nat) : R := nth (S k) l 0 - nth k l 0.


(** The data of one cross-validation fold, given as its pair of index
    arrays: [y_test] holds the targets at the test indices, and [y_hat] the
    predictions, for the inputs at the test indices, of a normalizer and a
    model built from the inputs and targets at the training indices. *)
Definition fold_data `{Libsvm} (X y : list R) (fold : list Z * list Z)
    (y_test y_hat : list R) : Prop :=
  exists X_train X_test y_train,
    take X (fst fold) = Ok X_train /\
    take X (snd fold) = Ok X_test /\
    take y (fst fold) = Ok y_train /\
    take y (snd fold) = Ok y_test /\
    y_hat = fresh_prediction X_train y_train X_test.

End Reference.

Import Reference.

(* ===================================================================== *)
(** * Concrete library implementations for running the model *)
(* ===================================================================== *)

Module Instances.

Open Scope R_scope.

(** A trivial solver: the trained model is the mean training target and the
    decision function is constant.  It only serves to run the definitions
    on concrete inputs. *)
#[export] Instance mean_regressor : Libsvm := {|
  svm_model := R;
  svm_train := fun _ _ y => mean_of y;
  svm_predict := fun m _ => m
|}.

(** The logistic approximation of the normal quantile,
    [ln (p / (1 - p)) * 10 / 17]. *)
Definition logit_quantile (p : R) : R := ln (p / (1 - p)) * (10 / 17).

Lemma logit_quantile_upper_half :
  forall p, 1 / 2 <= p < 1 -> 0 <= logit_quantile p.
Proof.
  intros p [Hlo Hhi]. unfold logit_quantile.
  apply Rmult_le_pos; [ | lra ].
  assert (H1 : 1 <= p / (1 - p)).
  { apply Rmult_le_reg_r with (r := 1 - p); [ lra | ].
    unfold Rdiv. rewrite Rmult_assoc, Rinv_l; lra. }
  rewrite <- ln_1.
  destruct H1 as [H1 | H1].
  - left. apply ln_increasing; lra.
  - rewrite <- H1. right. reflexivity.
Qed.

#[export] Instance logit_normal : NormalQuantile := {|
  ndtri := logit_quantile;
  ndtri_upper_half := logit_quantile_upper_half
|}.

End Instances.

(* ===================================================================== *)
(** * Sections 3 and 4 of the script: market comparison and sensitivity *)
(* ===================================================================== *)

Module Scenarios.

Open Scope R_scope.

(** These functions compute with Python's own floats, where a division by
    zero raises instead of yielding an infinity. *)
Inductive arith_exn : Set := ZeroDivisionError.

Inductive outcome (A : Type) : Type :=
  | Returned (a : A)
  | Raised (e : arith_exn).
Arguments Returned {A} a.
Arguments Raised {A} e.

Definition and_then {A B : Type} (c : outcome A) (k : A -> outcome B)
    : outcome B :=
  match c with
  | Returned a => k a
  | Raised e => Raised e
  end.

(** [x / y] on Python floats. *)
Definition truediv (x y : R) : outcome R :=
  if Rzerob y then Raised ZeroDivisionError else Returned (x / y).

(** [calculate_rate_impact(dc_mw, utilization, cost_per_mw,
    passthrough_pct)], lines 402-431. *)
Definition calculate_rate_impact
    (dc_mw utilization cost_per_mw passthrough_pct : R) : outcome R :=
  and_then (truediv dc_mw utilization) (fun capacity_needed =>
  let infrastructure_cost := capacity_needed * cost_per_mw in
  let ratepayer_cost := infrastructure_cost * passthrough_pct in
  and_then (truediv (ratepayer_cost * 1000) 1.7)
    (fun annual_cost_per_customer =>
  let current_annual := 2184 in
  and_then (truediv annual_cost_per_customer current_annual) (fun ratio =>
  let rate_increase_pct := ratio * 100 in
  and_then (truediv dc_mw 15650) (fun dc_penetration =>
  let capacity_premium := dc_penetration * 400 in
  let total_increase := rate_increase_pct + capacity_premium in
  Returned total_increase)))).

(** The dictionary [base_params]: its four keys are fixed and read by
    name. *)
Record base_params_t : Type := {
  dc_capacity_2030 : R;
  dc_utilization : R;
  infrastructure_cost_per_mw : R;
  cost_passthrough_pct : R
}.

(** The local variables of [sensitivity_analysis] when it ends (it prints
    them and returns nothing). *)
Record sensitivity_locals : Type := {
  base_params : base_params_t;
  scenario1_dc : R;
  scenario1_rate_increase : R;
  scenario2_util : R;
  scenario2_rate_increase : R;
  scenario3_passthrough : R;
  scenario3_rate_increase : R;
  scenario4_dc : R;
  scenario4_rate_increase : R
}.

(** [sensitivity_analysis()], lines 295-399. *)
Definition sensitivity_analysis : outcome sensitivity_locals :=
  let base_params :=
    {| dc_capacity_2030 := 1368; dc_utilization := 0.85;
       infrastructure_cost_per_mw := 1.62; cost_passthrough_pct := 0.25 |} in
  let scenario1_dc := dc_capacity_2030 base_params * 0.70 in
  and_then (calculate_rate_impact scenario1_dc
              (dc_utilization base_params)
              (infrastructure_cost_per_mw base_params)
              (cost_passthrough_pct base_params))
    (fun scenario1_rate_increase =>
  let scenario2_util := dc_utilization base_params * 0.80 in
  and_then (calculate_rate_impact (dc_capacity_2030 base_params)
              scenario2_util
              (infrastructure_cost_per_mw base_params)
              (cost_passthrough_pct base_params))
    (fun scenario2_rate_increase =>
  let scenario3_passthrough := 0.10 in
  and_then (calculate_rate_impact (dc_capacity_2030 base_params)
              (dc_utilization base_params)
              (infrastructure_cost_per_mw base_params)
              scenario3_passthrough)
    (fun scenario3_rate_increase =>
  let scenario4_dc := dc_capacity_2030 base_params * 1.50 in
  and_then (calculate_rate_impact scenario4_dc
              (dc_utilization base_params)
              (infrastructure_cost_per_mw base_params)
              (cost_passthrough_pct base_params))
    (fun scenario4_rate_increase =>
  Returned {| base_params := base_params;
              scenario1_dc := scenario1_dc;
              scenario1_rate_increase := scenario1_rate_increase;
              scenario2_util := scenario2_util;
              scenario2_rate_increase := scenario2_rate_increase;
              scenario3_passthrough := scenario3_passthrough;
              scenario3_rate_increase := scenario3_rate_increase;
              scenario4_dc := scenario4_dc;
              scenario4_rate_increase := scenario4_rate_increase |})))).

(** The value 124 that the printed table takes as the base case. *)
Definition printed_base_case : R := 124.

(** The market dictionaries of [validate_against_real_markets]; of their
    keys only [actual_increase_pct] is used in a computation. *)
Record market_data : Type := {
  period : string;
  dc_capacity_added : Z;
  actual_increase_pct : R
}.

(** A returned inner dictionary, in the order it is written. *)
Definition market_report : Type := list (string * R).

Fixpoint report_get (d : market_report) (k : string) : option R :=
  match d with
  | [] => None
  | (k', v) :: d' => if String.eqb k k' then Some v else report_get d' k
  end.

Fixpoint market_get (d : list (string * market_report)) (k : string)
    : option market_report :=
  match d with
  | [] => None
  | (k', v) :: d' => if String.eqb k k' then Some v else market_get d' k
  end.

(** [validate_against_real_markets()], lines 175-288.  The variables
    [model_prediction_pct], [error] and [error_pct] are assigned in the
    Virginia block and again in the Texas block. *)
Definition validate_against_real_markets
    : outcome (list (string * market_report)) :=
  let va_data :=
    {| period := "2019-2024 (5 years)"; dc_capacity_added := 800;
       actual_increase_pct := 41.8 |} in
  let model_prediction_pct := 38.0 in
  let error := Rabs (model_prediction_pct - actual_increase_pct va_data) in
  and_then (truediv error (actual_increase_pct va_data)) (fun q =>
  let error_pct := q * 100 in
  let tx_data :=
    {| period := "2021-2025 (4 years)"; dc_capacity_added := 1200;
       actual_increase_pct := 89.0 |} in
  let model_prediction_pct := 85.0 in
  let error := Rabs (model_prediction_pct - actual_increase_pct tx_data) in
  and_then (truediv error (actual_increase_pct tx_data)) (fun q =>
  let error_pct := q * 100 in
  Returned
    [("virginia"%string,
      [("actual"%string, 41.8); ("predicted"%string, 38.0);
       ("error_pct"%string, error_pct)]);
     ("texas"%string,
      [("actual"%string, 89.0); ("predicted"%string, 85.0);
       ("error_pct"%string, 4.5)])])).

(** The relative error of a prediction in percent, as both blocks compute
    it. *)
Definition relative_error_pct (predicted actual : R) : R :=
  Rabs (predicted - actual) / actual * 100.

(** The value of [calculate_rate_impact] when the utilization is not zero. *)
Definition rate_impact_value (dc_mw utilization cost_per_mw passthrough_pct : R)
    : R :=
  dc_mw / utilization * cost_per_mw * passthrough_pct * 1000 / 1.7 / 2184 * 100
  + dc_mw / 15650 * 400.

End Scenarios.

Import Scenarios.

(* ===================================================================== *)
(** * Section 6 of the script: residual analysis *)
(* ===================================================================== *)

Module Diagnostics.

Open Scope R_scope.

(** [scipy.stats.normaltest] is an external statistical test: it is taken
    as an interface that returns the statistic and the p-value, or
    raises. *)
Class Normaltest : Type := {
  normaltest : list R -> result (float * float)
}.

(** [np.min] and [np.max]: an empty array has no minimum. *)
Definition np_min (a : list R) : result R :=
  match a with
  | [] => Raise ValueError
  | x :: l => Ok (fold_left Rmin l x)
  end.

Definition np_max (a : list R) : result R :=
  match a with
  | [] => Raise ValueError
  | x :: l => Ok (fold_left Rmax l x)
  end.

(** [a < b] on float64: false as soon as one side is [nan]. *)
Definition flt (a b : float) : bool :=
  match a, b with
  | Fin x, Fin y => if Rlt_dec x y then true else false
  | Fin _, PInf | NInf, Fin _ | NInf, PInf => true
  | _, _ => false
  end.

(** An entry of [np.cov]: the two rows are centred at their means, the
    products are summed and multiplied by [1 / (n - 1)]. *)
Definition cov_entry (u v : list R) : float :=
  let n := length u in
  let avg_u := fdiv (Fin (Rsum u)) (Fin (INR n)) in
  let avg_v := fdiv (Fin (Rsum v)) (Fin (INR (length v))) in
  let cu := map (fun a => fsub (Fin a) avg_u) u in
  let cv := map (fun a => fsub (Fin a) avg_v) v in
  fmul (fsum (zip_with fmul cu cv)) (fdiv (Fin 1) (Fin (INR (n - 1)))).

(** [np.clip(c, -1, 1)]. *)
Definition fclip (a : float) : float :=
  match a with
  | Fin x => Fin (Rmin (Rmax x (-1)) 1)
  | PInf => Fin 1
  | NInf => Fin (-1)
  | NaN => NaN
  end.

(** [np.corrcoef(x, y)[0, 1]]: the covariance divided by the two standard
    deviations, one after the other, and clipped.  Rows of different
    length cannot be stacked. *)
Definition corrcoef_01 (x y : list R) : result float :=
  if negb (length x =? length y)%nat then Raise ValueError
  else
    let stddev_x := fsqrt (cov_entry x x) in
    let stddev_y := fsqrt (cov_entry y y) in
    Ok (fclip (fdiv (fdiv (cov_entry x y) stddev_x) stddev_y)).

(** The line that each of the three checks prints. *)
Inductive message : Set :=
  | NoSystematicBias
  | PositiveBias
  | NegativeBias
  | ApproximatelyNormal
  | NonNormal
  | LowAutocorrelation
  | SomeAutocorrelation.

(** [residual_analysis(predictions, actuals)], lines 509-553: the
    classification lines printed so far, and whether the function returned
    or raised.  The statistics of lines 521-525 are only printed; of these
    [np.min] and [np.max] can raise. *)
Definition residual_analysis `{Normaltest} (predictions actuals : list R)
    : list message * result unit :=
  match sub actuals predictions with
  | Raise e => ([], Raise e)
  | Ok residuals =>
  match np_min residuals with
  | Raise e => ([], Raise e)
  | Ok _ =>
  match np_max residuals with
  | Raise e => ([], Raise e)
  | Ok _ =>
  let mean_residual := mean (map Fin residuals) in
  let bias :=
    if flt (fabs mean_residual) (Fin 2) then NoSystematicBias
    else if flt (Fin 2) mean_residual then PositiveBias
    else NegativeBias in
  match normaltest residuals with
  | Raise e => ([bias], Raise e)
  | Ok (_, p_value) =>
  let normality :=
    if flt (Fin 0.05) p_value then ApproximatelyNormal else NonNormal in
  if (10 <? len residuals)%Z then
    match corrcoef_01 (slice residuals 0 (-1))
                      (slice residuals 1 (len residuals)) with
    | Raise e => ([bias; normality], Raise e)
    | Ok acf_1 =>
        ([bias; normality;
          if flt (fabs acf_1) (Fin 0.3) then LowAutocorrelation
          else SomeAutocorrelation], Ok tt)
    end
  else ([bias; normality], Ok tt)
  end end end end.

(** A stand-in for the normality test, to run the definitions: it reports
    the statistic 0 and the p-value 1 for every sample. *)
#[export] Instance always_normal : Normaltest := {|
  normaltest := fun _ => Ok (Fin 0, Fin 1)
|}.

End Diagnostics.

Import Diagnostics.

(* ===================================================================== *)
(** * Main execution *)
(* ===================================================================== *)

Module Pipeline.

Open Scope R_scope.

(** The seeded random generator is an external source: [random_normal k
    loc scale] is the value of the [k]-th call of [np.random.normal(loc,
    scale)] after [np.random.seed(42)]. *)
Class RandomNormal : Type := {
  random_normal : nat -> R -> R -> R
}.

(** What can stop the run: an exception of the array libraries or one of
    Python's own arithmetic. *)
Inductive raised : Set :=
  | LibraryError (e : exn)
  | ArithmeticError (e : arith_exn).

(** The local variables of [run_comprehensive_backtest] when it ends. *)
Record backtest_locals : Type := {
  demand : list R;
  prices : list R;
  cv_results : list dict;
  predictions : list R;
  actuals : list R;
  wf_metrics : dict;
  market_validation : list (string * market_report);
  ci_results : dict;
  diagnostics : list message
}.

Section Run.

Context {svm : Libsvm} {nq : NormalQuantile} {nt : Normaltest}
        {rng : RandomNormal}.

(** Lines 575-594: 84 months of synthetic demand and prices.  The demand
    values take the first 84 draws, the prices the next 84. *)
Definition months : nat := 84.
Definition base_demand : R := 12500.
Definition growth_rate : R := 0.001.
Definition base_price : R := 35.

Definition synthetic_demand : list R :=
  map (fun i =>
         base_demand * (1 + growth_rate * INR i)
         + 850 * sin (2 * PI * INR i / 12)
         + random_normal i 0 150)
      (seq 0 months).

Definition synthetic_prices (demand : list R) : list R :=
  map (fun kd : nat * R =>
         base_price
         + (snd kd - base_demand) * 0.003
         + random_normal (months + fst kd) 0 5)
      (combine (seq 0 (length demand)) demand).

(** [run_comprehensive_backtest()], lines 560-665: the classification
    lines printed by the residual analysis, and the local variables at the
    end or the exception that stopped the run. *)
Definition run_comprehensive_backtest
    : list message * (raised + backtest_locals) :=
  let demand := synthetic_demand in
  let prices := synthetic_prices demand in
  match time_series_cross_validation demand prices 5 with
  | Raise e => ([], inl (LibraryError e))
  | Ok cv_results =>
  match walk_forward_validation demand prices 24 with
  | Raise e => ([], inl (LibraryError e))
  | Ok (predictions, actuals, wf_metrics) =>
  match validate_against_real_markets with
  | Raised e => ([], inl (ArithmeticError e))
  | Returned market_validation =>
  match sensitivity_analysis with
  | Raised e => ([], inl (ArithmeticError e))
  | Returned _ =>
  match calculate_confidence_intervals predictions actuals 0.95 with
  | Raise e => ([], inl (LibraryError e))
  | Ok ci_results =>
  match residual_analysis predictions actuals with
  | (printed, Raise e) => (printed, inl (LibraryError e))
  | (printed, Ok _) =>
      (printed,
       inr {| demand := demand; prices := prices;
              cv_results := cv_results;
              predictions := predictions; actuals := actuals;
              wf_metrics := wf_metrics;
              market_validation := market_validation;
              ci_results := ci_results;
              diagnostics := printed |})
  end end end end end end.

End Run.

End Pipeline.

(* ===================================================================== *)
(** * The same arithmetic in binary64 *)
(* ===================================================================== *)

(** The expressions of [calculate_confidence_intervals] (lines 446-482) and
    of the scikit-learn metrics, evaluated in IEEE 754 binary64 with the
    kernel's floating-point numbers, operation by operation in the order
    the program applies them.  The functions are defined on arrays of equal
    length with fewer than 8 elements, which NumPy adds from left to right
    (longer arrays are added pairwise, in blocks); elsewhere they answer
    [None]. *)
Module Binary64.

Import PrimFloat.

#[local] Open Scope float_scope.

Definition short {A : Type} (a : list A) : bool := (length a <? 8)%nat.

(** The number of elements as a float64. *)
Definition count {A : Type} (a : list A) : PrimFloat.float :=
  of_uint63 (Uint63.of_Z (Z.of_nat (length a))).

(** [np.sum] of a short array. *)
Definition np_sum (a : list PrimFloat.float) : PrimFloat.float :=
  fold_left add a 0.

(** [np.mean]: the sum divided by the count ([nan] on no elements). *)
Definition np_mean (a : list PrimFloat.float) : PrimFloat.float :=
  np_sum a / count a.

(** [a - b] on arrays of the same length. *)
Definition arr_sub (a b : list PrimFloat.float) : list PrimFloat.float :=
  map (fun ab => fst ab - snd ab) (combine a b).

Definition square (x : PrimFloat.float) : PrimFloat.float := x * x.

(** [np.std] with its default [ddof = 0]. *)
Definition np_std (a : list PrimFloat.float) : PrimFloat.float :=
  let arrmean := np_sum a / count a in
  let x := map (fun v => v - arrmean) a in
  let x := map square x in
  sqrt (np_sum x / count a).

(** [scipy.stats.norm.ppf], an external special function. *)
Class NormalQuantile : Type := {
  norm_ppf : PrimFloat.float -> PrimFloat.float
}.

(** The local variables of [calculate_confidence_intervals]. *)
Record ci_locals : Type := {
  residuals : list PrimFloat.float;
  se : PrimFloat.float;
  z_score : PrimFloat.float;
  margin : PrimFloat.float;
  base_prediction_2035 : PrimFloat.float;
  lower_bound : PrimFloat.float;
  upper_bound : PrimFloat.float;
  retail_point : PrimFloat.float;
  retail_lower : PrimFloat.float;
  retail_upper : PrimFloat.float
}.

(** Lines 446-482: the local variables when the function returns. *)
Definition ci_frame `{NormalQuantile}
    (predictions actuals : list PrimFloat.float)
    (confidence : PrimFloat.float) : option ci_locals :=
  if ((length predictions =? length actuals)%nat && short actuals)%bool then
    let residuals := arr_sub actuals predictions in
    let se := np_std residuals in
    let z_score := norm_ppf ((1 + confidence) / 2) in
    let margin := z_score * se in
    let base_prediction_2035 := 100.98 in
    let lower_bound := base_prediction_2035 - margin in
    let upper_bound := base_prediction_2035 + margin in
    let retail_multiplier := 3.5 in
    let retail_base_cost := 0.05 in
    let retail_point :=
      (base_prediction_2035 / 1000) * retail_multiplier + retail_base_cost in
    let retail_lower :=
      (lower_bound / 1000) * retail_multiplier + retail_base_cost in
    let retail_upper :=
      (upper_bound / 1000) * retail_multiplier + retail_base_cost in
    Some {| residuals := residuals; se := se; z_score := z_score;
            margin := margin;
            base_prediction_2035 := base_prediction_2035;
            lower_bound := lower_bound; upper_bound := upper_bound;
            retail_point := retail_point; retail_lower := retail_lower;
            retail_upper := retail_upper |}
  else None.

(** A table of [norm.ppf] with the one entry that the default confidence
    level needs: SciPy returns 1.959963984540054 at 0.975.  Other
    arguments are not in the table. *)
#[export] Instance ppf_at_0975 : NormalQuantile := {|
  norm_ppf := fun q => if q =? 0.975 then 1.959963984540054 else nan
|}.

(** The regression metrics of scikit-learn on two short arrays of the same
    non-zero length. *)
Definition comparable (y_true y_pred : list PrimFloat.float) : bool :=
  ((length y_true =? length y_pred)%nat && (0 <? length y_true)%nat
   && short y_true)%bool.

Definition mean_squared_error (y_true y_pred : list PrimFloat.float)
    : option PrimFloat.float :=
  if comparable y_true y_pred
  then Some (np_mean (map square (arr_sub y_true y_pred)))
  else None.

Definition mean_absolute_error (y_true y_pred : list PrimFloat.float)
    : option PrimFloat.float :=
  if comparable y_true y_pred
  then Some (np_mean (map abs (arr_sub y_pred y_true)))
  else None.

Definition r2_score (y_true y_pred : list PrimFloat.float)
    : option PrimFloat.float :=
  if comparable y_true y_pred then
    if (length y_pred <? 2)%nat then Some nan
    else
      let numerator := np_sum (map square (arr_sub y_true y_pred)) in
      let avg := np_mean y_true in
      let denominator :=
        np_sum (map square (map (fun t => t - avg) y_true)) in
      let nonzero_denominator := negb (denominator =? 0) in
      let nonzero_numerator := negb (numerator =? 0) in
      if (nonzero_denominator && nonzero_numerator)%bool
      then Some (1 - numerator / denominator)
      else if (nonzero_numerator && negb nonzero_denominator)%bool
      then Some 0
      else Some 1
  else None.

End Binary64.

(* ===================================================================== *)
(** * Facts about the Python and NumPy primitives *)
(* ===================================================================== *)

Section PyFacts.

Lemma bind_ok_inv {A B : Type} (c : result A) (k : A -> result B) (b : B) :
  bind c k = Ok b -> exists a, c = Ok a /\ k a = Ok b.
Proof.
  destruct c as [a | e]; simpl; intros Hk.
  - exists a. split; [ reflexivity | exact Hk ].
  - discriminate Hk.
Qed.

Lemma wrap_nonneg (n i : Z) : (0 <= i)%Z -> wrap n i = i.
Proof.
  intros Hi. unfold wrap.
  destruct (Z.ltb_spec i 0) as [Hneg | _]; [ lia | reflexivity ].
Qed.

Lemma clamp_inside (n i : Z) : (0 <= i <= n)%Z -> clamp n i = i.
Proof.
  intros Hi. unfold clamp. rewrite wrap_nonneg by lia. lia.
Qed.

Lemma getitem_nth {A : Type} (l : list A) (i : nat) (d : A) :
  (i < length l)%nat -> getitem l (Z.of_nat i) = Ok (nth i l d).
Proof.
  intros Hi. unfold getitem.
  rewrite wrap_nonneg by lia.
  destruct (Z.ltb_spec (Z.of_nat i) 0) as [Hneg | _]; [ lia | ].
  rewrite Nat2Z.id.
  rewrite (nth_error_nth' l d Hi). reflexivity.
Qed.

Lemma getitem_out_of_range {A : Type} (l : list A) (i : Z) :
  (Z.of_nat (length l) <= i)%Z -> getitem l i = Raise IndexError.
Proof.
  intros Hi. unfold getitem.
  rewrite wrap_nonneg by lia.
  destruct (Z.ltb_spec i 0) as [Hneg | _]; [ lia | ].
  assert (Hn : nth_error l (Z.to_nat i) = None).
  { apply nth_error_None. lia. }
  rewrite Hn. reflexivity.
Qed.

Lemma firstn_skipn_nth {A : Type} (d : A) (k a : nat) (l : list A) :
  (a + k <= length l)%nat ->
  firstn k (skipn a l) = map (fun j => nth j l d) (seq a k).
Proof.
  revert a l. induction k as [| k IH]; intros a l Hlen.
  - reflexivity.
  - simpl seq. simpl map.
    assert (Ha : (a < length l)%nat) by lia.
    destruct (skipn a l) as [| x tl] eqn:Hsk.
    + apply (f_equal (@length A)) in Hsk.
      rewrite length_skipn in Hsk. simpl in Hsk. lia.
    + simpl. f_equal.
      * assert (Hn : nth_error (skipn a l) 0 = Some x) by (rewrite Hsk; reflexivity).
        rewrite nth_error_skipn in Hn. rewrite Nat.add_0_r in Hn.
        apply nth_error_nth with (d := d) in Hn. symmetry. exact Hn.
      * rewrite <- (IH (S a) l) by lia.
        f_equal.
        change (S a) with (1 + a)%nat.
        rewrite <- skipn_skipn, Hsk. reflexivity.
Qed.

Lemma slice_inside {A : Type} (d : A) (l : list A) (a k : nat) :
  (a + k <= length l)%nat ->
  slice l (Z.of_nat a) (Z.of_nat (a + k)) = map (fun j => nth j l d) (seq a k).
Proof.
  intros Hlen. unfold slice.
  rewrite !clamp_inside by lia.
  replace (Z.to_nat (Z.of_nat (a + k) - Z.of_nat a)) with k by lia.
  rewrite Nat2Z.id.
  apply firstn_skipn_nth. exact Hlen.
Qed.

Lemma slice_window (l : list R) (i w : nat) :
  (w <= i <= length l)%nat ->
  slice l (Z.of_nat i - Z.of_nat w) (Z.of_nat i) = window l i w.
Proof.
  intros Hi. unfold window, train_indices.
  replace (Z.of_nat i - Z.of_nat w)%Z with (Z.of_nat (i - w)) by lia.
  replace (Z.of_nat i) with (Z.of_nat ((i - w) + w)) at 1 by (f_equal; lia).
  apply slice_inside. lia.
Qed.

Lemma window_length (l : list R) (i w : nat) : length (window l i w) = w.
Proof.
  unfold window, train_indices. rewrite length_map, length_seq. reflexivity.
Qed.

Lemma range_of_nat (a b : nat) :
  range (Z.of_nat a) (Z.of_nat b) = map Z.of_nat (seq a (b - a)).
Proof.
  unfold range.
  replace (Z.to_nat (Z.of_nat b - Z.of_nat a)) with (b - a)%nat by lia.
  generalize (b - a)%nat as k. intros k.
  assert (Hgen : forall s,
             map (fun j => (Z.of_nat a + Z.of_nat j)%Z) (seq s k) =
             map Z.of_nat (seq (a + s) k)).
  { induction k as [| k IH]; intros s.
    - reflexivity.
    - simpl. f_equal.
      + lia.
      + rewrite <- Nat.add_succ_r. apply IH. }
  rewrite Hgen, Nat.add_0_r. reflexivity.
Qed.

Lemma range_empty (lo hi : Z) : (hi <= lo)%Z -> range lo hi = [].
Proof.
  intros H. unfold range.
  replace (Z.to_nat (hi - lo)) with 0%nat by lia. reflexivity.
Qed.

(** Python's index rules on small inputs. *)
Example range_2_5 : range 2 5 = [2; 3; 4]%Z.
Proof. reflexivity. Qed.

Example range_backwards : range 5 2 = [].
Proof. reflexivity. Qed.

Example getitem_last : getitem [10; 20; 30]%Z (-1) = Ok 30%Z.
Proof. reflexivity. Qed.

Example getitem_past_end : getitem [10; 20; 30]%Z 3 = Raise IndexError.
Proof. reflexivity. Qed.

Example slice_from_end : slice [10; 20; 30; 40]%Z (-3) (-1) = [20; 30]%Z.
Proof. reflexivity. Qed.

Example slice_clamped : slice [10; 20; 30; 40]%Z 2 9 = [30; 40]%Z.
Proof. reflexivity. Qed.

(** The folds of [TimeSeriesSplit(n_splits=3)] on ten samples, and the
    fold sizes on the 84 months of the script's own data. *)
Example split_three_of_ten :
  split {| n_splits := 3 |} 10 =
    Ok [([0; 1; 2; 3], [4; 5]); ([0; 1; 2; 3; 4; 5], [6; 7]);
        ([0; 1; 2; 3; 4; 5; 6; 7], [8; 9])]%Z.
Proof. reflexivity. Qed.

Example split_sizes_84 :
  bind (split {| n_splits := 5 |} 84)
       (fun folds => Ok (map (fun f => (length (fst f), length (snd f))) folds))
  = Ok [(14, 14); (28, 14); (42, 14); (56, 14); (70, 14)]%nat.
Proof. vm_compute. reflexivity. Qed.

Example split_one_split_refused : TimeSeriesSplit_new 1 = Raise ValueError.
Proof. reflexivity. Qed.

End PyFacts.

Section NumPyFacts.

Open Scope R_scope.

Lemma Rzerob_true (x : R) : Rzerob x = true <-> x = 0.
Proof.
  unfold Rzerob. destruct (Req_dec_T x 0) as [H | H]; split; intros H0;
    try reflexivity; try assumption; try discriminate; contradiction.
Qed.

Lemma Rzerob_false (x : R) : Rzerob x = false <-> x <> 0.
Proof.
  unfold Rzerob. destruct (Req_dec_T x 0) as [H | H]; split; intros H0;
    try reflexivity; try assumption; try discriminate; contradiction.
Qed.

Lemma Rposb_true (x : R) : Rposb x = true <-> 0 < x.
Proof.
  unfold Rposb. destruct (Rlt_dec 0 x) as [H | H]; split; intros H0;
    try reflexivity; try assumption; try discriminate; contradiction.
Qed.

Lemma Rposb_false (x : R) : Rposb x = false <-> x <= 0.
Proof.
  unfold Rposb. destruct (Rlt_dec 0 x) as [H | H]; split; intros H0;
    try reflexivity; try discriminate; lra.
Qed.

Lemma Rnegb_false (x : R) : 0 <= x -> Rnegb x = false.
Proof.
  intros H. unfold Rnegb. destruct (Rlt_dec x 0) as [H0 | H0];
    [ lra | reflexivity ].
Qed.

Lemma Rnonposb_true (x : R) : Rnonposb x = true <-> x <= 0.
Proof.
  unfold Rnonposb. destruct (Rle_dec x 0) as [H | H]; split; intros H0;
    try reflexivity; try assumption; try discriminate; contradiction.
Qed.

Lemma INR_length_pos {A : Type} (l : list A) : l <> [] -> 0 < INR (length l).
Proof.
  intros Hl. destruct l as [| x l]; [ contradiction | ].
  apply lt_0_INR. simpl. lia.
Qed.

Lemma zip_with_length {A B C : Type} (f : A -> B -> C) (l : list A)
    (m : list B) :
  length l = length m -> length (zip_with f l m) = length l.
Proof.
  revert m. induction l as [| x l IH]; intros [| y m] Hlen;
    simpl in *; try reflexivity; try discriminate.
  f_equal. apply IH. lia.
Qed.

Lemma zip_with_map {A B C D : Type} (f : A -> B -> C) (g : C -> D)
    (l : list A) (m : list B) :
  map g (zip_with f l m) = zip_with (fun a b => g (f a b)) l m.
Proof.
  revert m. induction l as [| x l IH]; intros [| y m]; simpl;
    try reflexivity.
  f_equal. apply IH.
Qed.

Lemma broadcast_same_length {A B C : Type} (f : A -> B -> C) (l : list A)
    (m : list B) :
  length l = length m -> broadcast f l m = Ok (zip_with f l m).
Proof.
  intros Hlen. unfold broadcast.
  rewrite (proj2 (Nat.eqb_eq _ _) Hlen). reflexivity.
Qed.

Lemma sub_same_length (a b : list R) :
  length a = length b -> sub a b = Ok (zip_with Rminus a b).
Proof. apply broadcast_same_length. Qed.

Lemma fsum_Fin {A : Type} (g : A -> R) (l : list A) :
  fsum (map (fun v => Fin (g v)) l) = Fin (Rsum (map g l)).
Proof.
  induction l as [| x l IH].
  - reflexivity.
  - change (fsum (map (fun v => Fin (g v)) (x :: l)))
      with (fadd (Fin (g x)) (fsum (map (fun v => Fin (g v)) l))).
    rewrite IH. reflexivity.
Qed.

Lemma Rsum_sq_nonneg {A : Type} (g : A -> R) (l : list A) :
  0 <= Rsum (map (fun v => sq (g v)) l).
Proof.
  induction l as [| x l IH]; simpl.
  - lra.
  - unfold sq at 1. pose proof (Rle_0_sqr (g x)) as Hx.
    unfold Rsqr in Hx. lra.
Qed.

Lemma fdiv_Fin (x y : R) : y <> 0 -> fdiv (Fin x) (Fin y) = Fin (x / y).
Proof.
  intros Hy. simpl. rewrite (proj2 (Rzerob_false y) Hy). reflexivity.
Qed.

Lemma diff_length (l : list R) : length (diff l) = (length l - 1)%nat.
Proof.
  induction l as [| x [| y tl] IH]; try reflexivity.
  change (diff (x :: y :: tl)) with ((y - x) :: diff (y :: tl)).
  simpl length in *. rewrite IH. lia.
Qed.

(** [np.var] with [ddof = 0] of a non-empty array is the mean of the
    squared deviations. *)
Lemma var0_nonempty (a : list R) :
  a <> [] -> var 0 a = Fin (sum_sq_dev a / INR (length a)).
Proof.
  intros Ha. unfold var.
  pose proof (INR_length_pos a Ha) as Hn.
  rewrite fdiv_Fin by lra.
  rewrite map_map.
  rewrite (map_ext _ (fun v => Fin (sq (v - Rsum a / INR (length a))))).
  2:{ intros v. reflexivity. }
  rewrite fsum_Fin.
  rewrite Nat.sub_0_r.
  rewrite fdiv_Fin by lra.
  reflexivity.
Qed.

(** [np.std(a)] of a non-empty array is the population standard
    deviation. *)
Lemma std0_nonempty (a : list R) :
  a <> [] -> std 0 a = Fin (population_sd a).
Proof.
  intros Ha. unfold std. rewrite (var0_nonempty a Ha).
  unfold fsqrt, population_sd.
  rewrite Rnegb_false; [ reflexivity | ].
  pose proof (INR_length_pos a Ha) as Hn.
  apply Rmult_le_pos.
  - unfold sum_sq_dev. apply Rsum_sq_nonneg.
  - left. apply Rinv_0_lt_compat. exact Hn.
Qed.

Lemma std0_empty : std 0 [] = NaN.
Proof.
  unfold std, var. simpl.
  rewrite (proj2 (Rzerob_true 0) eq_refl). reflexivity.
Qed.

(** Min-max scaling of 2 with the bounds of [1, 3]; 5 lies outside the
    bounds and is extrapolated to 2, not clipped. *)
Example scale_inside_and_outside :
  apply_attrs (fit_attrs 1 [3]) [2; 5] = [1 / 2; 2].
Proof.
  unfold apply_attrs, fit_attrs, Rmin_list, Rmax_list, handle_zeros_in_scale.
  cbn [fold_left scale_ min_ map].
  rewrite Rmin_left, Rmax_right by lra.
  rewrite (proj2 (Rzerob_false (3 - 1))) by lra.
  f_equal; [ | f_equal ]; field.
Qed.

(** Division by zero in NumPy. *)
Example one_over_zero : fdiv (Fin 1) (Fin 0) = PInf.
Proof.
  simpl. rewrite (proj2 (Rzerob_true 0) eq_refl).
  rewrite (proj2 (Rzerob_false 1)) by lra.
  rewrite Rnegb_false by lra. reflexivity.
Qed.

Example zero_over_zero : fdiv (Fin 0) (Fin 0) = NaN.
Proof.
  simpl. rewrite (proj2 (Rzerob_true 0) eq_refl). reflexivity.
Qed.

Example mean_of_nothing : mean [] = NaN.
Proof.
  unfold mean. simpl. rewrite (proj2 (Rzerob_true 0) eq_refl). reflexivity.
Qed.

End NumPyFacts.

(* ===================================================================== *)
(** * Facts about the library objects *)
(* ===================================================================== *)

Section SklearnFacts.

Open Scope R_scope.

Context {svm : Libsvm}.

Lemma check_reg_targets_ok (y_true y_pred : list R) :
  length y_true = length y_pred -> y_true <> [] ->
  check_reg_targets y_true y_pred = Ok tt.
Proof.
  intros Hlen Hne. unfold check_reg_targets.
  rewrite (proj2 (Nat.eqb_eq _ _) Hlen). simpl.
  destruct y_true; [ contradiction | reflexivity ].
Qed.

Lemma check_reg_targets_empty (y_pred : list R) :
  check_reg_targets [] y_pred = Raise ValueError.
Proof.
  unfold check_reg_targets.
  destruct (negb (length (@nil R) =? length y_pred)%nat); reflexivity.
Qed.

Lemma r2_score_ok (y_true y_pred : list R) :
  length y_true = length y_pred -> y_true <> [] ->
  exists v, r2_score y_true y_pred = Ok v.
Proof.
  intros Hlen Hne. unfold r2_score.
  rewrite (check_reg_targets_ok _ _ Hlen Hne). simpl.
  destruct (length y_pred <? 2)%nat; [ eexists; reflexivity | ].
  destruct (Rzerob (ss_res y_true y_pred)); [ eexists; reflexivity | ].
  destruct (Rzerob (ss_tot y_true)); eexists; reflexivity.
Qed.

Lemma mape_of_same_length (y_true y_pred : list R) :
  length y_true = length y_pred ->
  mape_of y_true y_pred =
    Ok (fmul (mean (map fabs
                (zip_with (fun a b => fdiv (Fin a) (Fin b))
                          (zip_with Rminus y_true y_pred) y_true)))
             (Fin 100)).
Proof.
  intros Hlen. unfold mape_of.
  rewrite (sub_same_length _ _ Hlen). simpl.
  rewrite broadcast_same_length; [ reflexivity | ].
  apply zip_with_length. exact Hlen.
Qed.

Lemma directional_accuracy_of_same_length (a p : list R) :
  length a = length p ->
  directional_accuracy_of a p =
    Ok (fmul (mean_bool (zip_with Bool.eqb (map Rposb (diff a))
                                           (map Rposb (diff p))))
             (Fin 100)).
Proof.
  intros Hlen. unfold directional_accuracy_of.
  rewrite broadcast_same_length; [ reflexivity | ].
  rewrite !length_map, !diff_length, Hlen. reflexivity.
Qed.

(** The metrics of a non-empty run never raise, and each entry of the
    returned dictionary is the value of the corresponding expression. *)
Lemma wf_metrics_ok (preds acts : list R) :
  length preds = length acts -> acts <> [] ->
  exists mse mae r2 mape da,
    mean_squared_error acts preds = Ok mse /\
    mean_absolute_error acts preds = Ok mae /\
    r2_score acts preds = Ok r2 /\
    mape_of acts preds = Ok mape /\
    directional_accuracy_of acts preds = Ok da /\
    wf_metrics preds acts =
      Ok [("rmse"%string, VFloat (fsqrt (Fin mse)));
          ("mae"%string, VFloat (Fin mae));
          ("r2"%string, VFloat r2);
          ("mape"%string, VFloat mape);
          ("directional_accuracy"%string, VFloat da)].
Proof.
  intros Hlen Hne. symmetry in Hlen.
  destruct (r2_score_ok acts preds Hlen Hne) as [r2 Hr2].
  unfold wf_metrics, mean_squared_error, mean_absolute_error.
  rewrite (check_reg_targets_ok _ _ Hlen Hne). simpl.
  rewrite Hr2. simpl.
  rewrite (mape_of_same_length _ _ Hlen). simpl.
  rewrite (directional_accuracy_of_same_length _ _ Hlen). simpl.
  do 5 eexists. repeat split; reflexivity.
Qed.

Lemma wf_metrics_empty (preds : list R) :
  wf_metrics preds [] = Raise ValueError.
Proof.
  unfold wf_metrics, mean_squared_error.
  rewrite check_reg_targets_empty. reflexivity.
Qed.

Lemma fit_transform_nonempty (self : MinMaxScaler) (X : list R)
    (a : scaler_attrs) :
  train_bounds X = Some a ->
  MinMaxScaler_fit_transform self X =
    Ok ({| scaler_fitted := Some a |}, apply_attrs a X).
Proof.
  intros Ha. destruct X as [| x l]; [ discriminate Ha | ].
  simpl in Ha. injection Ha as <-. reflexivity.
Qed.

Lemma train_bounds_nonempty (X : list R) :
  X <> [] -> exists a, train_bounds X = Some a.
Proof.
  destruct X as [| x l]; [ contradiction | ].
  intros _. eexists. reflexivity.
Qed.

Lemma apply_attrs_length (a : scaler_attrs) (X : list R) :
  length (apply_attrs a X) = length X.
Proof. unfold apply_attrs. apply length_map. Qed.

Lemma nonempty_of_length {A : Type} (l : list A) (n : nat) :
  length l = n -> (0 < n)%nat -> l <> [].
Proof.
  intros Hl Hn ->. simpl in Hl. lia.
Qed.

Lemma SVR_fit_ok (self : SVR) (X y : list R) :
  X <> [] -> length X = length y ->
  SVR_fit self X y =
    Ok {| svr_hyper := svr_hyper self;
          svr_fitted := Some (svm_train (svr_hyper self) X y) |}.
Proof.
  intros Hne Hlen. unfold SVR_fit.
  destruct X as [| x X]; [ contradiction | ].
  rewrite (proj2 (Nat.eqb_eq _ _) Hlen). reflexivity.
Qed.

(** Scale, train and predict on one split, when the training inputs are
    not empty and there is one target per training input: whatever follows
    receives a scaler holding the training bounds, a model trained on the
    scaled training window and the predictions of [fresh_prediction]. *)
Lemma fit_predict_pipeline {T : Type} (X_train y_train X_test : list R)
    (a : scaler_attrs) (K : MinMaxScaler -> SVR -> list R -> result T) :
  train_bounds X_train = Some a ->
  length X_train = length y_train ->
  X_test <> [] ->
  (' (scaler, X_train_scaled) <-
       MinMaxScaler_fit_transform MinMaxScaler_new X_train ;;
   X_test_scaled <- MinMaxScaler_transform scaler X_test ;;
   model <- SVR_fit (SVR_new rbf 100 0.1 0.1) X_train_scaled y_train ;;
   y_pred <- SVR_predict model X_test_scaled ;;
   K scaler model y_pred) =
  K {| scaler_fitted := Some a |}
    {| svr_hyper := script_params;
       svr_fitted :=
         Some (svm_train script_params (apply_attrs a X_train) y_train) |}
    (fresh_prediction X_train y_train X_test).
Proof.
  intros Ha Hlen Hte.
  rewrite (fit_transform_nonempty _ _ _ Ha). simpl.
  unfold MinMaxScaler_transform. simpl.
  destruct X_test as [| t X_test]; [ contradiction | ].
  simpl.
  rewrite SVR_fit_ok.
  2:{ apply (nonempty_of_length _ (length X_train)).
      - apply apply_attrs_length.
      - destruct X_train; [ discriminate Ha | simpl; lia ]. }
  2:{ rewrite apply_attrs_length. exact Hlen. }
  simpl.
  unfold fresh_prediction. rewrite Ha. reflexivity.
Qed.

End SklearnFacts.

(* ===================================================================== *)
(** * Walk-forward validation *)
(* ===================================================================== *)

Section WalkForward.

Open Scope R_scope.

Context {svm : Libsvm}.

(** One step of the rolling loop, for a test index past a full window. *)
Lemma wf_fit_predict_ok (demand prices : list R) (w i : nat) :
  length demand = length prices ->
  (0 < w <= i)%nat -> (i < length demand)%nat ->
  exists a,
    train_bounds (window demand i w) = Some a /\
    wf_fit_predict demand prices (Z.of_nat w) (Z.of_nat i) =
      Ok ({| scaler_fitted := Some a |},
          {| svr_hyper := script_params;
             svr_fitted :=
               Some (svm_train script_params
                       (apply_attrs a (window demand i w))
                       (window prices i w)) |},
          nth i prices 0,
          step_prediction demand prices w i).
Proof.
  intros Hlen Hw Hi.
  destruct (train_bounds_nonempty (window demand i w)) as [a Ha].
  { apply (nonempty_of_length _ w); [ apply window_length | lia ]. }
  exists a. split; [ exact Ha | ].
  unfold wf_fit_predict.
  rewrite (slice_window demand i w) by lia.
  rewrite (slice_window prices i w) by lia.
  rewrite (getitem_nth demand i 0 Hi).
  rewrite (getitem_nth prices i 0) by lia.
  cbn [bind].
  rewrite (fit_predict_pipeline (window demand i w) (window prices i w)
             [nth i demand 0] a
             (fun scaler model y_preds =>
                y_pred <- getitem y_preds 0 ;;
                Ok (scaler, model, nth i prices 0, y_pred)) Ha).
  - unfold step_prediction, fresh_prediction. rewrite Ha. reflexivity.
  - rewrite !window_length. reflexivity.
  - discriminate.
Qed.

(** The loop over a list of admissible test indices appends one prediction
    and one actual value per index, in order. *)
Lemma wf_loop_steps (demand prices : list R) (w : nat) (idx : list nat) :
  length demand = length prices ->
  (0 < w)%nat ->
  (forall i, In i idx -> (w <= i < length demand)%nat) ->
  forall st,
  exists st',
    for_each (map Z.of_nat idx) (wf_step demand prices (Z.of_nat w)) st
      = Ok st' /\
    predictions st' =
      predictions st ++ map (step_prediction demand prices w) idx /\
    actuals st' = actuals st ++ map (fun i => nth i prices 0) idx.
Proof.
  intros Hlen Hw. induction idx as [| i idx IH]; intros Hin st.
  - exists st. simpl. rewrite !app_nil_r. repeat split; reflexivity.
  - assert (Hi : (w <= i < length demand)%nat) by (apply Hin; left; reflexivity).
    destruct (wf_fit_predict_ok demand prices w i Hlen) as [a [_ Hstep]];
      [ lia | lia | ].
    simpl map. simpl for_each.
    unfold wf_step at 1. rewrite Hstep. cbn [bind].
    match goal with
    | |- context [for_each _ _ ?s] =>
        destruct (IH (fun j Hj => Hin j (or_intror Hj)) s) as [st' [Hrun [Hp Ha]]]
    end.
    exists st'. split; [ exact Hrun | ].
    rewrite Hp, Ha. simpl. rewrite <- !app_assoc. split; reflexivity.
Qed.

(** C1: for equal-length series of length N and a window size
    0 < windowSize < N, walk_forward_validation returns, and it returns
    exactly N - windowSize predictions with their actual values; the
    prediction of step i (windowSize <= i <= N-1) comes from a model trained
    on the values at the indices [i-windowSize, i), a window of length
    windowSize, and evaluated at the single index i, so that every training
    index is smaller than the test index. *)
Theorem walk_forward_rolling_windows (demand prices : list R) (w : nat) :
  length demand = length prices ->
  (0 < w < length demand)%nat ->
  let N := length demand in
  (exists m,
     walk_forward_validation demand prices (Z.of_nat w) =
       Ok (map (step_prediction demand prices w) (seq w (N - w)),
           map (fun i => nth i prices 0) (seq w (N - w)), m)) /\
  length (map (step_prediction demand prices w) (seq w (N - w)))
    = (N - w)%nat /\
  (forall i, (w <= i < N)%nat ->
     step_prediction demand prices w i =
       hd 0 (fresh_prediction
               (map (fun j => nth j demand 0) (train_indices i w))
               (map (fun j => nth j prices 0) (train_indices i w))
               [nth i demand 0]) /\
     length (train_indices i w) = w /\
     (forall j, In j (train_indices i w) <-> (i - w <= j < i)%nat)).
Proof.
  intros Hlen Hw N. split; [ | split ].
  - unfold walk_forward_validation, wf_loop, len.
    rewrite range_of_nat.
    destruct (wf_loop_steps demand prices w (seq w (N - w)) Hlen) with
      (st := {| predictions := []; actuals := [];
                wf_scaler := None; wf_model := None |})
      as [st' [Hrun [Hp Ha]]].
    + lia.
    + intros i Hi. apply in_seq in Hi. unfold N in Hi. lia.
    + fold N. rewrite Hrun. cbn [bind]. simpl in Hp, Ha.
      rewrite Hp, Ha.
      destruct (wf_metrics_ok
                  (map (step_prediction demand prices w) (seq w (N - w)))
                  (map (fun i => nth i prices 0) (seq w (N - w))))
        as (mse & mae & r2 & mape & da & _ & _ & _ & _ & _ & Hm).
      * rewrite !length_map. reflexivity.
      * apply (nonempty_of_length _ (N - w)).
        -- rewrite length_map, length_seq. reflexivity.
        -- unfold N. lia.
      * rewrite Hm. cbn [bind]. eexists. reflexivity.
  - rewrite length_map, length_seq. reflexivity.
  - intros i Hi. split; [ reflexivity | split ].
    + unfold train_indices. apply length_seq.
    + intros j. unfold train_indices. rewrite in_seq. lia.
Qed.

End WalkForward.

(** The theorem at a three-point series with a window of two. *)
Lemma walk_forward_rolling_windows_witness :
  exists m,
    walk_forward_validation (svm := Instances.mean_regressor)
      [1; 2; 3] [2; 4; 6] 2 =
    Ok (map (step_prediction (H := Instances.mean_regressor)
               [1; 2; 3] [2; 4; 6] 2) [2%nat],
        [6], m).
Proof.
  apply (proj1 (walk_forward_rolling_windows (svm := Instances.mean_regressor)
                  [1; 2; 3] [2; 4; 6] 2 eq_refl
                  (conj (Nat.lt_0_succ 1) (Nat.lt_succ_diag_r 2)))).
Defined.

(* ===================================================================== *)
(** * Per-split isolation of the normalizer and the model *)
(* ===================================================================== *)

Ltac inv_bind H :=
  let v := fresh "v" in
  let Hv := fresh "Hv" in
  apply bind_ok_inv in H; destruct H as [v [Hv H]].

Section Isolation.

Open Scope R_scope.

Context {svm : Libsvm}.

(** What a completed scale-train-predict sequence leaves behind. *)
Lemma pipeline_inv {T : Type} (X_train y_train X_test : list R)
    (K : MinMaxScaler -> SVR -> list R -> result T) (r : T) :
  (' (scaler, X_train_scaled) <-
       MinMaxScaler_fit_transform MinMaxScaler_new X_train ;;
   X_test_scaled <- MinMaxScaler_transform scaler X_test ;;
   model <- SVR_fit (SVR_new rbf 100 0.1 0.1) X_train_scaled y_train ;;
   y_pred <- SVR_predict model X_test_scaled ;;
   K scaler model y_pred) = Ok r ->
  exists a,
    train_bounds X_train = Some a /\
    K {| scaler_fitted := Some a |}
      {| svr_hyper := script_params;
         svr_fitted :=
           Some (svm_train script_params (apply_attrs a X_train) y_train) |}
      (map (svm_predict
              (svm_train script_params (apply_attrs a X_train) y_train))
           (apply_attrs a X_test)) = Ok r.
Proof.
  intros H.
  destruct X_train as [| x l]; [ discriminate H | ].
  exists (fit_attrs x l). split; [ reflexivity | ].
  destruct X_test as [| t X_test]; [ discriminate H | ].
  cbn [MinMaxScaler_fit_transform MinMaxScaler_fit bind] in H.
  unfold MinMaxScaler_transform in H.
  cbn [scaler_fitted bind] in H.
  unfold SVR_fit in H. cbn [apply_attrs map] in H.
  match type of H with
  | context [(?n =? ?m)%nat] => destruct (n =? m)%nat; [ | discriminate H ]
  end.
  exact H.
Qed.

(** C2: in a cross-validation fold and in a walk-forward step alike, the
    bounds of the min-max normalizer are those of the split's training
    inputs, the object still holds exactly these bounds after the test
    inputs were transformed (the test inputs are scaled with the training
    bounds and never refit), the model is trained on the scaled training
    inputs, and both objects are constructed anew in every iteration: the
    outcome of an iteration does not depend on the normalizer and model
    left by the previous one. *)
Theorem normalizer_and_model_scoped_to_split
    (X y : list R) (train_idx test_idx : list Z)
    (demand_data prices : list R) (window_size i : Z)
    (scaler1 scaler2 : MinMaxScaler) (model1 model2 : SVR)
    (y_test1 y_pred1 : list R) (y_test2 y_pred2 : R) :
  cv_fit_predict X y train_idx test_idx
    = Ok (scaler1, model1, y_test1, y_pred1) ->
  wf_fit_predict demand_data prices window_size i
    = Ok (scaler2, model2, y_test2, y_pred2) ->
  (exists X_train X_test y_train a,
     take X train_idx = Ok X_train /\
     take X test_idx = Ok X_test /\
     take y train_idx = Ok y_train /\
     train_bounds X_train = Some a /\
     scaler_fitted scaler1 = Some a /\
     svr_fitted model1 =
       Some (svm_train script_params (apply_attrs a X_train) y_train) /\
     y_pred1 =
       map (svm_predict
              (svm_train script_params (apply_attrs a X_train) y_train))
           (apply_attrs a X_test)) /\
  (exists x a,
     let X_train := slice demand_data (i - window_size) i in
     let y_train := slice prices (i - window_size) i in
     getitem demand_data i = Ok x /\
     train_bounds X_train = Some a /\
     scaler_fitted scaler2 = Some a /\
     svr_fitted model2 =
       Some (svm_train script_params (apply_attrs a X_train) y_train) /\
     y_pred2 =
       svm_predict (svm_train script_params (apply_attrs a X_train) y_train)
                   (x * scale_ a + min_ a)) /\
  (forall fold st,
     cv_fold X y (fold, (train_idx, test_idx)) st =
     cv_fold X y (fold, (train_idx, test_idx))
       {| fold_results := fold_results st;
          cv_scaler := None; cv_model := None |}) /\
  (forall st,
     wf_step demand_data prices window_size i st =
     wf_step demand_data prices window_size i
       {| predictions := predictions st; actuals := actuals st;
          wf_scaler := None; wf_model := None |}).
Proof.
  intros Hcv Hwf. split; [ | split; [ | split ] ].
  - unfold cv_fit_predict in Hcv.
    inv_bind Hcv. inv_bind Hcv. inv_bind Hcv. inv_bind Hcv.
    apply (pipeline_inv v v1 v0
             (fun scaler model y_pred => Ok (scaler, model, v2, y_pred)))
      in Hcv.
    destruct Hcv as [a [Ha Hcv]]. injection Hcv as <- <- <- <-.
    exists v, v0, v1, a. repeat split; assumption || reflexivity.
  - unfold wf_fit_predict in Hwf.
    inv_bind Hwf. inv_bind Hwf.
    apply (pipeline_inv _ _ [v]
             (fun scaler model y_preds =>
                y_pred <- getitem y_preds 0 ;;
                Ok (scaler, model, v0, y_pred)))
      in Hwf.
    destruct Hwf as [a [Ha Hwf]].
    cbn in Hwf. injection Hwf as <- <- <- <-.
    exists v, a. repeat split; assumption || reflexivity.
  - intros fold st. reflexivity.
  - intros st. reflexivity.
Qed.

End Isolation.

(** The theorem at the last fold and the last step of a three-point
    series: the scaler holds the bounds of the two training inputs. *)
Lemma normalizer_and_model_scoped_to_split_witness :
  exists a,
    train_bounds [1; 2] = Some a /\
    scaler_fitted {| scaler_fitted := train_bounds [1; 2] |} = Some a.
Proof.
  pose proof
    (normalizer_and_model_scoped_to_split (svm := Instances.mean_regressor)
       [1; 2; 3] [2; 4; 6] [0; 1]%Z [2]%Z [1; 2; 3] [2; 4; 6] 2%Z 2%Z
       {| scaler_fitted := train_bounds [1; 2] |}
       {| scaler_fitted := train_bounds [1; 2] |}
       (@Build_SVR Instances.mean_regressor script_params
          (Some (mean_of [2; 4])))
       (@Build_SVR Instances.mean_regressor script_params
          (Some (mean_of [2; 4])))
       [6] [mean_of [2; 4]] 6 (mean_of [2; 4])
       eq_refl eq_refl) as H.
  destruct H as [_ [[x [a [_ [Ha [Hs _]]]]] _]].
  exists a. split; [ exact Ha | exact Hs ].
Defined.

(* ===================================================================== *)
(** * Where the validation runs report their metrics *)
(* ===================================================================== *)

Section Reports.

Open Scope R_scope.

Context {svm : Libsvm}.

Lemma wf_metrics_entries (preds acts : list R) (m : dict) :
  wf_metrics preds acts = Ok m ->
  reports_metrics m acts preds /\
  exists da,
    directional_accuracy_of acts preds = Ok da /\
    dict_get m "directional_accuracy"%string = Some (VFloat da).
Proof.
  intros H. unfold wf_metrics in H.
  inv_bind H. inv_bind H. inv_bind H. inv_bind H. inv_bind H.
  injection H as <-.
  split.
  - exists v1, v2. repeat split; assumption || reflexivity.
  - exists v3. split; [ assumption | reflexivity ].
Qed.

Lemma walk_forward_metrics (demand prices : list R) (w : Z)
    (preds acts : list R) (m : dict) :
  walk_forward_validation demand prices w = Ok (preds, acts, m) ->
  wf_metrics preds acts = Ok m.
Proof.
  intros H. unfold walk_forward_validation in H.
  inv_bind H. inv_bind H. injection H as <- <- <-. exact Hv0.
Qed.

Lemma cv_fold_row (X y : list R) (it : Z * (list Z * list Z))
    (st st' : cv_locals) :
  cv_fold X y it st = Ok st' ->
  exists row scaler model y_test y_pred,
    cv_fit_predict X y (fst (snd it)) (snd (snd it))
      = Ok (scaler, model, y_test, y_pred) /\
    fold_results st' = fold_results st ++ [row] /\
    reports_metrics row y_test y_pred /\
    dict_get row "train_size"%string = Some (VInt (len (fst (snd it)))) /\
    dict_get row "test_size"%string = Some (VInt (len (snd (snd it)))).
Proof.
  destruct it as [fold [train_idx test_idx]]. intros H.
  unfold cv_fold in H.
  inv_bind H. destruct v as [[[scaler model] y_test] y_pred].
  inv_bind H. inv_bind H. inv_bind H. inv_bind H.
  injection H as <-. simpl.
  eexists. exists scaler, model, y_test, y_pred.
  split; [ exact Hv | ]. split; [ reflexivity | ].
  split; [ | split; reflexivity ].
  exists v1, v2. repeat split; assumption || reflexivity.
Qed.

(** Every row of a completed cross-validation run reports the metrics of
    one fold's test values and predictions. *)
Lemma cv_loop_rows (X y : list R) (its : list (Z * (list Z * list Z))) :
  forall st st',
  for_each its (cv_fold X y) st = Ok st' ->
  exists rows,
    fold_results st' = fold_results st ++ rows /\
    length rows = length its /\
    Forall (fun row => exists y_test y_pred,
                         reports_metrics row y_test y_pred) rows.
Proof.
  induction its as [| it its IH]; intros st st' H.
  - simpl in H. injection H as <-. exists []. rewrite app_nil_r.
    repeat split. constructor.
  - simpl in H. inv_bind H.
    destruct (cv_fold_row _ _ _ _ _ Hv)
      as (row & sc & mo & yt & yp & _ & Hrow & Hrep & _).
    destruct (IH _ _ H) as (rows & Hrows & Hlen & Hall).
    exists (row :: rows). split; [ | split ].
    + rewrite Hrows, Hrow, <- app_assoc. reflexivity.
    + simpl. rewrite Hlen. reflexivity.
    + constructor; [ exists yt, yp; exact Hrep | exact Hall ].
Qed.

(** The metrics accept only arrays of equal non-zero length. *)
Lemma check_reg_targets_inv (y_true y_pred : list R) (u : unit) :
  check_reg_targets y_true y_pred = Ok u ->
  length y_true = length y_pred /\ y_true <> [].
Proof.
  unfold check_reg_targets. intros H.
  destruct (Nat.eqb_spec (length y_true) (length y_pred)) as [E | _];
    [ | discriminate H ].
  split; [ exact E | ].
  destruct y_true; [ discriminate H | discriminate ].
Qed.

Lemma reports_metrics_shape (d : dict) (y_true y_pred : list R) :
  reports_metrics d y_true y_pred ->
  length y_true = length y_pred /\ y_true <> [].
Proof.
  intros (r2 & mape & Hr & _). unfold r2_score in Hr.
  inv_bind Hr. apply (check_reg_targets_inv _ _ _ Hv).
Qed.

(** The arrays a completed fold hands to the metrics. *)
Lemma cv_fit_predict_inv (X y : list R) (train_idx test_idx : list Z)
    (scaler : MinMaxScaler) (model : SVR) (y_test y_pred : list R) :
  cv_fit_predict X y train_idx test_idx = Ok (scaler, model, y_test, y_pred) ->
  fold_data X y (train_idx, test_idx) y_test y_pred.
Proof.
  intros H. unfold cv_fit_predict in H.
  inv_bind H. inv_bind H. inv_bind H. inv_bind H.
  apply (pipeline_inv v v1 v0
           (fun scaler model y_pred => Ok (scaler, model, v2, y_pred))) in H.
  destruct H as [a [Ha H]]. injection H as _ _ <- <-.
  exists v, v0, v1. cbn [fst snd].
  repeat split; try assumption.
  unfold fresh_prediction. rewrite Ha. reflexivity.
Qed.

(** Every row of a completed loop reports the metrics of its own fold. *)
Lemma cv_loop_rows_by_fold (X y : list R)
    (its : list (Z * (list Z * list Z))) :
  forall st st',
  for_each its (cv_fold X y) st = Ok st' ->
  exists rows,
    fold_results st' = fold_results st ++ rows /\
    Forall2 (fun it row =>
               exists y_test y_hat,
                 fold_data X y (snd it) y_test y_hat /\
                 reports_metrics row y_test y_hat) its rows.
Proof.
  induction its as [| it its IH]; intros st st' H.
  - simpl in H. injection H as <-. exists []. rewrite app_nil_r.
    split; [ reflexivity | constructor ].
  - simpl in H. inv_bind H.
    destruct (cv_fold_row _ _ _ _ _ Hv)
      as (row & sc & mo & yt & yp & Hfp & Hrow & Hrep & _).
    destruct (IH _ _ H) as (rows & Hrows & Hall).
    exists (row :: rows). split.
    + rewrite Hrows, Hrow, <- app_assoc. reflexivity.
    + constructor; [ | exact Hall ].
      exists yt, yp. split; [ | exact Hrep ].
      destruct it as [fold [tr te]]. cbn [fst snd] in *.
      apply (cv_fit_predict_inv _ _ _ _ _ _ _ _ Hfp).
Qed.

Lemma Forall2_enumerate {A B : Type} (P : A -> B -> Prop) (l : list A)
    (rows : list B) (s : Z) :
  Forall2 (fun it row => P (snd it) row) (enumerate l s) rows ->
  Forall2 P l rows.
Proof.
  revert rows s. induction l as [| x l IH]; intros rows s H; simpl in H.
  - inversion H. constructor.
  - inversion H as [| it row its rows' Hx Hrest]; subst.
    constructor; [ exact Hx | apply (IH _ _ Hrest) ].
Qed.

(** The rows of a completed cross-validation run, fold by fold: the row of
    a fold reports the metrics of the targets at the fold's test indices
    and of the predictions made for them from the fold's training
    indices. *)
Lemma cross_validation_rows_by_fold (X y : list R) (n : Z)
    (rows : list dict) :
  time_series_cross_validation X y n = Ok rows ->
  exists folds,
    split {| n_splits := n |} (len X) = Ok folds /\
    Forall2 (fun fold row =>
               exists y_test y_hat,
                 fold_data X y fold y_test y_hat /\
                 reports_metrics row y_test y_hat) folds rows.
Proof.
  intros H. unfold time_series_cross_validation in H.
  inv_bind H. inv_bind H. inv_bind H. injection H as <-.
  unfold TimeSeriesSplit_new in Hv.
  destruct (n <=? 1)%Z; [ discriminate Hv | ]. injection Hv as <-.
  exists v0. split; [ exact Hv0 | ].
  destruct (cv_loop_rows_by_fold _ _ _ _ _ Hv1) as (rows & Hrows & Hall).
  simpl in Hrows. rewrite Hrows.
  apply (Forall2_enumerate _ _ _ _ Hall).
Qed.

End Reports.

(* ===================================================================== *)
(** * Directional accuracy *)
(* ===================================================================== *)

Section DirectionalAccuracy.

Open Scope R_scope.

Lemma same_directionb_spec (da dp : R) :
  same_directionb da dp = true <-> same_direction da dp.
Proof.
  unfold same_directionb, same_direction.
  rewrite orb_true_iff, !andb_true_iff, !Rposb_true, !Rnonposb_true.
  reflexivity.
Qed.

(** The comparison written in the script, [(a > 0) == (p > 0)], is the
    agreement of directions. *)
Lemma eqb_Rposb (da dp : R) :
  Bool.eqb (Rposb da) (Rposb dp) = same_directionb da dp.
Proof.
  unfold same_directionb, Rposb, Rnonposb.
  destruct (Rlt_dec 0 da), (Rlt_dec 0 dp), (Rle_dec da 0), (Rle_dec dp 0);
    simpl; try reflexivity; lra.
Qed.

Lemma zip_with_eqb_Rposb (xs ys : list R) :
  zip_with Bool.eqb (map Rposb xs) (map Rposb ys) =
  map (fun d => same_directionb (fst d) (snd d)) (combine xs ys).
Proof.
  revert ys. induction xs as [| x xs IH]; intros [| y ys]; simpl;
    try reflexivity.
  rewrite eqb_Rposb, IH. reflexivity.
Qed.

Lemma fsum_bools (l : list bool) :
  fsum (map (fun b : bool => if b then Fin 1 else Fin 0) l) =
  Fin (INR (length (filter (fun b => b) l))).
Proof.
  induction l as [| b l IH].
  - reflexivity.
  - change (fsum (map (fun b : bool => if b then Fin 1 else Fin 0) (b :: l)))
      with (fadd (if b then Fin 1 else Fin 0)
                 (fsum (map (fun b : bool => if b then Fin 1 else Fin 0) l))).
    rewrite IH. destruct b; simpl filter.
    + change (length (true :: filter (fun b => b) l))
        with (S (length (filter (fun b => b) l))).
      rewrite S_INR. simpl. f_equal. lra.
    + simpl. f_equal. lra.
Qed.

Lemma filter_map_length {A : Type} (f : A -> bool) (l : list A) :
  length (filter (fun b => b) (map f l)) = length (filter f l).
Proof.
  induction l as [| x l IH]; simpl; [ reflexivity | ].
  destruct (f x); simpl; rewrite IH; reflexivity.
Qed.

(** [np.mean] of a non-empty boolean array is the fraction of [True]. *)
Lemma mean_bool_fraction (l : list bool) :
  l <> [] ->
  mean_bool l = Fin (INR (length (filter (fun b => b) l)) / INR (length l)).
Proof.
  intros Hl. unfold mean_bool, mean.
  rewrite fsum_bools, length_map.
  apply fdiv_Fin.
  pose proof (INR_length_pos l Hl). lra.
Qed.

Lemma directional_accuracy_fraction (actuals predictions : list R) :
  length actuals = length predictions ->
  (2 <= length actuals)%nat ->
  directional_accuracy_of actuals predictions =
    Ok (Fin (INR (agreeing_steps actuals predictions)
             / INR (length actuals - 1) * 100)).
Proof.
  intros Hlen Hn.
  rewrite (directional_accuracy_of_same_length _ _ Hlen).
  rewrite zip_with_eqb_Rposb.
  rewrite mean_bool_fraction.
  - rewrite filter_map_length, length_map, length_combine, !diff_length.
    rewrite <- Hlen, Nat.min_id. reflexivity.
  - apply (nonempty_of_length _ (length actuals - 1)); [ | lia ].
    rewrite length_map, length_combine, !diff_length.
    rewrite <- Hlen, Nat.min_id. reflexivity.
Qed.

Lemma same_directionb_refl (d : R) : same_directionb d d = true.
Proof.
  apply same_directionb_spec. unfold same_direction.
  destruct (Rlt_dec 0 d) as [H | H]; [ left | right ]; lra.
Qed.

Lemma agreeing_steps_same (l : list R) :
  agreeing_steps l l = (length l - 1)%nat.
Proof.
  unfold agreeing_steps. rewrite <- diff_length.
  generalize (diff l) as ds. intros ds.
  induction ds as [| d ds IH]; simpl; [ reflexivity | ].
  rewrite same_directionb_refl. simpl. rewrite IH. reflexivity.
Qed.

(** Actual changes +1, 0, -1 against predicted changes +1, +1, +1: one
    step out of three agrees. *)
Example directional_accuracy_one_third :
  directional_accuracy_of [1; 2; 2; 1] [1; 2; 3; 4] =
    Ok (Fin (1 / 3 * 100)).
Proof.
  rewrite (directional_accuracy_fraction [1; 2; 2; 1] [1; 2; 3; 4] eq_refl)
    by (simpl; lia).
  assert (Hn : agreeing_steps [1; 2; 2; 1] [1; 2; 3; 4] = 1%nat).
  { unfold agreeing_steps. cbn [diff combine filter fst snd].
    rewrite (proj2 (same_directionb_spec (2 - 1) (2 - 1)))
      by (unfold same_direction; lra).
    destruct (same_directionb (2 - 2) (3 - 2)) eqn:E1;
      [ apply same_directionb_spec in E1; unfold same_direction in E1; lra | ].
    destruct (same_directionb (1 - 2) (4 - 3)) eqn:E2;
      [ apply same_directionb_spec in E2; unfold same_direction in E2; lra | ].
    reflexivity. }
  rewrite Hn. simpl. do 2 f_equal. field.
Qed.






End DirectionalAccuracy.

Section DirectionalAccuracyOfRuns.

Open Scope R_scope.

Context {svm : Libsvm}.


End DirectionalAccuracyOfRuns.


(* ===================================================================== *)
(** * MAPE and zero actual values *)
(* ===================================================================== *)

Section Mape.

Open Scope R_scope.

Lemma mape_terms (y_true y_pred : list R) :
  map fabs (zip_with (fun a b => fdiv (Fin a) (Fin b))
              (zip_with Rminus y_true y_pred) y_true)
  = zip_with ape y_true y_pred.
Proof.
  revert y_pred. induction y_true as [| t y_true IH]; intros [| p y_pred];
    simpl; try reflexivity.
  rewrite IH. reflexivity.
Qed.

Lemma ape_nonzero (t p : R) :
  t <> 0 -> ape t p = Fin (Rabs (t - p) / Rabs t).
Proof.
  intros Ht. unfold ape. rewrite fdiv_Fin by exact Ht.
  simpl. f_equal. unfold Rdiv. rewrite Rabs_mult, Rabs_inv. reflexivity.
Qed.

Lemma ape_zero (p : R) : ape 0 p = PInf \/ ape 0 p = NaN.
Proof.
  unfold ape. simpl.
  rewrite (proj2 (Rzerob_true 0) eq_refl).
  destruct (Rzerob (0 - p)); [ right; reflexivity | ].
  left. destruct (Rnegb (0 - p)); reflexivity.
Qed.

Lemma ape_not_ninf (t p : R) : ape t p <> NInf.
Proof.
  unfold ape. destruct (fdiv (Fin (t - p)) (Fin t)); discriminate.
Qed.

Lemma fadd_not_ninf (a b : float) :
  a <> NInf -> b <> NInf -> fadd a b <> NInf.
Proof.
  destruct a, b; simpl; intros Ha Hb; try discriminate; contradiction.
Qed.

Lemma fadd_nonfinite_l (a b : float) :
  a = PInf \/ a = NaN -> b <> NInf -> fadd a b = PInf \/ fadd a b = NaN.
Proof.
  intros [-> | ->] Hb; destruct b; simpl; auto; contradiction.
Qed.

Lemma fadd_nonfinite_r (a b : float) :
  a <> NInf -> b = PInf \/ b = NaN -> fadd a b = PInf \/ fadd a b = NaN.
Proof.
  intros Ha [-> | ->]; destruct a; simpl; auto; contradiction.
Qed.

Lemma fsum_not_ninf (l : list float) :
  Forall (fun a => a <> NInf) l -> fsum l <> NInf.
Proof.
  induction 1 as [| a l Ha Hl IH]; simpl.
  - discriminate.
  - apply fadd_not_ninf; assumption.
Qed.

Lemma fsum_nonfinite (l : list float) :
  Forall (fun a => a <> NInf) l ->
  Exists (fun a => a = PInf \/ a = NaN) l ->
  fsum l = PInf \/ fsum l = NaN.
Proof.
  intros Hall Hex. induction Hex as [a l Ha | a l Hex IH].
  - inversion Hall as [| ? ? _ Hl]; subst.
    apply fadd_nonfinite_l; [ exact Ha | apply fsum_not_ninf; exact Hl ].
  - inversion Hall as [| ? ? Ha Hl]; subst.
    apply fadd_nonfinite_r; [ exact Ha | apply IH; exact Hl ].
Qed.

Lemma ape_all_not_ninf (y_true y_pred : list R) :
  Forall (fun a => a <> NInf) (zip_with ape y_true y_pred).
Proof.
  revert y_pred. induction y_true as [| t y_true IH]; intros [| p y_pred];
    simpl; constructor.
  - apply ape_not_ninf.
  - apply IH.
Qed.

Lemma ape_zero_exists (y_true y_pred : list R) :
  length y_true = length y_pred -> In 0 y_true ->
  Exists (fun a => a = PInf \/ a = NaN) (zip_with ape y_true y_pred).
Proof.
  revert y_pred. induction y_true as [| t y_true IH]; intros [| p y_pred] Hlen Hin;
    simpl in *; try contradiction; try discriminate.
  destruct Hin as [-> | Hin].
  - apply Exists_cons_hd. apply ape_zero.
  - apply Exists_cons_tl. apply IH; [ lia | exact Hin ].
Qed.

Lemma ape_sum_nonzero (y_true y_pred : list R) :
  Forall (fun t => t <> 0) y_true ->
  fsum (zip_with ape y_true y_pred) =
  Fin (Rsum (zip_with (fun t p => Rabs (t - p) / Rabs t) y_true y_pred)).
Proof.
  intros Hall. revert y_pred.
  induction Hall as [| t y_true Ht Hall IH]; intros [| p y_pred];
    try reflexivity.
  change (fsum (zip_with ape (t :: y_true) (p :: y_pred)))
    with (fadd (ape t p) (fsum (zip_with ape y_true y_pred))).
  rewrite IH, (ape_nonzero t p Ht). reflexivity.
Qed.

(** With a zero among the actual values the MAPE expression is evaluated
    all the same and yields [inf] or [nan]. *)
Lemma mape_of_zero_actual (y_true y_pred : list R) :
  length y_true = length y_pred -> In 0 y_true ->
  mape_of y_true y_pred = Ok PInf \/ mape_of y_true y_pred = Ok NaN.
Proof.
  intros Hlen Hin.
  rewrite (mape_of_same_length _ _ Hlen), mape_terms.
  unfold mean.
  assert (Hn : 0 < INR (length (zip_with ape y_true y_pred))).
  { apply INR_length_pos.
    apply (nonempty_of_length _ (length y_true)).
    - apply zip_with_length. exact Hlen.
    - destruct y_true; [ contradiction | simpl; lia ]. }
  destruct (fsum_nonfinite _ (ape_all_not_ninf y_true y_pred)
              (ape_zero_exists _ _ Hlen Hin)) as [-> | ->].
  - left. simpl. rewrite (Rnegb_false _ (Rlt_le _ _ Hn)). simpl.
    rewrite (proj2 (Rzerob_false 100)) by lra.
    rewrite Rnegb_false by lra. reflexivity.
  - right. reflexivity.
Qed.

Lemma mape_of_nonzero_actuals (y_true y_pred : list R) :
  length y_true = length y_pred -> y_true <> [] ->
  Forall (fun t => t <> 0) y_true ->
  mape_of y_true y_pred = Ok (Fin (mape_formula y_true y_pred)).
Proof.
  intros Hlen Hne Hall.
  rewrite (mape_of_same_length _ _ Hlen), mape_terms.
  unfold mean. rewrite (ape_sum_nonzero _ _ Hall).
  rewrite (zip_with_length ape _ _ Hlen).
  pose proof (INR_length_pos y_true Hne) as Hn.
  rewrite fdiv_Fin by lra.
  unfold mape_formula, mean_of.
  rewrite (zip_with_length _ _ _ Hlen). reflexivity.
Qed.

End Mape.

Section MapeOfRuns.

Open Scope R_scope.

Context {svm : Libsvm}.

(** C3, as the code has it: the MAPE of both validation runs is the value
    of [mean(|yTrue - yPred| / |yTrue|) * 100] with no guard on the actual
    values.  When no actual value is zero it is the value of that
    expression; when some actual value is zero the computation does not
    fail and excludes nothing: the division yields [inf] (or [nan] for
    0/0) and the reported MAPE is [inf] or [nan].  Walk-forward validation
    reports this value for its predictions and actual values, and every
    row of the cross-validation table reports it for the targets at the
    test indices of its own fold and the predictions made for them from
    the training indices of that fold. *)
Theorem mape_division_unguarded (y_true y_pred : list R) :
  length y_true = length y_pred ->
  y_true <> [] ->
  (Forall (fun t => t <> 0) y_true ->
     mape_of y_true y_pred = Ok (Fin (mape_formula y_true y_pred))) /\
  (In 0 y_true ->
     mape_of y_true y_pred = Ok PInf \/ mape_of y_true y_pred = Ok NaN) /\
  (forall demand prices w m,
     walk_forward_validation demand prices w = Ok (y_pred, y_true, m) ->
     exists v, mape_of y_true y_pred = Ok v /\
               dict_get m "mape"%string = Some (VFloat v)) /\
  (forall X y n rows,
     time_series_cross_validation X y n = Ok rows ->
     exists folds,
       split {| n_splits := n |} (len X) = Ok folds /\
       Forall2 (fun fold row =>
                  exists y_test y_hat v,
                    fold_data X y fold y_test y_hat /\
                    mape_of y_test y_hat = Ok v /\
                    dict_get row "mape"%string = Some (VFloat v) /\
                    (Forall (fun t => t <> 0) y_test ->
                       v = Fin (mape_formula y_test y_hat)) /\
                    (In 0 y_test -> v = PInf \/ v = NaN))
               folds rows).
Proof.
  intros Hlen Hne. split; [ | split; [ | split ] ].
  - intros Hall. apply mape_of_nonzero_actuals; assumption.
  - intros Hin. apply mape_of_zero_actual; assumption.
  - intros demand prices w m Hrun.
    apply walk_forward_metrics in Hrun.
    destruct (wf_metrics_entries _ _ _ Hrun)
      as [(r2 & mape & _ & Hm & _ & Hget) _].
    exists mape. split; assumption.
  - intros X y n rows Hrun.
    destruct (cross_validation_rows_by_fold _ _ _ _ Hrun)
      as (folds & Hsplit & Hall).
    exists folds. split; [ exact Hsplit | ].
    apply Forall2_impl with (2 := Hall).
    intros fold row (yt & yp & Hdata & Hrep).
    destruct (reports_metrics_shape _ _ _ Hrep) as [Hl Hn].
    destruct Hrep as (r2 & mape & _ & Hm & _ & Hget).
    exists yt, yp, mape.
    split; [ exact Hdata | ]. split; [ exact Hm | ].
    split; [ exact Hget | ]. split.
    + intros Hall0.
      rewrite (mape_of_nonzero_actuals _ _ Hl Hn Hall0) in Hm.
      injection Hm as <-. reflexivity.
    + intros Hin.
      destruct (mape_of_zero_actual _ _ Hl Hin) as [H0 | H0];
        rewrite H0 in Hm; injection Hm as <-; [ left | right ]; reflexivity.
Qed.

End MapeOfRuns.

(** The theorem at two actual values, the first of them zero. *)
Lemma mape_division_unguarded_witness :
  mape_of [0; 2] [1; 2] = Ok PInf \/ mape_of [0; 2] [1; 2] = Ok NaN.
Proof.
  refine (proj1 (proj2 (mape_division_unguarded
                          (svm := Instances.mean_regressor)
                          [0; 2] [1; 2] eq_refl _)) (or_introl eq_refl)).
  discriminate.
Defined.

Lemma mape_of_zero_example : mape_of [0; 2] [1; 2] = Ok PInf.
Proof.
  rewrite (mape_of_same_length [0; 2] [1; 2] eq_refl), mape_terms.
  cbn [zip_with]. rewrite (ape_nonzero 2 2) by lra.
  assert (H0 : ape 0 1 = PInf).
  { unfold ape. simpl.
    rewrite (proj2 (Rzerob_true 0) eq_refl).
    rewrite (proj2 (Rzerob_false (0 - 1))) by lra.
    unfold Rnegb. destruct (Rlt_dec (0 - 1) 0); [ reflexivity | lra ]. }
  rewrite H0. unfold mean. cbn [fsum fold_right fadd length].
  cbn [fdiv fnegative xorb].
  rewrite Rnegb_false by (apply pos_INR).
  cbn [signed_inf fmul fzero orb].
  rewrite (proj2 (Rzerob_false 100)) by lra.
  cbn [fnegative xorb]. rewrite Rnegb_false by lra. reflexivity.
Qed.

(** C3 as stated fails: with actual values [0, 2] and predictions [1, 2]
    the MAPE expression neither raises nor leaves the zero point out (the
    remaining point has error 0); the run reports [inf]. *)
Lemma mape_zero_actual_counterexample :
  mape_of [0; 2] [1; 2] = Ok PInf /\
  ~ raises (mape_of [0; 2] [1; 2]) /\
  mape_of [0; 2] [1; 2] <> Ok (Fin (mape_excluding_zeros [0; 2] [1; 2])) /\
  exists m, wf_metrics [1; 2] [0; 2] = Ok m /\
            dict_get m "mape"%string = Some (VFloat PInf).
Proof.
  pose proof mape_of_zero_example as Hm.
  split; [ exact Hm | ]. split; [ | split ].
  - intros [e He]. rewrite Hm in He. discriminate He.
  - rewrite Hm. discriminate.
  - destruct (wf_metrics_ok [1; 2] [0; 2] eq_refl)
      as (mse & mae & r2 & mape & da & _ & _ & _ & Hmape & _ & Hrun).
    { discriminate. }
    rewrite Hm in Hmape. injection Hmape as <-.
    eexists. split; [ exact Hrun | reflexivity ].
Qed.

(* ===================================================================== *)
(** * R² on constant actual values *)
(* ===================================================================== *)

Section RSquared.

Open Scope R_scope.

Lemma Rsum_constant (c : R) (l : list R) :
  constant c l -> Rsum l = INR (length l) * c.
Proof.
  induction 1 as [| x l Hx Hl IH].
  - simpl. lra.
  - change (Rsum (x :: l)) with (x + Rsum l).
    change (length (x :: l)) with (S (length l)).
    rewrite S_INR, IH, Hx. lra.
Qed.

Lemma ss_tot_constant (c : R) (l : list R) :
  constant c l -> l <> [] -> ss_tot l = 0.
Proof.
  intros Hc Hne. unfold ss_tot.
  rewrite (Rsum_constant c l Hc).
  pose proof (INR_length_pos l Hne) as Hn.
  replace (INR (length l) * c / INR (length l)) with c by (field; lra).
  induction Hc as [| x l Hx Hl IH].
  - reflexivity.
  - simpl. rewrite Hx. unfold sq at 1.
    destruct l as [| y l].
    + simpl. lra.
    + rewrite IH.
      * lra.
      * discriminate.
      * apply INR_length_pos. discriminate.
Qed.

Lemma ss_res_nonneg (a p : list R) : 0 <= ss_res a p.
Proof.
  unfold ss_res. revert p.
  induction a as [| t a IH]; intros [| q p]; simpl; try lra.
  specialize (IH p). unfold sq at 1.
  pose proof (Rle_0_sqr (t - q)) as Hsq. unfold Rsqr in Hsq. lra.
Qed.

Lemma ss_res_zero_iff (a p : list R) :
  length a = length p -> (ss_res a p = 0 <-> p = a).
Proof.
  revert p. induction a as [| t a IH]; intros [| q p] Hlen;
    simpl in Hlen; try discriminate.
  - split; reflexivity.
  - injection Hlen as Hlen. specialize (IH p Hlen).
    change (ss_res (t :: a) (q :: p)) with (sq (t - q) + ss_res a p).
    pose proof (ss_res_nonneg a p) as Hnn.
    pose proof (Rle_0_sqr (t - q)) as Hsq. unfold Rsqr in Hsq.
    unfold sq. split.
    + intros H0.
      assert (Hs : (t - q) * (t - q) = 0) by lra.
      assert (Hr : ss_res a p = 0) by lra.
      apply Rmult_integral in Hs.
      assert (Hq : q = t) by (destruct Hs; lra).
      rewrite Hq. f_equal. apply IH. exact Hr.
    + intros Heq. injection Heq as -> ->.
      assert (Hr : ss_res a a = 0) by (apply IH; reflexivity).
      rewrite Hr. lra.
Qed.

(** On actual values whose total sum of squares is zero, as it is for
    equal values whose mean is computed exactly, [r2_score] answers with
    one of two finite numbers. *)
Lemma r2_score_constant (c : R) (a p : list R) :
  constant c a -> length a = length p -> (2 <= length a)%nat ->
  r2_score a p = Ok (if Rzerob (ss_res a p) then Fin 1 else Fin 0).
Proof.
  intros Hc Hlen Hn.
  assert (Hne : a <> []) by (destruct a; [ simpl in Hn; lia | discriminate ]).
  unfold r2_score.
  rewrite (check_reg_targets_ok _ _ Hlen Hne). cbn [bind].
  destruct (Nat.ltb_spec (length p) 2) as [Hlt | _]; [ lia | ].
  rewrite (ss_tot_constant c a Hc Hne).
  rewrite (proj2 (Rzerob_true 0) eq_refl).
  destruct (Rzerob (ss_res a p)); reflexivity.
Qed.

(** The score of at least two samples, by the branches of [r2_score]: a
    finite number, never above 1. *)
Lemma r2_score_value (a p : list R) :
  length a = length p -> (2 <= length a)%nat ->
  let r := if Rzerob (ss_res a p) then 1
           else if Rzerob (ss_tot a) then 0
           else 1 - ss_res a p / ss_tot a in
  r2_score a p = Ok (Fin r) /\ r <= 1.
Proof.
  intros Hlen Hn r.
  assert (Hne : a <> []) by (destruct a; [ simpl in Hn; lia | discriminate ]).
  unfold r2_score.
  rewrite (check_reg_targets_ok _ _ Hlen Hne). cbn [bind].
  destruct (Nat.ltb_spec (length p) 2) as [Hlt | _]; [ lia | ].
  unfold r.
  destruct (Rzerob (ss_res a p)) eqn:Hnum; [ split; [ reflexivity | lra ] | ].
  destruct (Rzerob (ss_tot a)) eqn:Hden; [ split; [ reflexivity | lra ] | ].
  split; [ reflexivity | ].
  apply Rzerob_false in Hden.
  pose proof (ss_res_nonneg a p) as Hnn.
  assert (Hdpos : 0 < ss_tot a).
  { pose proof (Rsum_sq_nonneg
                  (fun t => t - Rsum a / INR (length a)) a) as Hge.
    unfold ss_tot. unfold ss_tot in Hden. lra. }
  assert (0 <= ss_res a p / ss_tot a).
  { apply Rmult_le_pos;
      [ exact Hnn | left; apply Rinv_0_lt_compat; exact Hdpos ]. }
  lra.
Qed.

Lemma r2_score_single (a p : R) : r2_score [a] [p] = Ok NaN.
Proof. reflexivity. Qed.

End RSquared.

Section RSquaredOfRuns.

Open Scope R_scope.

Context {svm : Libsvm}.

(** C4, as the code has it: the runs report the number that [r2_score]
    returns, with no guard, no flag and no sentinel, for actual values
    that are all equal as for any others.  For at least two samples that
    number is finite and not above 1, never nan: it is 1.0 when the
    predictions equal the actual values, and 1 - SS_res / SS_tot when
    neither sum of squares is zero; which number a zero total sum of
    squares leads to is not stated here, only that it is finite and not
    above 1.  Walk-forward validation reports the score for its
    predictions and actual values, and every row of the cross-validation
    table for the targets and predictions of its own fold.  (On a single
    sample [r2_score] returns nan.) *)
Theorem r2_constant_actuals_unguarded (actuals predictions : list R) :
  length actuals = length predictions ->
  (2 <= length actuals)%nat ->
  (exists r,
     r2_score actuals predictions = Ok (Fin r) /\
     r <= 1 /\
     (predictions = actuals -> r = 1) /\
     (ss_res actuals predictions <> 0 -> ss_tot actuals <> 0 ->
      r = 1 - ss_res actuals predictions / ss_tot actuals)) /\
  (forall demand prices w m,
     walk_forward_validation demand prices w = Ok (predictions, actuals, m) ->
     exists r,
       r2_score actuals predictions = Ok (Fin r) /\
       dict_get m "r2"%string = Some (VFloat (Fin r))) /\
  (forall a p : R, r2_score [a] [p] = Ok NaN) /\
  (forall X y n rows,
     time_series_cross_validation X y n = Ok rows ->
     exists folds,
       split {| n_splits := n |} (len X) = Ok folds /\
       Forall2 (fun fold row =>
                  exists y_test y_hat v,
                    fold_data X y fold y_test y_hat /\
                    r2_score y_test y_hat = Ok v /\
                    dict_get row "r2"%string = Some (VFloat v) /\
                    ((2 <= length y_test)%nat ->
                       exists r, v = Fin r /\ r <= 1))
               folds rows).
Proof.
  intros Hlen Hn.
  destruct (r2_score_value _ _ Hlen Hn) as [Hr2 Hle]. cbv zeta in Hr2, Hle.
  split; [ | split; [ | split ] ].
  - eexists. split; [ exact Hr2 | ]. split; [ exact Hle | ]. split.
    + intros Heq.
      rewrite (proj2 (Rzerob_true (ss_res actuals predictions)));
        [ reflexivity | ].
      apply ss_res_zero_iff; assumption.
    + intros Hres Htot.
      rewrite (proj2 (Rzerob_false _) Hres), (proj2 (Rzerob_false _) Htot).
      reflexivity.
  - intros demand prices w m Hrun.
    apply walk_forward_metrics in Hrun.
    destruct (wf_metrics_entries _ _ _ Hrun)
      as [(r2 & mape & Hr & _ & Hget & _) _].
    rewrite Hr2 in Hr. injection Hr as <-.
    eexists. split; [ exact Hr2 | exact Hget ].
  - apply r2_score_single.
  - intros X y n rows Hrun.
    destruct (cross_validation_rows_by_fold _ _ _ _ Hrun)
      as (folds & Hsplit & Hall).
    exists folds. split; [ exact Hsplit | ].
    apply Forall2_impl with (2 := Hall).
    intros fold row (yt & yp & Hdata & Hrep).
    destruct (reports_metrics_shape _ _ _ Hrep) as [Hl _].
    destruct Hrep as (r2 & mape & Hr & _ & Hget & _).
    exists yt, yp, r2.
    split; [ exact Hdata | ]. split; [ exact Hr | ].
    split; [ exact Hget | ].
    intros H2. destruct (r2_score_value _ _ Hl H2) as [Hv Hb].
    cbv zeta in Hv, Hb. rewrite Hv in Hr. injection Hr as <-.
    eexists. split; [ reflexivity | exact Hb ].
Qed.

End RSquaredOfRuns.

(** The theorem at the constant actual values [5, 5]. *)
Lemma r2_constant_actuals_unguarded_witness :
  exists r, r2_score [5; 5] [4; 6] = Ok (Fin r) /\ r <= 1.
Proof.
  destruct (r2_constant_actuals_unguarded
              (svm := Instances.mean_regressor) [5; 5] [4; 6] eq_refl)
    as ((r & Hr & Hle & _) & _).
  - simpl. lia.
  - exists r. split; [ exact Hr | exact Hle ].
Defined.

(** C4 as stated fails: for the constant actual values [5, 5] and the
    predictions [4, 6] the run reports the finite score 0, not a sentinel
    and not an error. *)
Lemma r2_constant_actuals_counterexample :
  constant 5 [5; 5] /\
  r2_score [5; 5] [4; 6] = Ok (Fin 0) /\
  exists m, wf_metrics [4; 6] [5; 5] = Ok m /\
            dict_get m "r2"%string = Some (VFloat (Fin 0)).
Proof.
  assert (Hc : constant 5 [5; 5]) by (repeat constructor).
  assert (Hr : r2_score [5; 5] [4; 6] = Ok (Fin 0)).
  { rewrite (r2_score_constant 5 [5; 5] [4; 6] Hc eq_refl) by (simpl; lia).
    rewrite (proj2 (Rzerob_false (ss_res [5; 5] [4; 6]))); [ reflexivity | ].
    unfold ss_res, sq. simpl. lra. }
  split; [ exact Hc | split; [ exact Hr | ] ].
  destruct (wf_metrics_ok [4; 6] [5; 5] eq_refl)
    as (mse & mae & r2 & mape & da & _ & _ & Hr2 & _ & _ & Hrun).
  { discriminate. }
  rewrite Hr in Hr2. injection Hr2 as <-.
  eexists. split; [ exact Hrun | reflexivity ].
Qed.

Section MetricsInBinary64.

Import PrimFloat.

Open Scope float_scope.

(** Which branch of [r2_score] a sequence of equal actual values takes is
    decided by rounding.  For the actual values [5, 5] the mean is exact,
    the total sum of squares is zero and the score is 0.0; for [0.1, 0.1,
    0.1] the mean is rounded to 0.10000000000000002, the total sum of
    squares is not zero and the score against the predictions [0, 0, 0]
    is 1 - SS_res / SS_tot, about -5.19e31.  On the same input the mean
    absolute error, 0.10000000000000002, exceeds the root mean squared
    error, 0.1. *)
Example metrics_of_constant_actuals_in_binary64 :
  Binary64.r2_score [5; 5] [4; 6] = Some 0 /\
  Binary64.np_mean [0.1; 0.1; 0.1] = 0.10000000000000002 /\
  Binary64.r2_score [0.1; 0.1; 0.1] [0; 0; 0]
    = Some (-5.1922968585348286e+31) /\
  Binary64.mean_absolute_error [0.1; 0.1; 0.1] [0; 0; 0]
    = Some 0.10000000000000002 /\
  option_map sqrt (Binary64.mean_squared_error [0.1; 0.1; 0.1] [0; 0; 0])
    = Some 0.1.
Proof. repeat split; vm_compute; reflexivity. Qed.

End MetricsInBinary64.

(* ===================================================================== *)
(** * Confidence intervals *)
(* ===================================================================== *)

Section ConfidenceIntervals.

Open Scope R_scope.

Context {nq : NormalQuantile}.

Lemma norm_ppf_inside (q : R) : 0 < q < 1 -> norm_ppf q = Fin (ndtri q).
Proof.
  intros [Hlo Hhi]. unfold norm_ppf.
  rewrite (proj2 (Rzerob_false q)) by lra.
  rewrite (proj2 (Rzerob_false (q - 1))) by lra.
  rewrite Rnegb_false by lra.
  rewrite (proj2 (Rposb_false (q - 1))) by lra.
  reflexivity.
Qed.

Lemma to_retail_Fin (w : R) :
  fadd (fmul (fdiv (Fin w) (Fin 1000)) (Fin 3.5)) (Fin 0.05)
  = Fin (w / 1000 * 3.5 + 0.05).
Proof.
  rewrite fdiv_Fin by lra. reflexivity.
Qed.

(** The local variables of [calculate_confidence_intervals] on residuals
    that exist: every one of them is finite. *)
Lemma ci_frame_nonempty (preds acts : list R) (c : R) :
  length preds = length acts -> preds <> [] -> 0 < c < 1 ->
  let r := zip_with Rminus acts preds in
  let m := ndtri ((1 + c) / 2) * population_sd r in
  let b := 100.98 in
  let retail w := w / 1000 * 3.5 + 0.05 in
  ci_frame preds acts c =
    Ok {| residuals := r;
          se := Fin (population_sd r);
          z_score := Fin (ndtri ((1 + c) / 2));
          margin := Fin m;
          base_prediction_2035 := Fin b;
          lower_bound := Fin (b + - m);
          upper_bound := Fin (b + m);
          retail_multiplier := Fin 3.5;
          retail_base_cost := Fin 0.05;
          retail_point := Fin (retail b);
          retail_lower := Fin (retail (b + - m));
          retail_upper := Fin (retail (b + m));
          kwh_per_month := Fin 1000;
          bill_point := Fin (retail b * 1000);
          bill_lower := Fin (retail (b + - m) * 1000);
          bill_upper := Fin (retail (b + m) * 1000) |}.
Proof.
  intros Hlen Hne Hc r m b retail.
  unfold ci_frame.
  rewrite (sub_same_length acts preds (eq_sym Hlen)). cbn [bind].
  fold r.
  rewrite (std0_nonempty r).
  2:{ apply (nonempty_of_length _ (length acts)).
      - apply zip_with_length. symmetry. exact Hlen.
      - rewrite <- Hlen. destruct preds; [ contradiction | simpl; lia ]. }
  rewrite (norm_ppf_inside ((1 + c) / 2)) by lra.
  cbn [fmul fsub fadd fopp].
  rewrite !to_retail_Fin. reflexivity.
Qed.

Lemma population_sd_nonneg (l : list R) : 0 <= population_sd l.
Proof. unfold population_sd. apply sqrt_pos. Qed.

(** C6, as the code has it: for predictions and actual values of equal
    length and a confidence level in (0,1), the margin is z * se, where z
    is the standard-normal quantile at (1 + confidence) / 2, the two-sided
    quantile (at 0.95: the quantile at 0.975), and the bounds are formed
    with that one margin, lower = point - margin and upper = point +
    margin.  On a non-empty residual set the margin is a finite number
    that is not negative, and lower <= point <= upper.  The differences
    upper - point and point - lower are further float64 operations on
    these bounds; nothing is said of them here. *)
Theorem confidence_interval_margin_and_bounds (preds acts : list R) (c : R) :
  length preds = length acts ->
  0 < c < 1 ->
  exists f,
    ci_frame preds acts c = Ok f /\
    z_score f = Fin (ndtri ((1 + c) / 2)) /\
    (c = 0.95 -> z_score f = Fin (ndtri 0.975)) /\
    margin f = fmul (z_score f) (se f) /\
    lower_bound f = fsub (base_prediction_2035 f) (margin f) /\
    upper_bound f = fadd (base_prediction_2035 f) (margin f) /\
    (preds <> [] ->
     exists s m lo p hi,
       se f = Fin s /\
       margin f = Fin m /\
       lower_bound f = Fin lo /\
       base_prediction_2035 f = Fin p /\
       upper_bound f = Fin hi /\
       m = ndtri ((1 + c) / 2) * s /\
       0 <= m /\
       lo <= p <= hi).
Proof.
  intros Hlen Hc.
  unfold ci_frame.
  rewrite (sub_same_length acts preds (eq_sym Hlen)). cbn [bind].
  rewrite (norm_ppf_inside ((1 + c) / 2)) by lra.
  eexists. split; [ reflexivity | ].
  cbn [z_score margin se upper_bound lower_bound base_prediction_2035].
  split; [ reflexivity | ].
  split; [ intros ->; do 2 f_equal; lra | ].
  split; [ reflexivity | ].
  split; [ reflexivity | ].
  split; [ reflexivity | ].
  intros Hne.
  rewrite (std0_nonempty (zip_with Rminus acts preds)).
  2:{ apply (nonempty_of_length _ (length acts)).
      - apply zip_with_length. symmetry. exact Hlen.
      - rewrite <- Hlen. destruct preds; [ contradiction | simpl; lia ]. }
  assert (Hm : 0 <= ndtri ((1 + c) / 2)
                    * population_sd (zip_with Rminus acts preds)).
  { apply Rmult_le_pos.
    - apply ndtri_upper_half. lra.
    - apply population_sd_nonneg. }
  do 5 eexists.
  split; [ reflexivity | ].
  cbn [fmul fadd fsub fopp].
  do 4 (split; [ reflexivity | ]).
  split; [ reflexivity | ].
  split; [ exact Hm | lra ].
Qed.

End ConfidenceIntervals.

(** The theorem at two residuals and the default confidence level. *)
Lemma confidence_interval_margin_and_bounds_witness :
  exists f,
    ci_frame (nq := Instances.logit_normal) [0; 0] [1; -1] 0.95 = Ok f /\
    margin f = fmul (z_score f) (se f) /\
    lower_bound f = fsub (base_prediction_2035 f) (margin f) /\
    upper_bound f = fadd (base_prediction_2035 f) (margin f).
Proof.
  destruct (confidence_interval_margin_and_bounds
              (nq := Instances.logit_normal) [0; 0] [1; -1] 0.95 eq_refl)
    as (f & Hf & _ & _ & Hm & Hl & Hu & _).
  - lra.
  - exists f. split; [ exact Hf | ].
    split; [ exact Hm | split; [ exact Hl | exact Hu ] ].
Defined.

Section IntervalInBinary64.

Import PrimFloat.

Open Scope float_scope.

(** C6 as stated fails: the symmetry is not exact.  For the residuals
    [1, -1] at the confidence level 0.95 the standard error is 1.0 and the
    margin 1.959963984540054; the bounds are 100.98 - margin and 100.98 +
    margin, rounded, and both upper - point and point - lower are
    1.9599639845400532, which is not the margin. *)
Lemma interval_symmetry_counterexample :
  exists f,
    Binary64.ci_frame (H := Binary64.ppf_at_0975)
      [0; 0] [1; -1] 0.95 = Some f /\
    Binary64.se f = 1 /\
    Binary64.margin f = 1.959963984540054 /\
    Binary64.upper_bound f - Binary64.base_prediction_2035 f
      = 1.9599639845400532 /\
    Binary64.base_prediction_2035 f - Binary64.lower_bound f
      = 1.9599639845400532 /\
    (Binary64.upper_bound f - Binary64.base_prediction_2035 f
       =? Binary64.margin f) = false /\
    (Binary64.base_prediction_2035 f - Binary64.lower_bound f
       =? Binary64.margin f) = false.
Proof.
  eexists. split; [ vm_compute; reflexivity | ].
  repeat split; vm_compute; reflexivity.
Qed.

(** C10 as stated fails in its last part: the retail half-width is not
    the margin times 3.5 / 1000.  For the residuals [1, -1] at the
    confidence level 0.95 the upper half-width retail_upper - retail_point
    and the lower half-width retail_point - retail_lower differ from each
    other, and both differ from margin * (3.5 / 1000). *)
Lemma retail_half_width_counterexample :
  exists f,
    Binary64.ci_frame (H := Binary64.ppf_at_0975)
      [0; 0] [1; -1] 0.95 = Some f /\
    Binary64.retail_lower f = 0.39657012605410979 /\
    Binary64.retail_point f = 0.40343000000000001 /\
    Binary64.retail_upper f = 0.41028987394589017 /\
    Binary64.retail_upper f - Binary64.retail_point f
      = 0.0068598739458901603 /\
    Binary64.retail_point f - Binary64.retail_lower f
      = 0.0068598739458902158 /\
    Binary64.margin f * (3.5 / 1000) = 0.0068598739458901889 /\
    (Binary64.retail_upper f - Binary64.retail_point f
       =? Binary64.margin f * (3.5 / 1000)) = false /\
    (Binary64.retail_point f - Binary64.retail_lower f
       =? Binary64.margin f * (3.5 / 1000)) = false /\
    (Binary64.retail_upper f - Binary64.retail_point f
       =? Binary64.retail_point f - Binary64.retail_lower f) = false.
Proof.
  eexists. split; [ vm_compute; reflexivity | ].
  repeat split; vm_compute; reflexivity.
Qed.

End IntervalInBinary64.

Section StandardErrorAndPoint.

Open Scope R_scope.

Context {nq : NormalQuantile}.

(** C7, as the code has it: the standard error is [np.std] of the
    residuals actuals - predictions with its default divisor, that is the
    population standard deviation (divisor n), for predictions and actual
    values of equal non-zero length; this is the value returned under the
    key se. *)
Theorem standard_error_population_sd (preds acts : list R) (c : R) :
  length preds = length acts ->
  preds <> [] ->
  0 < c < 1 ->
  exists f d,
    ci_frame preds acts c = Ok f /\
    residuals f = zip_with Rminus acts preds /\
    se f = Fin (population_sd (residuals f)) /\
    population_sd (residuals f) =
      sqrt (sum_sq_dev (residuals f) / INR (length (residuals f))) /\
    calculate_confidence_intervals preds acts c = Ok d /\
    dict_get d "se"%string = Some (VFloat (se f)).
Proof.
  intros Hlen Hne Hc.
  pose proof (ci_frame_nonempty preds acts c Hlen Hne Hc) as Hf.
  cbv zeta in Hf.
  eexists. eexists. split; [ exact Hf | ].
  unfold calculate_confidence_intervals. rewrite Hf. cbn [bind].
  repeat split; reflexivity.
Qed.


(** C10, as the code has it: for predictions and actual values of equal
    non-zero length and a confidence level in (0,1), the returned margin
    is not negative and the retail interval is ordered, retail_lower <=
    retail_point <= retail_upper.  Each of the three retail values is its
    wholesale value / 1000 * 3.5 + 0.05, the wholesale values being
    100.98 - margin, 100.98 and 100.98 + margin: the base cost 0.05 is
    added to all three alike.  The differences retail_upper - retail_point
    and retail_point - retail_lower are further float64 operations on
    these values; nothing is said of them here. *)
Theorem retail_interval_ordered (preds acts : list R) (c : R) :
  length preds = length acts ->
  preds <> [] ->
  0 < c < 1 ->
  exists d m rl rp ru,
    calculate_confidence_intervals preds acts c = Ok d /\
    dict_get d "margin"%string = Some (VFloat (Fin m)) /\
    dict_get d "retail_lower"%string = Some (VFloat (Fin rl)) /\
    dict_get d "retail_point"%string = Some (VFloat (Fin rp)) /\
    dict_get d "retail_upper"%string = Some (VFloat (Fin ru)) /\
    0 <= m /\
    rl <= rp <= ru /\
    rl = (100.98 - m) / 1000 * 3.5 + 0.05 /\
    rp = 100.98 / 1000 * 3.5 + 0.05 /\
    ru = (100.98 + m) / 1000 * 3.5 + 0.05.
Proof.
  intros Hlen Hne Hc.
  pose proof (ci_frame_nonempty preds acts c Hlen Hne Hc) as Hf.
  cbv zeta in Hf.
  unfold calculate_confidence_intervals. rewrite Hf. cbn [bind].
  cbn [se margin retail_point retail_lower retail_upper].
  do 5 eexists.
  split; [ reflexivity | ]. do 4 (split; [ reflexivity | ]).
  assert (Hm : 0 <= ndtri ((1 + c) / 2)
                    * population_sd (zip_with Rminus acts preds)).
  { apply Rmult_le_pos.
    - apply ndtri_upper_half. lra.
    - apply population_sd_nonneg. }
  split; [ exact Hm | ].
  repeat split; lra.
Qed.

End StandardErrorAndPoint.

Lemma standard_error_population_sd_witness :
  exists f,
    ci_frame (nq := Instances.logit_normal) [0; 0] [1; -1] 0.95 = Ok f /\
    se f = Fin (population_sd (residuals f)).
Proof.
  destruct (standard_error_population_sd (nq := Instances.logit_normal)
              [0; 0] [1; -1] 0.95 eq_refl)
    as (f & d & Hf & _ & Hse & _).
  - discriminate.
  - lra.
  - exists f. split; [ exact Hf | exact Hse ].
Defined.


Lemma retail_interval_ordered_witness :
  exists d m rl rp ru,
    calculate_confidence_intervals (nq := Instances.logit_normal)
      [0; 0] [1; -1] 0.95 = Ok d /\
    dict_get d "margin"%string = Some (VFloat (Fin m)) /\
    dict_get d "retail_lower"%string = Some (VFloat (Fin rl)) /\
    dict_get d "retail_point"%string = Some (VFloat (Fin rp)) /\
    dict_get d "retail_upper"%string = Some (VFloat (Fin ru)) /\
    (0 <= m)%R /\ (rl <= rp <= ru)%R.
Proof.
  destruct (retail_interval_ordered (nq := Instances.logit_normal)
              [0; 0] [1; -1] 0.95 eq_refl)
    as (d & m & rl & rp & ru & Hd & Hm & Hl & Hp & Hu & Hpos & Hord & _).
  - discriminate.
  - lra.
  - exists d, m, rl, rp, ru.
    repeat (split; [ assumption | ]). exact Hord.
Defined.

(** C7 as stated fails: for the residuals [1, -1] the standard error is 1,
    the Bessel-corrected standard deviation is sqrt 2, and no quantile
    function makes the two agree. *)
Lemma standard_error_bessel_counterexample :
  std 0 [1 - 0; -1 - 0] = Fin 1 /\
  sample_sd [1 - 0; -1 - 0] = sqrt 2 /\
  ~ (exists (nq : NormalQuantile) (f : ci_locals),
       ci_frame [0; 0] [1; -1] 0.95 = Ok f /\
       se f = Fin (sample_sd (residuals f))).
Proof.
  assert (Hmean : mean_of [1 - 0; -1 - 0] = 0).
  { unfold mean_of. simpl. field. }
  assert (Hdev : sum_sq_dev [1 - 0; -1 - 0] = 2).
  { unfold sum_sq_dev. rewrite Hmean. unfold sq. simpl. ring. }
  assert (Hpop : population_sd [1 - 0; -1 - 0] = 1).
  { unfold population_sd. rewrite Hdev. simpl.
    replace (2 / (1 + 1)) with 1 by field. apply sqrt_1. }
  assert (Hsam : sample_sd [1 - 0; -1 - 0] = sqrt 2).
  { unfold sample_sd. rewrite Hdev. simpl. f_equal. field. }
  split; [ | split; [ exact Hsam | ] ].
  - rewrite std0_nonempty by discriminate. rewrite Hpop. reflexivity.
  - intros (nq & f & Hf & Hse).
    rewrite (ci_frame_nonempty [0; 0] [1; -1] 0.95 eq_refl) in Hf;
      [ | discriminate | lra ].
    injection Hf as <-. cbn [se residuals zip_with] in Hse.
    rewrite Hpop, Hsam in Hse. injection Hse as Hse.
    assert (H2 : sqrt 2 * sqrt 2 = 2) by (apply sqrt_sqrt; lra).
    rewrite <- Hse in H2. lra.
Qed.


(* ===================================================================== *)
(** * Series that are too short *)
(* ===================================================================== *)

Section ShortSeries.

Open Scope R_scope.

Context {svm : Libsvm}.

Lemma take_length {A : Type} (a : list A) (idx : list Z) (l : list A) :
  take a idx = Ok l -> length l = length idx.
Proof.
  revert l. induction idx as [| i idx IH]; intros l H; simpl in H.
  - injection H as <-. reflexivity.
  - inv_bind H. inv_bind H. injection H as <-.
    simpl. f_equal. apply IH. exact Hv0.
Qed.

Lemma fresh_prediction_length (X_train y_train X_test : list R) :
  X_train <> [] ->
  length (fresh_prediction X_train y_train X_test) = length X_test.
Proof.
  intros Hne. unfold fresh_prediction.
  destruct (train_bounds_nonempty X_train Hne) as [a ->].
  rewrite length_map. apply apply_attrs_length.
Qed.

(** A fold whose index arrays are in range, with a non-empty training and
    a non-empty test block, appends one row and raises nothing. *)
Lemma cv_fold_ok (X y : list R) (fold : Z) (train_idx test_idx : list Z)
    (X_train X_test y_train y_test : list R) (st : cv_locals) :
  take X train_idx = Ok X_train ->
  take X test_idx = Ok X_test ->
  take y train_idx = Ok y_train ->
  take y test_idx = Ok y_test ->
  train_idx <> [] -> test_idx <> [] ->
  exists st' row,
    cv_fold X y (fold, (train_idx, test_idx)) st = Ok st' /\
    fold_results st' = fold_results st ++ [row] /\
    dict_get row "train_size"%string = Some (VInt (len train_idx)) /\
    dict_get row "test_size"%string = Some (VInt (len test_idx)).
Proof.
  intros HXtr HXte Hytr Hyte Htr Hte.
  pose proof (take_length _ _ _ HXtr) as LXtr.
  pose proof (take_length _ _ _ HXte) as LXte.
  pose proof (take_length _ _ _ Hytr) as Lytr.
  pose proof (take_length _ _ _ Hyte) as Lyte.
  assert (NXtr : X_train <> []).
  { intros ->. destruct train_idx; [ contradiction | discriminate LXtr ]. }
  assert (NXte : X_test <> []).
  { intros ->. destruct test_idx; [ contradiction | discriminate LXte ]. }
  assert (Nyte : y_test <> []).
  { intros ->. destruct test_idx; [ contradiction | discriminate Lyte ]. }
  destruct (train_bounds_nonempty X_train NXtr) as [a Ha].
  assert (Hfp : cv_fit_predict X y train_idx test_idx =
                Ok ({| scaler_fitted := Some a |},
                    {| svr_hyper := script_params;
                       svr_fitted :=
                         Some (svm_train script_params
                                 (apply_attrs a X_train) y_train) |},
                    y_test, fresh_prediction X_train y_train X_test)).
  { unfold cv_fit_predict. rewrite HXtr, HXte, Hytr, Hyte. cbn [bind].
    rewrite (fit_predict_pipeline X_train y_train X_test a
               (fun scaler model y_pred => Ok (scaler, model, y_test, y_pred))
               Ha).
    - reflexivity.
    - rewrite LXtr, Lytr. reflexivity.
    - exact NXte. }
  assert (Hlen : length y_test =
                 length (fresh_prediction X_train y_train X_test)).
  { rewrite (fresh_prediction_length _ _ _ NXtr), LXte, Lyte. reflexivity. }
  destruct (r2_score_ok _ _ Hlen Nyte) as [r2 Hr2].
  unfold cv_fold. rewrite Hfp. cbn [bind].
  unfold mean_squared_error, mean_absolute_error.
  rewrite (check_reg_targets_ok _ _ Hlen Nyte). cbn [bind].
  rewrite Hr2. cbn [bind].
  rewrite (mape_of_same_length _ _ Hlen). cbn [bind].
  eexists. eexists. split; [ reflexivity | ].
  cbn [fold_results]. repeat split; reflexivity.
Qed.

(** A loop over folds that are all of this kind returns one row each. *)
Lemma cv_loop_ok (X y : list R) (its : list (Z * (list Z * list Z))) :
  Forall (fun it =>
            exists X_train X_test y_train y_test,
              take X (fst (snd it)) = Ok X_train /\
              take X (snd (snd it)) = Ok X_test /\
              take y (fst (snd it)) = Ok y_train /\
              take y (snd (snd it)) = Ok y_test /\
              fst (snd it) <> [] /\ snd (snd it) <> []) its ->
  forall st,
  exists st' rows,
    for_each its (cv_fold X y) st = Ok st' /\
    fold_results st' = fold_results st ++ rows /\
    map (fun row => (dict_get row "train_size"%string,
                     dict_get row "test_size"%string)) rows =
    map (fun it => (Some (VInt (len (fst (snd it)))),
                    Some (VInt (len (snd (snd it)))))) its.
Proof.
  induction 1 as [| [fold [tr te]] its Hit Hall IH]; intros st.
  - exists st, []. rewrite app_nil_r. repeat split; reflexivity.
  - destruct Hit as (Xtr & Xte & ytr & yte & H1 & H2 & H3 & H4 & H5 & H6).
    simpl in H1, H2, H3, H4, H5, H6.
    destruct (cv_fold_ok X y fold tr te _ _ _ _ st H1 H2 H3 H4 H5 H6)
      as (st1 & row & Hstep & Hres & Htrain & Htest).
    destruct (IH st1) as (st' & rows & Hrun & Hrows & Hsizes).
    exists st', (row :: rows).
    split; [ cbn [for_each]; rewrite Hstep; exact Hrun | ].
    split.
    + rewrite Hrows, Hres, <- app_assoc. reflexivity.
    + simpl. rewrite Htrain, Htest, Hsizes. reflexivity.
Qed.

Lemma split_five_of_six :
  split {| n_splits := 5 |} 6 =
    Ok [([0], [1]); ([0; 1], [2]); ([0; 1; 2], [3]);
        ([0; 1; 2; 3], [4]); ([0; 1; 2; 3; 4], [5])]%Z.
Proof. reflexivity. Qed.

Lemma split_too_short (k n : Z) :
  (n < k + 1)%Z -> split {| n_splits := k |} n = Raise ValueError.
Proof.
  intros Hn. unfold split. cbn [n_splits].
  destruct (Z.ltb_spec n (k + 1)) as [_ | Hge]; [ reflexivity | lia ].
Qed.

Lemma cross_validation_five_of_six (X y : list R) :
  length X = 6%nat -> length y = 6%nat ->
  exists rows,
    time_series_cross_validation X y 5 = Ok rows /\
    map (fun row => (dict_get row "train_size"%string,
                     dict_get row "test_size"%string)) rows =
    [(Some (VInt 1), Some (VInt 1)); (Some (VInt 2), Some (VInt 1));
     (Some (VInt 3), Some (VInt 1)); (Some (VInt 4), Some (VInt 1));
     (Some (VInt 5), Some (VInt 1))].
Proof.
  intros HX Hy.
  destruct X as [| x0 [| x1 [| x2 [| x3 [| x4 [| x5 [| ? ?]]]]]]];
    try discriminate HX.
  destruct y as [| y0 [| y1 [| y2 [| y3 [| y4 [| y5 [| ? ?]]]]]]];
    try discriminate Hy.
  unfold time_series_cross_validation.
  change (TimeSeriesSplit_new 5) with (Ok {| n_splits := 5 |}).
  cbn [bind].
  change (len [x0; x1; x2; x3; x4; x5]) with 6%Z.
  rewrite split_five_of_six. cbn [bind enumerate].
  match goal with
  | |- context [for_each ?its _ ?st0] =>
      assert (Hfolds :
                exists st' rows,
                  for_each its
                    (cv_fold [x0; x1; x2; x3; x4; x5]
                             [y0; y1; y2; y3; y4; y5]) st0 = Ok st' /\
                  fold_results st' = fold_results st0 ++ rows /\
                  map (fun row => (dict_get row "train_size"%string,
                                   dict_get row "test_size"%string)) rows =
                  map (fun it => (Some (VInt (len (fst (snd it)))),
                                  Some (VInt (len (snd (snd it)))))) its)
  end.
  { apply cv_loop_ok.
    repeat constructor; cbn [fst snd];
      do 4 eexists; repeat split; try reflexivity; discriminate. }
  destruct Hfolds as (st' & rows & Hrun & Hrows & Hsizes).
  - rewrite Hrun. cbn [bind]. exists rows.
    simpl in Hrows. rewrite Hrows. split; [ reflexivity | exact Hsizes ].
Qed.

Lemma cross_validation_too_short (X y : list R) (k : Z) :
  (len X < k + 1)%Z ->
  time_series_cross_validation X y k = Raise ValueError.
Proof.
  intros Hn. unfold time_series_cross_validation, TimeSeriesSplit_new.
  destruct (k <=? 1)%Z; [ reflexivity | ].
  cbn [bind]. rewrite (split_too_short k (len X) Hn). reflexivity.
Qed.

Lemma walk_forward_window_too_long (demand prices : list R) (w : Z) :
  (len demand <= w)%Z ->
  wf_loop demand prices w =
    Ok {| predictions := []; actuals := [];
          wf_scaler := None; wf_model := None |} /\
  walk_forward_validation demand prices w = Raise ValueError.
Proof.
  intros Hw.
  assert (Hloop : wf_loop demand prices w =
                  Ok {| predictions := []; actuals := [];
                        wf_scaler := None; wf_model := None |}).
  { unfold wf_loop. rewrite (range_empty w (len demand) Hw). reflexivity. }
  split; [ exact Hloop | ].
  unfold walk_forward_validation. rewrite Hloop. cbn [bind predictions actuals].
  rewrite wf_metrics_empty. reflexivity.
Qed.

(** C5, as the code has it: neither function tests the length of the
    series itself.  Cross-validation with n_splits = 5 fails, with the
    ValueError of the splitter and before any fold is run, on a series of
    fewer than 6 points; on a 6-point series it does not fail and returns
    five rows, with 1 to 5 training points and one test point each.
    Walk-forward validation with window_size >= N runs no step and then
    fails with the ValueError that the metric computation raises on the
    empty prediction arrays; it returns no partial result. *)
Theorem short_series_behaviour (X y demand prices : list R) (w : Z) :
  ((length X < 6)%nat ->
     time_series_cross_validation X y 5 = Raise ValueError) /\
  (length X = 6%nat -> length y = 6%nat ->
     exists rows,
       time_series_cross_validation X y 5 = Ok rows /\
       map (fun row => (dict_get row "train_size"%string,
                        dict_get row "test_size"%string)) rows =
       [(Some (VInt 1), Some (VInt 1)); (Some (VInt 2), Some (VInt 1));
        (Some (VInt 3), Some (VInt 1)); (Some (VInt 4), Some (VInt 1));
        (Some (VInt 5), Some (VInt 1))]) /\
  ((len demand <= w)%Z ->
     wf_loop demand prices w =
       Ok {| predictions := []; actuals := [];
             wf_scaler := None; wf_model := None |} /\
     walk_forward_validation demand prices w = Raise ValueError).
Proof.
  split; [ | split ].
  - intros HX. apply cross_validation_too_short. unfold len. lia.
  - apply cross_validation_five_of_six.
  - apply walk_forward_window_too_long.
Qed.

End ShortSeries.

(** The theorem at a 6-point series. *)
Lemma short_series_behaviour_witness :
  exists rows,
    time_series_cross_validation (svm := Instances.mean_regressor)
      [1; 2; 3; 4; 5; 6] [10; 20; 30; 40; 50; 60] 5 = Ok rows /\
    length rows = 5%nat.
Proof.
  destruct (proj1 (proj2 (short_series_behaviour
                            (svm := Instances.mean_regressor)
                            [1; 2; 3; 4; 5; 6] [10; 20; 30; 40; 50; 60]
                            [] [] 0%Z)) eq_refl eq_refl)
    as (rows & Hrun & Hsizes).
  exists rows. split; [ exact Hrun | ].
  apply (f_equal (@length _)) in Hsizes.
  rewrite length_map in Hsizes. exact Hsizes.
Defined.

(** C5 as stated fails: with n_splits = 5 on a 6-point series the
    cross-validation raises nothing, whatever the solver; it returns five
    rows. *)
Lemma insufficient_data_counterexample :
  ~ (exists svm : Libsvm,
       raises (time_series_cross_validation
                 [1; 2; 3; 4; 5; 6] [10; 20; 30; 40; 50; 60] 5)).
Proof.
  intros (svm & e & He).
  destruct (cross_validation_five_of_six (svm := svm)
              [1; 2; 3; 4; 5; 6] [10; 20; 30; 40; 50; 60] eq_refl eq_refl)
    as (rows & Hrun & _).
  rewrite Hrun in He. discriminate He.
Qed.

(* ===================================================================== *)
(** * The rate-impact formula and the scenarios built on it *)
(* ===================================================================== *)

Section RateImpact.

Open Scope R_scope.

Lemma truediv_nonzero (x y : R) : y <> 0 -> truediv x y = Returned (x / y).
Proof.
  intros Hy. unfold truediv. rewrite (proj2 (Rzerob_false y) Hy). reflexivity.
Qed.

Lemma truediv_zero (x : R) : truediv x 0 = Raised ZeroDivisionError.
Proof.
  unfold truediv. rewrite (proj2 (Rzerob_true 0) eq_refl). reflexivity.
Qed.

Lemma calculate_rate_impact_value (dc u c p : R) :
  u <> 0 ->
  calculate_rate_impact dc u c p = Returned (rate_impact_value dc u c p).
Proof.
  intros Hu. unfold calculate_rate_impact.
  rewrite (truediv_nonzero dc u Hu). cbn [and_then].
  rewrite truediv_nonzero by lra. cbn [and_then].
  rewrite truediv_nonzero by lra. cbn [and_then].
  rewrite truediv_nonzero by lra. cbn [and_then].
  reflexivity.
Qed.

(** The only failure of calculate_rate_impact is a zero utilization: it
    raises ZeroDivisionError exactly when utilization is 0 and otherwise
    returns the sum of the infrastructure share and the capacity
    premium. *)
Theorem rate_impact_fails_only_on_zero_utilization (dc u c p : R) :
  (calculate_rate_impact dc u c p = Raised ZeroDivisionError <-> u = 0) /\
  (u <> 0 ->
   calculate_rate_impact dc u c p =
     Returned (dc / u * c * p * 1000 / 1.7 / 2184 * 100 + dc / 15650 * 400)).
Proof.
  split; [ split | ].
  - intros H. destruct (Req_dec_T u 0) as [Hu | Hu]; [ exact Hu | ].
    rewrite (calculate_rate_impact_value dc u c p Hu) in H. discriminate H.
  - intros ->. unfold calculate_rate_impact.
    rewrite truediv_zero. reflexivity.
  - intros Hu. apply calculate_rate_impact_value. exact Hu.
Qed.

(** For a capacity, cost and pass-through share that are not negative, a
    lower (positive) utilization never gives a lower rate increase, and
    for a positive utilization a larger pass-through share never gives a
    lower rate increase. *)
Theorem rate_impact_monotone (dc c : R) :
  0 <= dc -> 0 <= c ->
  (forall u1 u2 p r1 r2,
     0 <= p -> 0 < u1 <= u2 ->
     calculate_rate_impact dc u1 c p = Returned r1 ->
     calculate_rate_impact dc u2 c p = Returned r2 ->
     r2 <= r1) /\
  (forall u p1 p2 r1 r2,
     0 < u -> p1 <= p2 ->
     calculate_rate_impact dc u c p1 = Returned r1 ->
     calculate_rate_impact dc u c p2 = Returned r2 ->
     r1 <= r2).
Proof.
  intros Hdc Hc. split.
  - intros u1 u2 p r1 r2 Hp [Hu1 Hu12] H1 H2.
    rewrite calculate_rate_impact_value in H1 by lra.
    rewrite calculate_rate_impact_value in H2 by lra.
    injection H1 as <-. injection H2 as <-.
    unfold rate_impact_value.
    assert (Hinv : / u2 <= / u1) by (apply Rinv_le_contravar; lra).
    assert (Hk : 0 <= dc * c * p * 1000 / 1.7 / 2184 * 100).
    { assert (0 <= dc * c) by (apply Rmult_le_pos; lra).
      assert (0 <= dc * c * p) by (apply Rmult_le_pos; lra). lra. }
    replace (dc / u2 * c * p * 1000 / 1.7 / 2184 * 100)
      with (dc * c * p * 1000 / 1.7 / 2184 * 100 * / u2) by (field; repeat split; lra).
    replace (dc / u1 * c * p * 1000 / 1.7 / 2184 * 100)
      with (dc * c * p * 1000 / 1.7 / 2184 * 100 * / u1) by (field; repeat split; lra).
    apply Rplus_le_compat_r. apply Rmult_le_compat_l; assumption.
  - intros u p1 p2 r1 r2 Hu Hp H1 H2.
    rewrite calculate_rate_impact_value in H1 by lra.
    rewrite calculate_rate_impact_value in H2 by lra.
    injection H1 as <-. injection H2 as <-.
    unfold rate_impact_value.
    assert (Hk : 0 <= dc / u * c * 1000 / 1.7 / 2184 * 100).
    { assert (0 <= dc / u).
      { apply Rmult_le_pos; [ lra | left; apply Rinv_0_lt_compat; lra ]. }
      assert (0 <= dc / u * c) by (apply Rmult_le_pos; lra). lra. }
    replace (dc / u * c * p1 * 1000 / 1.7 / 2184 * 100)
      with (dc / u * c * 1000 / 1.7 / 2184 * 100 * p1) by (field; repeat split; lra).
    replace (dc / u * c * p2 * 1000 / 1.7 / 2184 * 100)
      with (dc / u * c * 1000 / 1.7 / 2184 * 100 * p2) by (field; repeat split; lra).
    apply Rplus_le_compat_r. apply Rmult_le_compat_l; assumption.
Qed.

(** Whatever the cost and however little of it is passed through, the
    returned increase is at least the capacity premium dc_mw / 15650 * 400,
    and with a pass-through share of 0 it is exactly that premium. *)
Theorem rate_impact_capacity_premium_floor (dc u c p : R) :
  0 <= dc -> 0 < u -> 0 <= c -> 0 <= p ->
  exists r,
    calculate_rate_impact dc u c p = Returned r /\
    dc / 15650 * 400 <= r /\
    calculate_rate_impact dc u c 0 = Returned (dc / 15650 * 400).
Proof.
  intros Hdc Hu Hc Hp.
  exists (rate_impact_value dc u c p).
  split; [ apply calculate_rate_impact_value; lra | ]. split.
  - unfold rate_impact_value.
    assert (H0 : 0 <= dc / u).
    { apply Rmult_le_pos; [ lra | left; apply Rinv_0_lt_compat; lra ]. }
    assert (H1 : 0 <= dc / u * c) by (apply Rmult_le_pos; lra).
    assert (H2 : 0 <= dc / u * c * p) by (apply Rmult_le_pos; lra).
    lra.
  - rewrite calculate_rate_impact_value by lra.
    f_equal. unfold rate_impact_value. field; repeat split; lra.
Qed.

End RateImpact.

(** The theorem at the base parameters: the utilization 0.68 against
    0.85. *)
Lemma rate_impact_monotone_witness :
  rate_impact_value 1368 0.85 1.62 0.25 <= rate_impact_value 1368 0.68 1.62 0.25.
Proof.
  refine (proj1 (rate_impact_monotone 1368 1.62 _ _)
            0.68 0.85 0.25 _ _ _ _ _ _); try lra;
    apply calculate_rate_impact_value; lra.
Defined.

Lemma rate_impact_capacity_premium_floor_witness :
  exists r,
    calculate_rate_impact 1368 0.85 1.62 0.25 = Returned r /\
    1368 / 15650 * 400 <= r.
Proof.
  destruct (rate_impact_capacity_premium_floor 1368 0.85 1.62 0.25)
    as (r & Hr & Hle & _); try lra.
  exists r. split; [ exact Hr | exact Hle ].
Defined.

Section ScenarioRuns.

Open Scope R_scope.

(** sensitivity_analysis never raises.  With base the value of
    calculate_rate_impact at the base parameters, the four scenarios are
    ordered: scenario 3 (pass-through 0.10) lies below scenario 1 (70% of
    the capacity), which lies below base; scenario 2 (80% of the
    utilization) lies above base and below scenario 4 (150% of the
    infrastructure cost); and every scenario lies above the 124 that the
    printed table subtracts as the base case. *)
Theorem sensitivity_scenarios_ordered :
  exists f base,
    sensitivity_analysis = Returned f /\
    calculate_rate_impact 1368 0.85 1.62 0.25 = Returned base /\
    scenario3_rate_increase f < scenario1_rate_increase f /\
    scenario1_rate_increase f < base /\
    base < scenario2_rate_increase f /\
    scenario2_rate_increase f < scenario4_rate_increase f /\
    printed_base_case < scenario3_rate_increase f.
Proof.
  unfold sensitivity_analysis.
  cbn [dc_capacity_2030 dc_utilization infrastructure_cost_per_mw
       cost_passthrough_pct].
  rewrite !calculate_rate_impact_value by lra.
  cbn [and_then].
  eexists. eexists. split; [ reflexivity | ].
  split; [ reflexivity | ].
  cbn [scenario1_rate_increase scenario2_rate_increase
       scenario3_rate_increase scenario4_rate_increase].
  unfold rate_impact_value, printed_base_case.
  repeat split; lra.
Qed.

(** validate_against_real_markets never raises, and the error_pct it
    returns under the key virginia is the relative error of the Texas
    prediction, |85 - 89| / 89 * 100 (the variable is assigned again in the
    Texas block), not that of the Virginia prediction, |38 - 41.8| / 41.8 *
    100; the error_pct under texas is the literal 4.5. *)
Theorem market_report_virginia_error_is_texas_error :
  exists d va tx,
    validate_against_real_markets = Returned d /\
    market_get d "virginia" = Some va /\
    market_get d "texas" = Some tx /\
    report_get va "error_pct" = Some (relative_error_pct 85.0 89.0) /\
    relative_error_pct 85.0 89.0 <> relative_error_pct 38.0 41.8 /\
    report_get va "actual" = Some 41.8 /\
    report_get va "predicted" = Some 38.0 /\
    report_get tx "error_pct" = Some 4.5.
Proof.
  unfold validate_against_real_markets.
  cbn [actual_increase_pct].
  rewrite !truediv_nonzero by lra.
  cbn [and_then].
  do 3 eexists. split; [ reflexivity | ].
  split; [ reflexivity | ]. split; [ reflexivity | ].
  split; [ reflexivity | ].
  split.
  - unfold relative_error_pct.
    rewrite (Rabs_left (85.0 - 89.0)) by lra.
    rewrite (Rabs_left (38.0 - 41.8)) by lra.
    intros H. lra.
  - repeat split; reflexivity || (f_equal; lra).
Qed.

End ScenarioRuns.

(* ===================================================================== *)
(** * Confidence intervals: array shapes and empty inputs *)
(* ===================================================================== *)

Section ConfidenceIntervalShapes.

Open Scope R_scope.

Context {nq : NormalQuantile}.

Lemma broadcast_raises_iff {A B C : Type} (f : A -> B -> C) (l : list A)
    (m : list B) :
  (broadcast f l m = Raise ValueError <->
   length l <> length m /\ length l <> 1%nat /\ length m <> 1%nat) /\
  (raises (broadcast f l m) -> broadcast f l m = Raise ValueError).
Proof.
  unfold broadcast.
  destruct (Nat.eqb_spec (length l) (length m)) as [Heq | Hne].
  - split.
    + split; [ discriminate | intros [H _]; contradiction ].
    + intros [e He]. discriminate He.
  - destruct l as [| x [| x' l]].
    + destruct m as [| y [| y' m]].
      * contradiction.
      * split; [ split; [ discriminate | simpl; intros (_ & _ & H); lia ] | ].
        intros [e He]. discriminate He.
      * split; [ split; [ intros _; simpl; repeat split; lia | reflexivity ] | ].
        reflexivity.
    + split; [ split; [ discriminate | simpl; intros (_ & H & _); lia ] | ].
      intros [e He]. discriminate He.
    + destruct m as [| y [| y' m]].
      * split; [ split; [ intros _; simpl; repeat split; lia | reflexivity ] | ].
        reflexivity.
      * split; [ split; [ discriminate | simpl; intros (_ & _ & H); lia ] | ].
        intros [e He]. discriminate He.
      * split; [ split | reflexivity ].
        -- intros _. repeat split; [ exact Hne | simpl; lia | simpl; lia ].
        -- reflexivity.
Qed.

Lemma calculate_confidence_intervals_sub (preds acts : list R) (c : R) :
  calculate_confidence_intervals preds acts c =
  bind (sub acts preds) (fun residuals =>
    let m := fmul (norm_ppf ((1 + c) / 2)) (std 0 residuals) in
    let retail w :=
      fadd (fmul (fdiv w (Fin 1000)) (Fin 3.5)) (Fin 0.05) in
    Ok [("se"%string, VFloat (std 0 residuals));
        ("margin"%string, VFloat m);
        ("retail_point"%string, VFloat (retail (Fin 100.98)));
        ("retail_lower"%string, VFloat (retail (fsub (Fin 100.98) m)));
        ("retail_upper"%string, VFloat (retail (fadd (Fin 100.98) m)))]).
Proof.
  unfold calculate_confidence_intervals, ci_frame.
  destruct (sub acts preds) as [r | e]; reflexivity.
Qed.

(** calculate_confidence_intervals checks no lengths itself: it raises,
    with the ValueError of the array subtraction, exactly when the two
    arrays differ in length and neither has length one; an array of length
    one is silently broadcast against the other. *)
Theorem confidence_intervals_raise_iff_shapes_differ
    (preds acts : list R) (c : R) :
  (raises (calculate_confidence_intervals preds acts c) <->
   length acts <> length preds /\
   length acts <> 1%nat /\ length preds <> 1%nat) /\
  (raises (calculate_confidence_intervals preds acts c) ->
   calculate_confidence_intervals preds acts c = Raise ValueError) /\
  (forall a, length preds <> 1%nat ->
     exists d,
       calculate_confidence_intervals preds [a] c = Ok d /\
       dict_get d "se"%string =
         Some (VFloat (std 0 (map (fun p => a - p) preds)))).
Proof.
  rewrite calculate_confidence_intervals_sub.
  destruct (broadcast_raises_iff Rminus acts preds) as [Hiff Hval].
  fold (sub acts preds) in Hiff, Hval.
  split; [ | split ].
  - rewrite <- Hiff. split.
    + intros [e He]. destruct (sub acts preds) as [r | e'] eqn:Hs.
      * discriminate He.
      * apply Hval. exists e'. reflexivity.
    + intros ->. exists ValueError. reflexivity.
  - intros [e He]. destruct (sub acts preds) as [r | e'] eqn:Hs.
    + discriminate He.
    + rewrite Hval by (exists e'; reflexivity). reflexivity.
  - intros a Hp. rewrite calculate_confidence_intervals_sub.
    unfold sub, broadcast.
    destruct (Nat.eqb_spec (length [a]) (length preds)) as [Heq | _].
    + simpl in Heq. congruence.
    + cbn [bind]. eexists. split; reflexivity.
Qed.

(** On empty arrays calculate_confidence_intervals does not raise: the
    standard error, the margin and both retail bounds are nan, while the
    retail point estimate is the usual number, for every confidence
    level. *)
Theorem confidence_intervals_of_nothing (c : R) :
  calculate_confidence_intervals [] [] c =
    Ok [("se"%string, VFloat NaN);
        ("margin"%string, VFloat NaN);
        ("retail_point"%string, VFloat (Fin (100.98 / 1000 * 3.5 + 0.05)));
        ("retail_lower"%string, VFloat NaN);
        ("retail_upper"%string, VFloat NaN)].
Proof.
  rewrite calculate_confidence_intervals_sub.
  change (sub [] []) with (@Ok (list R) []). cbn [bind].
  rewrite std0_empty.
  assert (Hm : fmul (norm_ppf ((1 + c) / 2)) NaN = NaN).
  { destruct (norm_ppf ((1 + c) / 2)); reflexivity. }
  cbv zeta. rewrite Hm, to_retail_Fin. reflexivity.
Qed.

End ConfidenceIntervalShapes.

(* ===================================================================== *)
(** * Walk-forward validation: series of different length, small windows *)
(* ===================================================================== *)

Section WalkForwardEdges.

Open Scope R_scope.

Context {svm : Libsvm}.

Lemma for_each_app {A S : Type} (xs ys : list A) (body : A -> S -> result S)
    (st : S) :
  for_each (xs ++ ys) body st =
  bind (for_each xs body st) (for_each ys body).
Proof.
  revert st. induction xs as [| x xs IH]; intros st.
  - reflexivity.
  - simpl. destruct (body x st) as [st1 | e]; simpl.
    + apply IH.
    + reflexivity.
Qed.

(** One step of the rolling loop when the price series is at least as
    long as the test index requires. *)
Lemma wf_fit_predict_in_range (demand prices : list R) (w i : nat) :
  (0 < w <= i)%nat -> (i < length demand)%nat -> (i < length prices)%nat ->
  exists sc mo,
    wf_fit_predict demand prices (Z.of_nat w) (Z.of_nat i) =
      Ok (sc, mo, nth i prices 0, step_prediction demand prices w i).
Proof.
  intros Hw Hi Hp.
  destruct (train_bounds_nonempty (window demand i w)) as [a Ha].
  { apply (nonempty_of_length _ w); [ apply window_length | lia ]. }
  unfold wf_fit_predict.
  rewrite (slice_window demand i w) by lia.
  rewrite (slice_window prices i w) by lia.
  rewrite (getitem_nth demand i 0 Hi).
  rewrite (getitem_nth prices i 0 Hp).
  cbn [bind].
  rewrite (fit_predict_pipeline (window demand i w) (window prices i w)
             [nth i demand 0] a
             (fun scaler model y_preds =>
                y_pred <- getitem y_preds 0 ;;
                Ok (scaler, model, nth i prices 0, y_pred)) Ha).
  - unfold step_prediction, fresh_prediction. rewrite Ha.
    eexists. eexists. reflexivity.
  - rewrite !window_length. reflexivity.
  - discriminate.
Qed.

Lemma wf_loop_in_range (demand prices : list R) (w : nat) (idx : list nat) :
  (0 < w)%nat ->
  (forall i, In i idx ->
     (w <= i)%nat /\ (i < length demand)%nat /\ (i < length prices)%nat) ->
  forall st,
  exists st',
    for_each (map Z.of_nat idx) (wf_step demand prices (Z.of_nat w)) st
      = Ok st' /\
    predictions st' =
      predictions st ++ map (step_prediction demand prices w) idx /\
    actuals st' = actuals st ++ map (fun i => nth i prices 0) idx.
Proof.
  intros Hw. induction idx as [| i idx IH]; intros Hin st.
  - exists st. simpl. rewrite !app_nil_r. repeat split; reflexivity.
  - destruct (Hin i (or_introl eq_refl)) as (Hi1 & Hi2 & Hi3).
    destruct (wf_fit_predict_in_range demand prices w i) as (sc & mo & Hstep);
      [ lia | lia | lia | ].
    simpl map. simpl for_each.
    unfold wf_step at 1. rewrite Hstep. cbn [bind].
    match goal with
    | |- context [for_each _ _ ?s] =>
        destruct (IH (fun j Hj => Hin j (or_intror Hj)) s)
          as [st' [Hrun [Hp Ha]]]
    end.
    exists st'. split; [ exact Hrun | ].
    rewrite Hp, Ha. simpl. rewrite <- !app_assoc. split; reflexivity.
Qed.

(** The whole run, for a window shorter than the demand series and a price
    series that is not shorter than it. *)
Lemma walk_forward_unfolded (demand prices : list R) (w : nat) :
  (length demand <= length prices)%nat ->
  (0 < w < length demand)%nat ->
  let P := map (step_prediction demand prices w)
               (seq w (length demand - w)) in
  let A := map (fun i => nth i prices 0) (seq w (length demand - w)) in
  walk_forward_validation demand prices (Z.of_nat w) =
    bind (wf_metrics P A) (fun m => Ok (P, A, m)).
Proof.
  intros Hlen Hw P A.
  unfold walk_forward_validation, wf_loop, len.
  rewrite range_of_nat.
  destruct (wf_loop_in_range demand prices w
              (seq w (length demand - w))) with
    (st := {| predictions := []; actuals := [];
              wf_scaler := None; wf_model := None |})
    as [st' [Hrun [Hp Ha]]].
  - lia.
  - intros i Hi. apply in_seq in Hi. lia.
  - rewrite Hrun. cbn [bind]. simpl in Hp, Ha. rewrite Hp, Ha.
    reflexivity.
Qed.

End WalkForwardEdges.

Section WalkForwardEdgeTheorems.

Open Scope R_scope.

Context {svm : Libsvm}.

Lemma window_firstn (prices : list R) (n i w : nat) :
  (w <= i <= n)%nat -> window (firstn n prices) i w = window prices i w.
Proof.
  intros Hi. unfold window, train_indices.
  apply map_ext_in. intros j Hj. apply in_seq in Hj.
  rewrite nth_firstn.
  destruct (Nat.ltb_spec j n) as [_ | Hge]; [ reflexivity | lia ].
Qed.

(** walk_forward_validation never reads a price beyond the length of the
    demand series: with a positive window and a price series at least as
    long as the demand series, the result (returned or raised) is the one
    obtained from the prices cut to the length of the demand series. *)
Theorem walk_forward_ignores_surplus_prices
    (demand prices : list R) (w : Z) :
  (0 < w)%Z ->
  (length demand <= length prices)%nat ->
  walk_forward_validation demand prices w =
  walk_forward_validation demand (firstn (length demand) prices) w.
Proof.
  intros Hw Hlen.
  destruct (Z.lt_ge_cases w (len demand)) as [Hlt | Hge].
  - unfold len in Hlt.
    replace w with (Z.of_nat (Z.to_nat w)) by lia.
    rewrite (walk_forward_unfolded demand prices (Z.to_nat w)) by lia.
    rewrite (walk_forward_unfolded demand (firstn (length demand) prices)
               (Z.to_nat w)).
    2:{ rewrite length_firstn. lia. }
    2:{ lia. }
    cbv zeta.
    assert (HP : map (step_prediction demand
                        (firstn (length demand) prices) (Z.to_nat w))
                     (seq (Z.to_nat w) (length demand - Z.to_nat w)) =
                 map (step_prediction demand prices (Z.to_nat w))
                     (seq (Z.to_nat w) (length demand - Z.to_nat w))).
    { apply map_ext_in. intros i Hi. apply in_seq in Hi.
      unfold step_prediction. rewrite window_firstn by lia. reflexivity. }
    assert (HA : map (fun i => nth i (firstn (length demand) prices) 0)
                     (seq (Z.to_nat w) (length demand - Z.to_nat w)) =
                 map (fun i => nth i prices 0)
                     (seq (Z.to_nat w) (length demand - Z.to_nat w))).
    { apply map_ext_in. intros i Hi. apply in_seq in Hi.
      rewrite nth_firstn.
      destruct (Nat.ltb_spec i (length demand)) as [_ | Hge];
        [ reflexivity | lia ]. }
    rewrite HP, HA. reflexivity.
  - rewrite (proj2 (walk_forward_window_too_long demand prices w Hge)).
    rewrite (proj2 (walk_forward_window_too_long demand
                      (firstn (length demand) prices) w Hge)).
    reflexivity.
Qed.

(** walk_forward_validation does not compare the lengths of its two
    series: when prices is shorter than demand_data (and the window is
    shorter than demand_data) the run fails with IndexError, at the first
    test index that prices does not have, after the earlier steps were
    fitted. *)
Theorem walk_forward_short_prices_index_error
    (demand prices : list R) (w : nat) :
  (0 < w < length demand)%nat ->
  (length prices < length demand)%nat ->
  walk_forward_validation demand prices (Z.of_nat w) = Raise IndexError.
Proof.
  intros Hw Hp.
  set (i0 := Nat.max w (length prices)).
  assert (Hi0 : (w <= i0 < length demand)%nat) by (unfold i0; lia).
  unfold walk_forward_validation, wf_loop, len.
  rewrite range_of_nat.
  replace (length demand - w)%nat
    with ((i0 - w) + S (length demand - S i0))%nat by lia.
  rewrite seq_app, map_app, for_each_app.
  destruct (wf_loop_in_range demand prices w (seq w (i0 - w))) with
    (st := {| predictions := []; actuals := [];
              wf_scaler := None; wf_model := None |})
    as [st' [Hrun _]].
  - lia.
  - intros i Hi. apply in_seq in Hi. unfold i0 in *. lia.
  - rewrite Hrun. cbn [bind].
    replace (w + (i0 - w))%nat with i0 by lia.
    cbn [seq map for_each].
    unfold wf_step at 1. unfold wf_fit_predict.
    rewrite (getitem_nth demand i0 0) by lia.
    rewrite (getitem_out_of_range prices (Z.of_nat i0)) by (unfold i0; lia).
    reflexivity.
Qed.

(** With window_size = 0 on non-empty series the first step has an empty
    training window, which the scaler refuses: the run fails with
    ValueError before any prediction is made. *)
Theorem walk_forward_zero_window_value_error (demand prices : list R) :
  demand <> [] -> prices <> [] ->
  walk_forward_validation demand prices 0 = Raise ValueError.
Proof.
  intros Hd Hp.
  destruct demand as [| d0 demand]; [ contradiction | ].
  destruct prices as [| p0 prices]; [ contradiction | ].
  unfold walk_forward_validation, wf_loop, len.
  replace (range 0 (Z.of_nat (length (d0 :: demand))))
    with (map Z.of_nat (seq 0 (length (d0 :: demand) - 0)))
    by (symmetry; apply (range_of_nat 0)).
  change (length (d0 :: demand) - 0)%nat with (S (length demand)).
  cbn [seq map for_each].
  unfold wf_step at 1. unfold wf_fit_predict.
  rewrite (getitem_nth (d0 :: demand) 0 0) by (simpl; lia).
  rewrite (getitem_nth (p0 :: prices) 0 0) by (simpl; lia).
  reflexivity.
Qed.

(** With a window one shorter than the series the run makes a single
    prediction and returns, but R² and the directional accuracy of a
    single point are nan. *)
Theorem walk_forward_single_prediction_nan_scores
    (demand prices : list R) (w : nat) :
  length demand = length prices ->
  (0 < w)%nat ->
  length demand = S w ->
  exists p m,
    walk_forward_validation demand prices (Z.of_nat w) =
      Ok ([p], [nth w prices 0], m) /\
    dict_get m "r2"%string = Some (VFloat NaN) /\
    dict_get m "directional_accuracy"%string = Some (VFloat NaN).
Proof.
  intros Hlen Hw HN.
  rewrite (walk_forward_unfolded demand prices w) by lia.
  cbv zeta. rewrite HN.
  replace (S w - w)%nat with 1%nat by lia.
  cbn [seq map].
  unfold wf_metrics, mean_squared_error, mean_absolute_error, r2_score.
  rewrite !(check_reg_targets_ok [nth w prices 0]) by
    (reflexivity || discriminate).
  cbn [bind length Nat.ltb Nat.leb].
  rewrite (mape_of_same_length [nth w prices 0]) by reflexivity.
  cbn [bind].
  rewrite (directional_accuracy_of_same_length [nth w prices 0])
    by reflexivity.
  cbn [bind diff map zip_with].
  unfold mean_bool. cbn [map]. rewrite mean_of_nothing.
  eexists. eexists. split; [ reflexivity | ].
  split; reflexivity.
Qed.

End WalkForwardEdgeTheorems.

(** The theorem at a three-point demand series with four prices. *)
Lemma walk_forward_ignores_surplus_prices_witness :
  walk_forward_validation (svm := Instances.mean_regressor)
    [1; 2; 3] [2; 4; 6; 8] 2 =
  walk_forward_validation (svm := Instances.mean_regressor)
    [1; 2; 3] [2; 4; 6] 2.
Proof.
  apply (walk_forward_ignores_surplus_prices (svm := Instances.mean_regressor)
           [1; 2; 3] [2; 4; 6; 8] 2 eq_refl).
  simpl. lia.
Defined.

(** The theorem at a three-point demand series with two prices. *)
Lemma walk_forward_short_prices_index_error_witness :
  walk_forward_validation (svm := Instances.mean_regressor)
    [1; 2; 3] [2; 4] 2 = Raise IndexError.
Proof.
  apply (walk_forward_short_prices_index_error
           (svm := Instances.mean_regressor) [1; 2; 3] [2; 4] 2).
  - simpl. lia.
  - simpl. lia.
Defined.

(** The theorem at two-point series. *)
Lemma walk_forward_zero_window_value_error_witness :
  walk_forward_validation (svm := Instances.mean_regressor)
    [1; 2] [3; 4] 0 = Raise ValueError.
Proof.
  apply (walk_forward_zero_window_value_error
           (svm := Instances.mean_regressor) [1; 2] [3; 4]).
  - discriminate.
  - discriminate.
Defined.

(** The theorem at three-point series with a window of two. *)
Lemma walk_forward_single_prediction_nan_scores_witness :
  exists p m,
    walk_forward_validation (svm := Instances.mean_regressor)
      [1; 2; 3] [2; 4; 6] 2 = Ok ([p], [6], m) /\
    dict_get m "r2"%string = Some (VFloat NaN) /\
    dict_get m "directional_accuracy"%string = Some (VFloat NaN).
Proof.
  apply (walk_forward_single_prediction_nan_scores
           (svm := Instances.mean_regressor) [1; 2; 3] [2; 4; 6] 2
           eq_refl (Nat.lt_0_succ 1) eq_refl).
Defined.

(* ===================================================================== *)
(** * The metrics of a walk-forward run *)
(* ===================================================================== *)

Section RunMetrics.

Open Scope R_scope.

Lemma zip_with_ext {A B C : Type} (f g : A -> B -> C) (l : list A)
    (m : list B) :
  (forall a b, f a b = g a b) -> zip_with f l m = zip_with g l m.
Proof.
  intros Hfg. revert m. induction l as [| x l IH]; intros [| y m]; simpl;
    try reflexivity.
  rewrite Hfg, IH. reflexivity.
Qed.

Lemma Rsum_nonneg (l : list R) : Forall (fun x => 0 <= x) l -> 0 <= Rsum l.
Proof.
  induction 1 as [| x l Hx Hl IH]; simpl; lra.
Qed.

(** The mean of absolute values is not negative. *)
Lemma mean_abs_nonneg (l : list R) :
  l <> [] -> 0 <= Rsum (map Rabs l) / INR (length l).
Proof.
  intros Hl.
  pose proof (INR_length_pos l Hl) as Hn.
  apply Rmult_le_pos; [ | left; apply Rinv_0_lt_compat; exact Hn ].
  apply Rsum_nonneg. apply Forall_forall. intros x Hx.
  apply in_map_iff in Hx. destruct Hx as [y [<- _]]. apply Rabs_pos.
Qed.

Lemma errors_as_lists (acts preds : list R) :
  Rsum (zip_with (fun t p => Rabs (p - t)) acts preds) =
    Rsum (map Rabs (zip_with Rminus acts preds)) /\
  Rsum (zip_with (fun t p => sq (t - p)) acts preds) =
    Rsum (map sq (zip_with Rminus acts preds)).
Proof.
  rewrite !zip_with_map. split.
  - apply (f_equal Rsum). apply zip_with_ext. intros a b.
    apply Rabs_minus_sym.
  - reflexivity.
Qed.

Lemma agreeing_steps_le (a p : list R) :
  length a = length p ->
  (agreeing_steps a p <= length a - 1)%nat.
Proof.
  intros Hlen. unfold agreeing_steps.
  etransitivity; [ apply filter_length_le | ].
  rewrite length_combine, !diff_length, <- Hlen, Nat.min_id. reflexivity.
Qed.

(** For predictions and actual values of equal non-zero length the
    metrics do not raise, and the returned mae and rmse are not negative;
    with at least two points, moreover, R² is a finite number not above 1
    and the directional accuracy lies between 0 and 100. *)
Theorem run_metrics_bounds (preds acts : list R) :
  length preds = length acts ->
  acts <> [] ->
  exists m rmse mae,
    wf_metrics preds acts = Ok m /\
    dict_get m "rmse"%string = Some (VFloat (Fin rmse)) /\
    dict_get m "mae"%string = Some (VFloat (Fin mae)) /\
    0 <= mae /\
    0 <= rmse /\
    ((2 <= length acts)%nat ->
     exists r2 da,
       dict_get m "r2"%string = Some (VFloat (Fin r2)) /\
       r2 <= 1 /\
       dict_get m "directional_accuracy"%string = Some (VFloat (Fin da)) /\
       0 <= da <= 100).
Proof.
  intros Hlen Hne.
  destruct (wf_metrics_ok preds acts Hlen Hne)
    as (mse & mae & r2 & mape & da & Hmse & Hmae & Hr2 & _ & Hda & Hrun).
  assert (Hlen' : length acts = length preds) by (symmetry; exact Hlen).
  unfold mean_squared_error in Hmse. unfold mean_absolute_error in Hmae.
  rewrite (check_reg_targets_ok _ _ Hlen' Hne) in Hmse, Hmae.
  cbn [bind] in Hmse, Hmae.
  injection Hmse as <-. injection Hmae as <-.
  destruct (errors_as_lists acts preds) as [Habs Hsq].
  rewrite Habs, Hsq in Hrun.
  assert (Hz : length (zip_with Rminus acts preds) = length acts)
    by (apply zip_with_length; exact Hlen').
  assert (Hzne : zip_with Rminus acts preds <> []).
  { apply (nonempty_of_length _ (length acts) Hz).
    destruct acts; [ contradiction | simpl; lia ]. }
  pose proof (mean_abs_nonneg _ Hzne) as Hb.
  rewrite Hz in Hb.
  assert (Hroot : fsqrt (Fin (Rsum (map sq (zip_with Rminus acts preds))
                              / INR (length acts))) =
                  Fin (sqrt (Rsum (map sq (zip_with Rminus acts preds))
                             / INR (length acts)))).
  { unfold fsqrt. rewrite Rnegb_false; [ reflexivity | ].
    apply Rmult_le_pos.
    - apply (Rsum_sq_nonneg (fun v : R => v)).
    - left. apply Rinv_0_lt_compat. apply INR_length_pos. exact Hne. }
  rewrite Hroot in Hrun.
  eexists. eexists. eexists. split; [ exact Hrun | ].
  split; [ reflexivity | ]. split; [ reflexivity | ].
  split; [ exact Hb | ]. split; [ apply sqrt_pos | ].
  intros Hn.
  rewrite (directional_accuracy_fraction _ _ Hlen' Hn) in Hda.
  injection Hda as <-.
  assert (Hr2fin : exists r, r2 = Fin r /\ r <= 1).
  { unfold r2_score in Hr2.
    rewrite (check_reg_targets_ok _ _ Hlen' Hne) in Hr2. cbn [bind] in Hr2.
    destruct (Nat.ltb_spec (length preds) 2) as [Hlt | _]; [ lia | ].
    destruct (Rzerob (ss_res acts preds)) eqn:Hnum.
    - injection Hr2 as <-. exists 1. split; [ reflexivity | lra ].
    - destruct (Rzerob (ss_tot acts)) eqn:Hden.
      + injection Hr2 as <-. exists 0. split; [ reflexivity | lra ].
      + injection Hr2 as <-. eexists. split; [ reflexivity | ].
        apply Rzerob_false in Hden.
        pose proof (ss_res_nonneg acts preds) as Hnn.
        assert (Hdpos : 0 < ss_tot acts).
        { pose proof (Rsum_sq_nonneg
                        (fun t => t - Rsum acts / INR (length acts)) acts)
            as Hge.
          unfold ss_tot. unfold ss_tot in Hden. lra. }
        assert (0 <= ss_res acts preds / ss_tot acts).
        { apply Rmult_le_pos;
            [ exact Hnn | left; apply Rinv_0_lt_compat; exact Hdpos ]. }
        lra. }
  destruct Hr2fin as (r & -> & Hr).
  eexists. eexists. split; [ reflexivity | ]. split; [ exact Hr | ].
  split; [ reflexivity | ].
  pose proof (agreeing_steps_le acts preds Hlen') as Hle.
  assert (Hpos : 0 < INR (length acts - 1)) by (apply lt_0_INR; lia).
  pose proof (pos_INR (agreeing_steps acts preds)) as H0.
  apply le_INR in Hle.
  assert (Hq : 0 <= INR (agreeing_steps acts preds) / INR (length acts - 1)
               <= 1).
  { split.
    - apply Rmult_le_pos; [ exact H0 | left; apply Rinv_0_lt_compat; exact Hpos ].
    - apply Rmult_le_reg_r with (r := INR (length acts - 1)); [ exact Hpos | ].
      unfold Rdiv. rewrite Rmult_assoc, Rinv_l by lra. lra. }
  lra.
Qed.

End RunMetrics.

(** The theorem at two predictions, one of them off by one. *)
Lemma run_metrics_bounds_witness :
  exists m rmse mae,
    wf_metrics [1; 2] [1; 3] = Ok m /\
    dict_get m "rmse"%string = Some (VFloat (Fin rmse)) /\
    dict_get m "mae"%string = Some (VFloat (Fin mae)) /\
    0 <= mae /\ 0 <= rmse.
Proof.
  destruct (run_metrics_bounds [1; 2] [1; 3] eq_refl)
    as (m & rmse & mae & Hm & Hrmse & Hmae & Ha & Hr & _).
  - discriminate.
  - exists m, rmse, mae.
    split; [ exact Hm | ]. split; [ exact Hrmse | ].
    split; [ exact Hmae | split; [ exact Ha | exact Hr ] ].
Defined.

Section ExactPredictions.

Open Scope R_scope.

Lemma Rsum_zip_same_zero (f : R -> R -> R) (a : list R) :
  (forall t, f t t = 0) -> Rsum (zip_with f a a) = 0.
Proof.
  intros Hf. induction a as [| t a IH]; simpl.
  - reflexivity.
  - rewrite Hf, IH. lra.
Qed.

(** When the predictions equal the actual values (at least two of them,
    none zero) the reported metrics are rmse = 0, mae = 0, R² = 1,
    mape = 0 and a directional accuracy of 100; R² is 1 here also when the
    actual values are all equal. *)
Theorem exact_predictions_perfect_scores (a : list R) :
  (2 <= length a)%nat ->
  Forall (fun t => t <> 0) a ->
  wf_metrics a a =
    Ok [("rmse"%string, VFloat (Fin 0));
        ("mae"%string, VFloat (Fin 0));
        ("r2"%string, VFloat (Fin 1));
        ("mape"%string, VFloat (Fin 0));
        ("directional_accuracy"%string, VFloat (Fin 100))].
Proof.
  intros Hn Hnz.
  assert (Hne : a <> []) by (destruct a; [ simpl in Hn; lia | discriminate ]).
  pose proof (INR_length_pos a Hne) as Hpos.
  unfold wf_metrics, mean_squared_error, mean_absolute_error, r2_score.
  rewrite !(check_reg_targets_ok a a eq_refl Hne). cbn [bind].
  destruct (Nat.ltb_spec (length a) 2) as [Hlt | _]; [ lia | ].
  assert (Hres : ss_res a a = 0) by (apply ss_res_zero_iff; reflexivity).
  rewrite Hres, (proj2 (Rzerob_true 0) eq_refl). cbn [bind].
  unfold ss_res in Hres. rewrite Hres.
  rewrite (Rsum_zip_same_zero (fun t p => Rabs (p - t))).
  2:{ intros t. rewrite Rminus_diag. apply Rabs_R0. }
  rewrite (mape_of_nonzero_actuals a a eq_refl Hne Hnz). cbn [bind].
  rewrite (directional_accuracy_fraction a a eq_refl Hn). cbn [bind].
  rewrite agreeing_steps_same.
  assert (Hm : mape_formula a a = 0).
  { unfold mape_formula, mean_of.
    rewrite (Rsum_zip_same_zero (fun t p => Rabs (t - p) / Rabs t)).
    - unfold Rdiv. rewrite !Rmult_0_l. reflexivity.
    - intros t. rewrite Rminus_diag, Rabs_R0. unfold Rdiv.
      apply Rmult_0_l. }
  rewrite Hm.
  assert (Hd : INR (length a - 1) / INR (length a - 1) * 100 = 100).
  { assert (0 < INR (length a - 1)) by (apply lt_0_INR; lia). field. lra. }
  rewrite Hd.
  assert (Hz : 0 / INR (length a) = 0) by (unfold Rdiv; apply Rmult_0_l).
  rewrite Hz. unfold fsqrt. rewrite Rnegb_false by lra. rewrite sqrt_0.
  reflexivity.
Qed.

End ExactPredictions.

(** The theorem at the actual values 1 and 2. *)
Lemma exact_predictions_perfect_scores_witness :
  wf_metrics [1; 2] [1; 2] =
    Ok [("rmse"%string, VFloat (Fin 0));
        ("mae"%string, VFloat (Fin 0));
        ("r2"%string, VFloat (Fin 1));
        ("mape"%string, VFloat (Fin 0));
        ("directional_accuracy"%string, VFloat (Fin 100))].
Proof.
  apply (exact_predictions_perfect_scores [1; 2] (le_n 2)).
  repeat constructor; lra.
Defined.

(* ===================================================================== *)
(** * Cross-validation on a series of any length *)
(* ===================================================================== *)

Section CrossValidationFolds.

Open Scope R_scope.

Context {svm : Libsvm}.

Lemma arange_of_nat (n : nat) : arange (Z.of_nat n) = map Z.of_nat (seq 0 n).
Proof.
  unfold arange.
  replace (range 0 (Z.of_nat n)) with (range (Z.of_nat 0) (Z.of_nat n))
    by reflexivity.
  rewrite range_of_nat, Nat.sub_0_r. reflexivity.
Qed.

Lemma slice_arange (n a k : nat) :
  (a + k <= n)%nat ->
  slice (arange (Z.of_nat n)) (Z.of_nat a) (Z.of_nat (a + k)) =
  map Z.of_nat (seq a k).
Proof.
  intros H. rewrite arange_of_nat.
  rewrite (slice_inside 0%Z) by (rewrite length_map, length_seq; exact H).
  apply map_ext_in. intros j Hj. apply in_seq in Hj.
  change 0%Z with (Z.of_nat 0).
  rewrite map_nth, seq_nth by lia. reflexivity.
Qed.

Lemma take_in_range {A : Type} (d : A) (a : list A) (idx : list nat) :
  Forall (fun i => (i < length a)%nat) idx ->
  take a (map Z.of_nat idx) = Ok (map (fun i => nth i a d) idx).
Proof.
  induction 1 as [| i idx Hi Hall IH]; simpl.
  - reflexivity.
  - rewrite (getitem_nth a i d Hi). cbn [bind]. rewrite IH. reflexivity.
Qed.

(** The folds of the splitter, with [ts = n / (k + 1)] test points each:
    fold [j] trains on the indices before [n - (k - j) * ts] and tests on
    the [ts] indices from there. *)
Lemma split_folds (k n : nat) :
  (1 <= k)%nat -> (k + 1 <= n)%nat ->
  let ts := (n / (k + 1))%nat in
  split {| n_splits := Z.of_nat k |} (Z.of_nat n) =
    Ok (map (fun j =>
               (map Z.of_nat (seq 0 (n - (k - j) * ts)),
                map Z.of_nat (seq (n - (k - j) * ts) ts)))
            (seq 0 k)).
Proof.
  intros Hk Hn ts.
  assert (Hts : (1 <= ts)%nat).
  { unfold ts. apply Nat.div_str_pos. lia. }
  assert (Hmul : ((k + 1) * ts <= n)%nat).
  { unfold ts. apply Nat.Div0.mul_div_le. }
  assert (Hkts : (k * ts + ts <= n)%nat) by lia.
  assert (HT : (Z.of_nat n / (Z.of_nat k + 1))%Z = Z.of_nat ts).
  { unfold ts. rewrite Nat2Z.inj_div. f_equal. lia. }
  unfold split. cbn [n_splits]. rewrite HT.
  destruct (Z.ltb_spec (Z.of_nat n) (Z.of_nat k + 1)) as [Hlt | _]; [ lia | ].
  destruct (Z.leb_spec (Z.of_nat n - Z.of_nat ts * Z.of_nat k) 0)
    as [Hle | _]; [ nia | ].
  unfold range_step.
  destruct (Z.eqb_spec (Z.of_nat ts) 0) as [H0 | _]; [ lia | ].
  destruct (Z.ltb_spec (Z.of_nat ts) 0) as [H0 | _]; [ lia | ].
  cbn [bind].
  assert (Hcount : Z.to_nat ((Z.of_nat n
                              - (Z.of_nat n - Z.of_nat k * Z.of_nat ts)
                              + Z.of_nat ts - 1) / Z.of_nat ts) = k).
  { replace (Z.of_nat n - (Z.of_nat n - Z.of_nat k * Z.of_nat ts)
             + Z.of_nat ts - 1)%Z
      with (Z.of_nat k * Z.of_nat ts + (Z.of_nat ts - 1))%Z by lia.
    rewrite Z.div_add_l by lia.
    rewrite Z.div_small by lia. lia. }
  rewrite Hcount, map_map. f_equal.
  apply map_ext_in. intros j Hj. apply in_seq in Hj.
  assert (Hjts : (j * ts <= k * ts)%nat) by (apply Nat.mul_le_mono_r; lia).
  assert (Hsub : ((k - j) * ts = k * ts - j * ts)%nat)
    by apply Nat.mul_sub_distr_r.
  assert (Hone : (ts <= (k - j) * ts)%nat).
  { replace ts with (1 * ts)%nat at 1 by lia.
    apply Nat.mul_le_mono_r. lia. }
  assert (Hstart : (Z.of_nat n - Z.of_nat k * Z.of_nat ts
                    + Z.of_nat j * Z.of_nat ts)%Z
                   = Z.of_nat (n - (k - j) * ts)).
  { rewrite Hsub. lia. }
  rewrite Hstart. f_equal.
  - change 0%Z with (Z.of_nat 0).
    replace (n - (k - j) * ts)%nat with (0 + (n - (k - j) * ts))%nat at 1
      by lia.
    apply slice_arange. lia.
  - replace (Z.of_nat (n - (k - j) * ts) + Z.of_nat ts)%Z
      with (Z.of_nat ((n - (k - j) * ts) + ts)) by lia.
    apply slice_arange. lia.
Qed.

End CrossValidationFolds.

Section CrossValidationTable.

Open Scope R_scope.

Context {svm : Libsvm}.

Lemma Forall_enumerate {A : Type} (P : A -> Prop) (l : list A) (s : Z) :
  Forall P l -> Forall (fun it => P (snd it)) (enumerate l s).
Proof.
  intros H. revert s. induction H as [| x l Hx Hl IH]; intros s; simpl.
  - constructor.
  - constructor; [ exact Hx | apply IH ].
Qed.

Lemma map_snd_enumerate {A B : Type} (g : A -> B) (l : list A) (s : Z) :
  map (fun it => g (snd it)) (enumerate l s) = map g l.
Proof.
  revert s. induction l as [| x l IH]; intros s; simpl.
  - reflexivity.
  - rewrite IH. reflexivity.
Qed.

Lemma len_map_seq (a m : nat) : len (map Z.of_nat (seq a m)) = Z.of_nat m.
Proof. unfold len. rewrite length_map, length_seq. reflexivity. Qed.

(** The table of a series that is long enough. *)
Lemma cross_validation_rows_of_folds (X y : list R) (k : nat) :
  (2 <= k)%nat -> (k + 1 <= length X)%nat -> (length X <= length y)%nat ->
  let n := length X in
  let ts := (n / (k + 1))%nat in
  exists rows,
    time_series_cross_validation X y (Z.of_nat k) = Ok rows /\
    map (fun row => (dict_get row "train_size"%string,
                     dict_get row "test_size"%string)) rows =
    map (fun j => (Some (VInt (Z.of_nat (n - (k - j) * ts))),
                   Some (VInt (Z.of_nat ts))))
        (seq 0 k).
Proof.
  intros Hk Hn Hy n ts.
  assert (Hts : (1 <= ts)%nat).
  { unfold ts. apply Nat.div_str_pos. unfold n. lia. }
  assert (Hmul : ((k + 1) * ts <= n)%nat).
  { unfold ts. apply Nat.Div0.mul_div_le. }
  unfold time_series_cross_validation, TimeSeriesSplit_new.
  destruct (Z.leb_spec (Z.of_nat k) 1) as [Hle | _]; [ lia | ].
  cbn [bind]. unfold len at 1.
  rewrite (split_folds k (length X)) by lia.
  fold n. fold ts. cbn [bind].
  match goal with
  | |- context [for_each ?its _ ?st0] =>
      destruct (cv_loop_ok X y its) with (st := st0)
        as (st' & rows & Hrun & Hrows & Hsizes)
  end.
  - apply (Forall_enumerate
             (fun f : list Z * list Z =>
                exists X_train X_test y_train y_test,
                  take X (fst f) = Ok X_train /\
                  take X (snd f) = Ok X_test /\
                  take y (fst f) = Ok y_train /\
                  take y (snd f) = Ok y_test /\
                  fst f <> [] /\ snd f <> [])).
    apply Forall_forall. intros f Hf.
    apply in_map_iff in Hf. destruct Hf as (j & <- & Hj).
    apply in_seq in Hj. cbn [fst snd].
    assert (Hone : (ts <= (k - j) * ts)%nat).
    { replace ts with (1 * ts)%nat at 1 by lia.
      apply Nat.mul_le_mono_r. lia. }
    assert (Hall : ((k - j) * ts <= k * ts)%nat)
      by (apply Nat.mul_le_mono_r; lia).
    assert (Htrain : Forall (fun i => (i < n)%nat)
                            (seq 0 (n - (k - j) * ts))).
    { apply Forall_forall. intros i Hi. apply in_seq in Hi. lia. }
    assert (Htest : Forall (fun i => (i < n)%nat)
                           (seq (n - (k - j) * ts) ts)).
    { apply Forall_forall. intros i Hi. apply in_seq in Hi. lia. }
    do 4 eexists.
    split; [ apply (take_in_range 0); exact Htrain | ].
    split; [ apply (take_in_range 0); exact Htest | ].
    split.
    { apply (take_in_range 0).
      apply Forall_impl with (2 := Htrain). intros i Hi. unfold n in Hi. lia. }
    split.
    { apply (take_in_range 0).
      apply Forall_impl with (2 := Htest). intros i Hi. unfold n in Hi. lia. }
    split.
    + intros H0. apply (f_equal (@length Z)) in H0.
      rewrite length_map, length_seq in H0. simpl in H0. lia.
    + intros H0. apply (f_equal (@length Z)) in H0.
      rewrite length_map, length_seq in H0. simpl in H0. lia.
  - rewrite Hrun. cbn [bind]. exists rows.
    simpl in Hrows. rewrite Hrows. split; [ reflexivity | ].
    rewrite Hsizes.
    rewrite (map_snd_enumerate
               (fun f : list Z * list Z =>
                  (Some (VInt (len (fst f))), Some (VInt (len (snd f)))))).
    rewrite map_map. apply map_ext. intros j. cbn [fst snd].
    rewrite !len_map_seq. reflexivity.
Qed.




(** With at least as many targets as inputs,
    time_series_cross_validation fails exactly when n_splits <= 1 or the
    series has fewer than n_splits + 1 points, and then with the
    ValueError of the splitter, before any fold is run. *)
Theorem cross_validation_fails_iff_too_few_points
    (X y : list R) (n_splits : Z) :
  (length X <= length y)%nat ->
  (raises (time_series_cross_validation X y n_splits) <->
   (n_splits <= 1)%Z \/ (len X < n_splits + 1)%Z) /\
  (raises (time_series_cross_validation X y n_splits) ->
   time_series_cross_validation X y n_splits = Raise ValueError).
Proof.
  intros Hy.
  assert (Hfail : (n_splits <= 1)%Z \/ (len X < n_splits + 1)%Z ->
                  time_series_cross_validation X y n_splits
                  = Raise ValueError).
  { intros [Hk | Hn].
    - unfold time_series_cross_validation, TimeSeriesSplit_new.
      destruct (Z.leb_spec n_splits 1) as [_ | Hgt]; [ reflexivity | lia ].
    - apply cross_validation_too_short. exact Hn. }
  assert (Hok : ~ ((n_splits <= 1)%Z \/ (len X < n_splits + 1)%Z) ->
                exists rows,
                  time_series_cross_validation X y n_splits = Ok rows).
  { intros Hnot. unfold len in Hnot.
    destruct (cross_validation_rows_of_folds X y (Z.to_nat n_splits))
      as (rows & Hrun & _); try lia.
    rewrite Z2Nat.id in Hrun by lia. exists rows. exact Hrun. }
  split.
  - split.
    + intros [e He].
      destruct (Z.leb_spec n_splits 1) as [Hk | Hk]; [ left; exact Hk | ].
      destruct (Z.ltb_spec (len X) (n_splits + 1)) as [Hn | Hn];
        [ right; exact Hn | ].
      destruct Hok as [rows Hrows]; [ lia | ].
      rewrite Hrows in He. discriminate He.
    + intros H. exists ValueError. apply Hfail. exact H.
  - intros [e He].
    destruct (Z.leb_spec n_splits 1) as [Hk | Hk];
      [ apply Hfail; left; exact Hk | ].
    destruct (Z.ltb_spec (len X) (n_splits + 1)) as [Hn | Hn];
      [ apply Hfail; right; exact Hn | ].
    destruct Hok as [rows Hrows]; [ lia | ].
    rewrite Hrows in He. discriminate He.
Qed.

End CrossValidationTable.


(** The theorem at a 3-point series with 5 splits. *)
Lemma cross_validation_fails_iff_too_few_points_witness :
  time_series_cross_validation (svm := Instances.mean_regressor)
    [1; 2; 3] [10; 20; 30] 5 = Raise ValueError.
Proof.
  destruct (cross_validation_fails_iff_too_few_points
              (svm := Instances.mean_regressor) [1; 2; 3] [10; 20; 30] 5)
    as [Hiff Hval].
  - simpl. lia.
  - apply Hval. apply (proj2 Hiff). right. reflexivity.
Defined.

Section CrossValidationPast.

Open Scope R_scope.

Context {svm : Libsvm}.

Lemma getitem_firstn {A : Type} (m : nat) (a : list A) (i : nat) :
  (i < m)%nat -> getitem (firstn m a) (Z.of_nat i) = getitem a (Z.of_nat i).
Proof.
  intros Hi. unfold getitem. rewrite !wrap_nonneg by lia.
  rewrite Nat2Z.id, nth_error_firstn.
  destruct (Nat.ltb_spec i m) as [_ | Hge]; [ reflexivity | lia ].
Qed.

Lemma take_firstn {A : Type} (m : nat) (a : list A) (idx : list nat) :
  Forall (fun i => (i < m)%nat) idx ->
  take (firstn m a) (map Z.of_nat idx) = take a (map Z.of_nat idx).
Proof.
  induction 1 as [| i idx Hi Hall IH]; simpl.
  - reflexivity.
  - rewrite (getitem_firstn m a i Hi), IH. reflexivity.
Qed.

Lemma take_agree {A : Type} (m : nat) (a a' : list A) (idx : list nat) :
  firstn m a = firstn m a' ->
  Forall (fun i => (i < m)%nat) idx ->
  take a (map Z.of_nat idx) = take a' (map Z.of_nat idx).
Proof.
  intros Heq Hall.
  rewrite <- (take_firstn m a idx Hall), <- (take_firstn m a' idx Hall), Heq.
  reflexivity.
Qed.

(** A fold reads its data through the four index selections only. *)
Lemma cv_fold_congr (X y X' y' : list R) (fold : Z)
    (train_idx test_idx : list Z) (st : cv_locals) :
  take X train_idx = take X' train_idx ->
  take X test_idx = take X' test_idx ->
  take y train_idx = take y' train_idx ->
  take y test_idx = take y' test_idx ->
  cv_fold X y (fold, (train_idx, test_idx)) st =
  cv_fold X' y' (fold, (train_idx, test_idx)) st.
Proof.
  intros H1 H2 H3 H4. unfold cv_fold, cv_fit_predict.
  rewrite H1, H2, H3, H4. reflexivity.
Qed.

Lemma for_each_ext_in {A S : Type} (l : list A)
    (body body' : A -> S -> result S) (st : S) :
  (forall x, In x l -> forall s, body x s = body' x s) ->
  for_each l body st = for_each l body' st.
Proof.
  revert st. induction l as [| x l IH]; intros st H.
  - reflexivity.
  - simpl. rewrite (H x (or_introl eq_refl)).
    destruct (body' x st) as [st1 | e]; simpl; [ | reflexivity ].
    apply IH. intros x' Hx'. apply H. right. exact Hx'.
Qed.

Lemma enumerate_app {A : Type} (l1 l2 : list A) (s : Z) :
  enumerate (l1 ++ l2) s =
  enumerate l1 s ++ enumerate l2 (s + Z.of_nat (length l1)).
Proof.
  revert s. induction l1 as [| x l1 IH]; intros s.
  - simpl. rewrite Z.add_0_r. reflexivity.
  - cbn [enumerate app length]. rewrite IH, Nat2Z.inj_succ.
    replace (s + Z.succ (Z.of_nat (length l1)))%Z
      with (s + 1 + Z.of_nat (length l1))%Z by lia.
    reflexivity.
Qed.

Lemma in_enumerate_snd {A : Type} (l : list A) (s : Z) (it : Z * A) :
  In it (enumerate l s) -> In (snd it) l.
Proof.
  revert s. induction l as [| x l IH]; intros s H; simpl in *.
  - contradiction.
  - destruct H as [<- | H]; [ left; reflexivity | right; eapply IH; exact H ].
Qed.

Lemma enumerate_length {A : Type} (l : list A) (s : Z) :
  length (enumerate l s) = length l.
Proof.
  revert s. induction l as [| x l IH]; intros s; simpl;
    [ reflexivity | rewrite IH; reflexivity ].
Qed.

(** No look-ahead in cross-validation: the rows of the folds up to fold j
    depend only on the data up to the end of fold j's test block.  Two
    series of equal length that agree on the first
    N - (n_splits - j) * ts + ts inputs and targets give the same first
    j + 1 rows, however they differ afterwards. *)
Theorem cross_validation_rows_ignore_later_data
    (X y X' y' : list R) (k j : nat) :
  (2 <= k)%nat -> (k + 1 <= length X)%nat ->
  length X' = length X ->
  (length X <= length y)%nat -> (length X <= length y')%nat ->
  (j < k)%nat ->
  let n := length X in
  let ts := (n / (k + 1))%nat in
  let m := (n - (k - j) * ts + ts)%nat in
  firstn m X = firstn m X' ->
  firstn m y = firstn m y' ->
  exists rows rows',
    time_series_cross_validation X y (Z.of_nat k) = Ok rows /\
    time_series_cross_validation X' y' (Z.of_nat k) = Ok rows' /\
    firstn (S j) rows = firstn (S j) rows'.
Proof.
  intros Hk Hn HX' Hy Hy' Hj n ts m HXm Hym.
  destruct (cross_validation_rows_of_folds X y k Hk Hn Hy)
    as (rows & Hrun & _).
  destruct (cross_validation_rows_of_folds X' y' k Hk) as (rows' & Hrun' & _);
    [ lia | lia | ].
  exists rows, rows'. split; [ exact Hrun | ]. split; [ exact Hrun' | ].
  unfold time_series_cross_validation, TimeSeriesSplit_new in Hrun, Hrun'.
  destruct (Z.leb_spec (Z.of_nat k) 1) as [Hle | _]; [ lia | ].
  cbn [bind] in Hrun, Hrun'. unfold len in Hrun, Hrun'.
  rewrite HX' in Hrun'.
  rewrite (split_folds k (length X)) in Hrun, Hrun' by lia.
  fold n in Hrun, Hrun'. fold ts in Hrun, Hrun'.
  cbn [bind] in Hrun, Hrun'.
  assert (Hseq : seq 0 k = seq 0 (S j) ++ seq (S j) (k - S j)).
  { replace k with (S j + (k - S j))%nat at 1 by lia.
    apply (seq_app (S j) (k - S j) 0). }
  rewrite Hseq, map_app, enumerate_app, for_each_app in Hrun, Hrun'.
  set (F := fun j0 : nat =>
              (map Z.of_nat (seq 0 (n - (k - j0) * ts)),
               map Z.of_nat (seq (n - (k - j0) * ts) ts))) in *.
  set (st0 := {| fold_results := []; cv_scaler := None; cv_model := None |})
    in *.
  assert (Hpre : for_each (enumerate (map F (seq 0 (S j))) 1)
                          (cv_fold X y) st0 =
                 for_each (enumerate (map F (seq 0 (S j))) 1)
                          (cv_fold X' y') st0).
  { apply for_each_ext_in. intros [fold [tr te]] Hin s.
    apply in_enumerate_snd in Hin. cbn [snd] in Hin.
    apply in_map_iff in Hin. destruct Hin as (j0 & HF & Hj0).
    apply in_seq in Hj0. unfold F in HF. injection HF as <- <-.
    assert (Hmono : ((k - j) * ts <= (k - j0) * ts)%nat)
      by (apply Nat.mul_le_mono_r; lia).
    assert (Hall : ((k - j0) * ts <= k * ts)%nat)
      by (apply Nat.mul_le_mono_r; lia).
    assert (Hmul : ((k + 1) * ts <= n)%nat)
      by (unfold ts; apply Nat.Div0.mul_div_le).
    assert (Htr : Forall (fun i => (i < m)%nat) (seq 0 (n - (k - j0) * ts))).
    { apply Forall_forall. intros i Hi. apply in_seq in Hi. unfold m. lia. }
    assert (Hte : Forall (fun i => (i < m)%nat)
                         (seq (n - (k - j0) * ts) ts)).
    { apply Forall_forall. intros i Hi. apply in_seq in Hi. unfold m. lia. }
    apply cv_fold_congr; apply (take_agree m); assumption. }
  rewrite <- Hpre in Hrun'.
  destruct (for_each (enumerate (map F (seq 0 (S j))) 1) (cv_fold X y) st0)
    as [st1 | e] eqn:Hst1; [ | discriminate Hrun ].
  cbn [bind] in Hrun, Hrun'.
  destruct (cv_loop_rows _ _ _ _ _ Hst1) as (pre & Hpre1 & Hprelen & _).
  inv_bind Hrun. inv_bind Hrun'.
  injection Hrun as <-. injection Hrun' as <-.
  destruct (cv_loop_rows _ _ _ _ _ Hv) as (post & Hpost & _).
  destruct (cv_loop_rows _ _ _ _ _ Hv0) as (post' & Hpost' & _).
  unfold st0 in Hpre1. cbn [fold_results app] in Hpre1.
  rewrite Hpost, Hpost', Hpre1.
  rewrite enumerate_length, length_map, length_seq in Hprelen.
  rewrite !firstn_app, Hprelen, Nat.sub_diag. reflexivity.
Qed.

End CrossValidationPast.

(** The theorem at two 6-point series that differ only in their last
    point: the rows of the first four folds are the same. *)
Lemma cross_validation_rows_ignore_later_data_witness :
  exists rows rows',
    time_series_cross_validation (svm := Instances.mean_regressor)
      [1; 2; 3; 4; 5; 6] [10; 20; 30; 40; 50; 60] 5 = Ok rows /\
    time_series_cross_validation (svm := Instances.mean_regressor)
      [1; 2; 3; 4; 5; 99] [10; 20; 30; 40; 50; 77] 5 = Ok rows' /\
    firstn 4 rows = firstn 4 rows'.
Proof.
  apply (cross_validation_rows_ignore_later_data
           (svm := Instances.mean_regressor)
           [1; 2; 3; 4; 5; 6] [10; 20; 30; 40; 50; 60]
           [1; 2; 3; 4; 5; 99] [10; 20; 30; 40; 50; 77] 5 3).
  - lia.
  - simpl. lia.
  - reflexivity.
  - simpl. lia.
  - simpl. lia.
  - lia.
  - reflexivity.
  - reflexivity.
Defined.

(* ===================================================================== *)
(** * Residual analysis *)
(* ===================================================================== *)

Section ResidualAnalysis.

Open Scope R_scope.

Context {nt : Normaltest}.

Lemma mean_Fin (l : list R) : l <> [] -> mean (map Fin l) = Fin (mean_of l).
Proof.
  intros Hl. unfold mean, mean_of.
  assert (Hs : fsum (map Fin l) = Fin (Rsum (map (fun v : R => v) l)))
    by exact (fsum_Fin (fun v : R => v) l).
  rewrite Hs, map_id, length_map.
  apply fdiv_Fin. pose proof (INR_length_pos l Hl). lra.
Qed.

Lemma flt_Fin (x y : R) : flt (Fin x) (Fin y) = true <-> x < y.
Proof.
  simpl. destruct (Rlt_dec x y) as [H | H]; split; intros H0;
    try reflexivity; try assumption; try discriminate; contradiction.
Qed.

Lemma flt_Fin_false (x y : R) : flt (Fin x) (Fin y) = false <-> y <= x.
Proof.
  simpl. destruct (Rlt_dec x y) as [H | H]; split; intros H0;
    try reflexivity; try discriminate; lra.
Qed.

(** The first negative index and the slices of the lag-1 comparison. *)
Lemma slice_all_but_last (r : list R) :
  r <> [] -> slice r 0 (-1) = firstn (length r - 1) r.
Proof.
  intros Hr. unfold slice.
  assert (Hn : (1 <= length r)%nat) by (destruct r; [ contradiction | simpl; lia ]).
  rewrite (clamp_inside _ 0) by lia.
  assert (Hc : clamp (Z.of_nat (length r)) (-1) = Z.of_nat (length r - 1)).
  { unfold clamp, wrap. change (-1 <? 0)%Z with true. cbv iota. lia. }
  rewrite Hc. rewrite Z.sub_0_r, Nat2Z.id. reflexivity.
Qed.

Lemma slice_all_but_first (r : list R) :
  r <> [] -> slice r 1 (len r) = skipn 1 r.
Proof.
  intros Hr. unfold slice, len.
  assert (Hn : (1 <= length r)%nat) by (destruct r; [ contradiction | simpl; lia ]).
  rewrite !clamp_inside by lia.
  change (Z.to_nat 1) with 1%nat.
  apply firstn_all2. rewrite length_skipn. lia.
Qed.

Lemma corrcoef_01_same_length (x y : list R) :
  length x = length y ->
  corrcoef_01 x y =
    Ok (fclip (fdiv (fdiv (cov_entry x y) (fsqrt (cov_entry x x)))
                    (fsqrt (cov_entry y y)))).
Proof.
  intros H. unfold corrcoef_01.
  rewrite (proj2 (Nat.eqb_eq _ _) H). reflexivity.
Qed.

(** The run of [residual_analysis] on residuals that exist, up to the
    normality test. *)
Lemma residual_analysis_nonempty (preds acts : list R) :
  length preds = length acts -> preds <> [] ->
  let r := zip_with Rminus acts preds in
  let bias :=
    if flt (fabs (Fin (mean_of r))) (Fin 2) then NoSystematicBias
    else if flt (Fin 2) (Fin (mean_of r)) then PositiveBias
    else NegativeBias in
  r <> [] /\
  residual_analysis preds acts =
    match normaltest r with
    | Raise e => ([bias], Raise e)
    | Ok (_, p_value) =>
        let normality :=
          if flt (Fin 0.05) p_value then ApproximatelyNormal else NonNormal in
        if (10 <? len r)%Z then
          ([bias; normality;
            if flt (fabs (fclip (fdiv (fdiv
                     (cov_entry (firstn (length r - 1) r) (skipn 1 r))
                     (fsqrt (cov_entry (firstn (length r - 1) r)
                                       (firstn (length r - 1) r))))
                     (fsqrt (cov_entry (skipn 1 r) (skipn 1 r))))))
                   (Fin 0.3)
            then LowAutocorrelation else SomeAutocorrelation], Ok tt)
        else ([bias; normality], Ok tt)
    end.
Proof.
  intros Hlen Hne r bias.
  assert (Hr : r <> []).
  { apply (nonempty_of_length _ (length acts)).
    - apply zip_with_length. symmetry. exact Hlen.
    - rewrite <- Hlen. destruct preds; [ contradiction | simpl; lia ]. }
  split; [ exact Hr | ].
  unfold residual_analysis.
  rewrite (sub_same_length acts preds (eq_sym Hlen)). fold r.
  assert (Hmin : exists v, np_min r = Ok v)
    by (destruct r; [ contradiction | eexists; reflexivity ]).
  assert (Hmax : exists v, np_max r = Ok v)
    by (destruct r; [ contradiction | eexists; reflexivity ]).
  destruct Hmin as [vmin ->]. destruct Hmax as [vmax ->].
  rewrite (mean_Fin r Hr). fold bias.
  destruct (normaltest r) as [[s p] | e]; [ | reflexivity ].
  destruct (10 <? len r)%Z; [ | reflexivity ].
  rewrite (slice_all_but_last r Hr), (slice_all_but_first r Hr).
  rewrite corrcoef_01_same_length; [ reflexivity | ].
  rewrite length_firstn, length_skipn. lia.
Qed.

(** The bias check of residual_analysis, for predictions and actual
    values of equal non-zero length, with m the mean residual: it prints
    "no systematic bias" when |m| < 2 and "positive bias" when m > 2; every
    other case, which besides m <= -2 includes m = 2 exactly, is printed
    as "negative bias".  This line is printed whatever the normality test
    does afterwards. *)
Theorem residual_bias_thresholds (preds acts : list R) :
  length preds = length acts ->
  preds <> [] ->
  let m := mean_of (zip_with Rminus acts preds) in
  exists b rest out,
    residual_analysis preds acts = (b :: rest, out) /\
    (Rabs m < 2 -> b = NoSystematicBias) /\
    (2 < m -> b = PositiveBias) /\
    (m <= -2 -> b = NegativeBias) /\
    (m = 2 -> b = NegativeBias).
Proof.
  intros Hlen Hne m.
  destruct (residual_analysis_nonempty preds acts Hlen Hne) as [_ Hrun].
  cbv zeta in Hrun. fold m in Hrun.
  set (b := if flt (fabs (Fin m)) (Fin 2) then NoSystematicBias
            else if flt (Fin 2) (Fin m) then PositiveBias
            else NegativeBias) in *.
  assert (Hout : exists rest out,
             residual_analysis preds acts = (b :: rest, out)).
  { rewrite Hrun.
    destruct (normaltest (zip_with Rminus acts preds)) as [[s p] | e].
    - destruct (10 <? len (zip_with Rminus acts preds))%Z;
        eexists; eexists; reflexivity.
    - eexists; eexists; reflexivity. }
  destruct Hout as (rest & out & Hout).
  exists b, rest, out. split; [ exact Hout | ].
  unfold b. cbn [fabs].
  split; [ | split; [ | split ] ].
  - intros H. rewrite (proj2 (flt_Fin (Rabs m) 2) H). reflexivity.
  - intros H.
    rewrite (proj2 (flt_Fin_false (Rabs m) 2)).
    2:{ rewrite Rabs_pos_eq by lra. lra. }
    rewrite (proj2 (flt_Fin 2 m) H). reflexivity.
  - intros H.
    rewrite (proj2 (flt_Fin_false (Rabs m) 2)).
    2:{ rewrite Rabs_left by lra. lra. }
    rewrite (proj2 (flt_Fin_false 2 m)) by lra. reflexivity.
  - intros ->.
    rewrite (proj2 (flt_Fin_false (Rabs 2) 2)).
    2:{ rewrite Rabs_pos_eq by lra. lra. }
    rewrite (proj2 (flt_Fin_false 2 2)) by lra. reflexivity.
Qed.

(** residual_analysis checks neither emptiness nor lengths itself.  When
    one of the two arrays is empty, or when they differ in length and
    neither has length one, it raises ValueError (from the minimum of an
    empty array, or from the subtraction) before any of its three checks
    is run. *)
Theorem residual_analysis_fails_before_any_check (preds acts : list R) :
  preds = [] \/ acts = [] \/
  (length acts <> length preds /\
   length acts <> 1%nat /\ length preds <> 1%nat) ->
  residual_analysis preds acts = ([], Raise ValueError).
Proof.
  intros H. unfold residual_analysis.
  destruct (sub acts preds) as [r | e] eqn:Hs.
  - assert (Hr : r = []).
    { unfold sub, broadcast in Hs.
      destruct H as [-> | [-> | (H1 & H2 & H3)]].
      - destruct acts as [| a [| a' acts]]; simpl in Hs;
          try discriminate Hs; injection Hs as <-; reflexivity.
      - destruct preds as [| p [| p' preds]]; simpl in Hs;
          try discriminate Hs; injection Hs as <-; reflexivity.
      - exfalso.
        destruct (broadcast_raises_iff Rminus acts preds) as [Hiff _].
        unfold broadcast in Hiff.
        rewrite (proj2 Hiff) in Hs by (repeat split; assumption).
        discriminate Hs. }
    subst r. reflexivity.
  - destruct (broadcast_raises_iff Rminus acts preds) as [_ Hval].
    fold (sub acts preds) in Hval.
    rewrite Hval in Hs by (exists e; exact Hs).
    injection Hs as <-. reflexivity.
Qed.

(** When the normality test returns, residual_analysis returns as well;
    the autocorrelation check is run exactly when there are more than 10
    residuals: with at most 10 the function prints two classification
    lines, with more than 10 three. *)
Theorem autocorrelation_check_needs_more_than_ten
    (preds acts : list R) (s p : float) :
  length preds = length acts ->
  preds <> [] ->
  normaltest (zip_with Rminus acts preds) = Ok (s, p) ->
  ((length preds <= 10)%nat ->
     exists b n, residual_analysis preds acts = ([b; n], Ok tt)) /\
  ((10 < length preds)%nat ->
     exists b n a, residual_analysis preds acts = ([b; n; a], Ok tt)).
Proof.
  intros Hlen Hne Hnt.
  destruct (residual_analysis_nonempty preds acts Hlen Hne) as [_ Hrun].
  cbv zeta in Hrun. rewrite Hnt in Hrun.
  assert (Hl : len (zip_with Rminus acts preds) = Z.of_nat (length preds)).
  { unfold len. rewrite zip_with_length by (symmetry; exact Hlen).
    rewrite Hlen. reflexivity. }
  rewrite Hl in Hrun.
  split; intros Hn.
  - destruct (Z.ltb_spec 10 (Z.of_nat (length preds))) as [H | _]; [ lia | ].
    eexists. eexists. exact Hrun.
  - destruct (Z.ltb_spec 10 (Z.of_nat (length preds))) as [_ | H]; [ | lia ].
    eexists. eexists. eexists. exact Hrun.
Qed.

End ResidualAnalysis.

(** The theorem at two predictions, one of them off by one. *)
Lemma residual_bias_thresholds_witness :
  exists b rest out,
    residual_analysis (H := Diagnostics.always_normal) [1; 2] [1; 3]
    = (b :: rest, out).
Proof.
  destruct (residual_bias_thresholds (nt := Diagnostics.always_normal)
              [1; 2] [1; 3] eq_refl)
    as (b & rest & out & Hrun & _).
  - discriminate.
  - exists b, rest, out. exact Hrun.
Defined.

(** The theorem at no predictions. *)
Lemma residual_analysis_fails_before_any_check_witness :
  residual_analysis (H := Diagnostics.always_normal) [] [1]
  = ([], Raise ValueError).
Proof.
  apply (residual_analysis_fails_before_any_check
           (nt := Diagnostics.always_normal) [] [1]).
  left. reflexivity.
Defined.

(** The theorem at two residuals: no autocorrelation check. *)
Lemma autocorrelation_check_needs_more_than_ten_witness :
  exists b n,
    residual_analysis (H := Diagnostics.always_normal) [1; 2] [1; 3]
    = ([b; n], Ok tt).
Proof.
  apply (proj1 (autocorrelation_check_needs_more_than_ten
                  (nt := Diagnostics.always_normal)
                  [1; 2] [1; 3] (Fin 0) (Fin 1) eq_refl
                  ltac:(discriminate) eq_refl)).
  simpl. lia.
Defined.

Section LagOneAutocorrelation.

Open Scope R_scope.

Context {nt : Normaltest}.

Lemma fsum_zip_Fin (f g : R -> R) (u v : list R) :
  fsum (zip_with fmul (map (fun a => Fin (f a)) u)
                      (map (fun b => Fin (g b)) v)) =
  Fin (Rsum (zip_with (fun a b => f a * g b) u v)).
Proof.
  revert v. induction u as [| a u IH]; intros [| b v]; try reflexivity.
  change (fsum (zip_with fmul (map (fun a => Fin (f a)) (a :: u))
                              (map (fun b => Fin (g b)) (b :: v))))
    with (fadd (Fin (f a * g b))
               (fsum (zip_with fmul (map (fun a => Fin (f a)) u)
                                    (map (fun b => Fin (g b)) v)))).
  rewrite IH. reflexivity.
Qed.

(** An entry of the covariance matrix of two rows of at least two
    values. *)
Lemma cov_entry_Fin (u v : list R) :
  (2 <= length u)%nat -> length u = length v ->
  cov_entry u v =
    Fin (Rsum (zip_with (fun a b => (a + - mean_of u) * (b + - mean_of v))
                        u v)
         * (1 / INR (length u - 1))).
Proof.
  intros Hn Hlen. unfold cov_entry.
  assert (Hu : 0 < INR (length u)) by (apply lt_0_INR; lia).
  assert (Hv : 0 < INR (length v)) by (rewrite <- Hlen; exact Hu).
  assert (Hd : 0 < INR (length u - 1)) by (apply lt_0_INR; lia).
  rewrite !fdiv_Fin by lra.
  cbn [fsub fopp fadd].
  rewrite (fsum_zip_Fin (fun a => a + - (Rsum u / INR (length u)))
                        (fun b => b + - (Rsum v / INR (length v)))).
  reflexivity.
Qed.

Lemma zip_with_same {A C : Type} (f : A -> A -> C) (l : list A) :
  zip_with f l l = map (fun a => f a a) l.
Proof.
  induction l as [| a l IH]; simpl; [ reflexivity | rewrite IH; reflexivity ].
Qed.

Lemma zip_with_map_r {A B B' C : Type} (f : A -> B -> C) (g : B' -> B)
    (l : list A) (m : list B') :
  zip_with f l (map g m) = zip_with (fun a b => f a (g b)) l m.
Proof.
  revert m. induction l as [| a l IH]; intros [| b m]; simpl;
    try reflexivity.
  rewrite IH. reflexivity.
Qed.

Lemma Rsum_ext_map {A : Type} (f g : A -> R) (l : list A) :
  (forall a, f a = g a) -> Rsum (map f l) = Rsum (map g l).
Proof.
  intros H. f_equal. apply map_ext. exact H.
Qed.

Lemma Rsum_opp {A : Type} (f : A -> R) (l : list A) :
  Rsum (map (fun a => - f a) l) = - Rsum (map f l).
Proof.
  induction l as [| a l IH]; simpl.
  - lra.
  - rewrite IH. lra.
Qed.

Lemma Rsum_sq_zero_all {A : Type} (g : A -> R) (l : list A) :
  Rsum (map (fun v => sq (g v)) l) = 0 -> forall a, In a l -> g a = 0.
Proof.
  induction l as [| x l IH]; intros H a Ha.
  - contradiction.
  - change (Rsum (map (fun v => sq (g v)) (x :: l)))
      with (sq (g x) + Rsum (map (fun v => sq (g v)) l)) in H.
    pose proof (Rsum_sq_nonneg g l) as Hnn.
    pose proof (Rle_0_sqr (g x)) as Hsq. unfold Rsqr in Hsq.
    unfold sq in H at 1.
    destruct Ha as [<- | Ha].
    + assert (Hx : g x * g x = 0) by lra.
      apply Rmult_integral in Hx. destruct Hx; assumption.
    + apply IH; [ lra | exact Ha ].
Qed.

(** The sum of squared deviations from the mean. *)
Lemma cov_entry_variance (u : list R) :
  (2 <= length u)%nat ->
  cov_entry u u = Fin (sum_sq_dev u * (1 / INR (length u - 1))).
Proof.
  intros Hn. rewrite (cov_entry_Fin u u Hn eq_refl).
  rewrite zip_with_same. unfold sum_sq_dev, sq. reflexivity.
Qed.

Lemma mean_of_opp (u : list R) : mean_of (map Ropp u) = - mean_of u.
Proof.
  unfold mean_of. rewrite length_map.
  assert (H : Rsum (map Ropp u) = - Rsum (map (fun a : R => a) u))
    by exact (Rsum_opp (fun a : R => a) u).
  rewrite H, map_id. unfold Rdiv. ring.
Qed.

(** The correlation of a row with its own negation is -1, unless the row
    is constant. *)
Lemma corrcoef_with_negation (x : list R) :
  (2 <= length x)%nat ->
  0 < sum_sq_dev x ->
  corrcoef_01 x (map Ropp x) = Ok (Fin (-1)).
Proof.
  intros Hn Hpos.
  assert (Hd : 0 < INR (length x - 1)) by (apply lt_0_INR; lia).
  set (V := sum_sq_dev x * (1 / INR (length x - 1))).
  assert (HV : 0 < V).
  { unfold V. apply Rmult_lt_0_compat; [ exact Hpos | ].
    unfold Rdiv. rewrite Rmult_1_l. apply Rinv_0_lt_compat. exact Hd. }
  rewrite corrcoef_01_same_length by (rewrite length_map; reflexivity).
  rewrite (cov_entry_variance x Hn). fold V.
  assert (Hyy : cov_entry (map Ropp x) (map Ropp x) = Fin V).
  { rewrite cov_entry_variance by (rewrite length_map; exact Hn).
    rewrite length_map. unfold V. do 2 f_equal.
    unfold sum_sq_dev. rewrite mean_of_opp, map_map.
    apply Rsum_ext_map. intros a. unfold sq. ring. }
  assert (Hxy : cov_entry x (map Ropp x) = Fin (- V)).
  { rewrite cov_entry_Fin by (rewrite ?length_map; auto).
    f_equal. unfold V.
    rewrite mean_of_opp, zip_with_map_r, zip_with_same.
    rewrite (Rsum_ext_map _ (fun a => - sq (a - mean_of x)))
      by (intros a; unfold sq; ring).
    rewrite Rsum_opp. unfold sum_sq_dev. ring. }
  rewrite Hyy, Hxy.
  unfold fsqrt. rewrite Rnegb_false by lra.
  assert (Hs : 0 < sqrt V) by (apply sqrt_lt_R0; exact HV).
  rewrite !fdiv_Fin by lra.
  unfold fclip. do 2 f_equal.
  assert (Hq : - V / sqrt V / sqrt V = -1).
  { pose proof (sqrt_sqrt V (Rlt_le _ _ HV)) as Hsq.
    rewrite <- Hsq at 1. field. lra. }
  rewrite Hq. rewrite Rmax_left by lra. rewrite Rmin_left by lra.
  reflexivity.
Qed.

Lemma centred_constant_cross (c m : R) (x y : list R) :
  constant c x ->
  Rsum (zip_with (fun a b => (a + - c) * (b + - m)) x y) = 0.
Proof.
  intros Hx. revert y. induction Hx as [| a x Ha Hx IH]; intros [| b y];
    try reflexivity.
  simpl. rewrite IH, Ha. ring.
Qed.

(** The correlation of a constant row with any other row is [nan]. *)
Lemma corrcoef_of_constants (c : R) (x y : list R) :
  (2 <= length x)%nat -> length x = length y ->
  constant c x ->
  corrcoef_01 x y = Ok NaN.
Proof.
  intros Hn Hlen Hx.
  assert (Hxne : x <> []) by (destruct x; [ simpl in Hn; lia | discriminate ]).
  assert (Hzero : sum_sq_dev x = 0).
  { pose proof (ss_tot_constant c x Hx Hxne) as H. exact H. }
  rewrite (corrcoef_01_same_length x y Hlen).
  rewrite (cov_entry_variance x Hn), Hzero.
  assert (H0 : 0 * (1 / INR (length x - 1)) = 0) by apply Rmult_0_l.
  rewrite H0. unfold fsqrt at 1. rewrite Rnegb_false by lra. rewrite sqrt_0.
  assert (Hxy : exists z, cov_entry x y = Fin z /\ z = 0).
  { rewrite (cov_entry_Fin x y Hn Hlen). eexists. split; [ reflexivity | ].
    assert (Hs : Rsum (zip_with
                         (fun a b => (a + - mean_of x) * (b + - mean_of y))
                         x y) = 0).
    { assert (Hmx : mean_of x = c).
      { unfold mean_of. rewrite (Rsum_constant c x Hx).
        pose proof (INR_length_pos x Hxne). field. lra. }
      rewrite Hmx. apply centred_constant_cross. exact Hx. }
    rewrite Hs. apply Rmult_0_l. }
  destruct Hxy as (z & -> & ->).
  simpl. rewrite (proj2 (Rzerob_true 0) eq_refl). reflexivity.
Qed.

End LagOneAutocorrelation.

Section AutocorrelationVerdicts.

Open Scope R_scope.

Context {nt : Normaltest}.

Lemma firstn_as_nth (r : list R) (k : nat) :
  (k <= length r)%nat ->
  firstn k r = map (fun i => nth i r 0) (seq 0 k).
Proof.
  intros Hk. apply (firstn_skipn_nth 0 k 0 r). lia.
Qed.

Lemma skipn_one_as_nth (r : list R) :
  r <> [] ->
  skipn 1 r = map (fun i => nth (S i) r 0) (seq 0 (length r - 1)).
Proof.
  intros Hr.
  assert (Hn : (1 <= length r)%nat) by (destruct r; [ contradiction | simpl; lia ]).
  rewrite <- (firstn_all2 (n := length r - 1) (skipn 1 r))
    by (rewrite length_skipn; lia).
  rewrite (firstn_skipn_nth 0 (length r - 1) 1 r) by lia.
  rewrite <- seq_shift, map_map. reflexivity.
Qed.

Lemma constant_parts (c : R) (r : list R) (k : nat) :
  constant c r -> constant c (firstn k r) /\ constant c (skipn k r).
Proof.
  intros Hc. unfold constant in *. apply Forall_app.
  rewrite firstn_skipn. exact Hc.
Qed.

(** For residuals that alternate in sign, each the negation of the one
    before (more than 10 of them, not zero), residual_analysis prints
    "some autocorrelation present" once the normality test has returned:
    their lag-1 correlation is -1 up to rounding, far from the threshold
    0.3. *)
Theorem alternating_residuals_are_flagged
    (preds acts : list R) (s p : float) :
  length preds = length acts ->
  (10 < length preds)%nat ->
  let r := zip_with Rminus acts preds in
  nth 0 r 0 <> 0 ->
  (forall i, (S i < length r)%nat -> nth (S i) r 0 = - nth i r 0) ->
  normaltest r = Ok (s, p) ->
  exists b n,
    residual_analysis preds acts = ([b; n; SomeAutocorrelation], Ok tt).
Proof.
  intros Hlen Hn r H0 Halt Hnt.
  assert (Hne : preds <> []) by (destruct preds; [ simpl in Hn; lia | discriminate ]).
  destruct (residual_analysis_nonempty preds acts Hlen Hne) as [Hr Hrun].
  cbv zeta in Hrun. fold r in Hrun, Hr.
  assert (Hrl : length r = length preds).
  { unfold r. rewrite zip_with_length by (symmetry; exact Hlen).
    symmetry. exact Hlen. }
  set (x := firstn (length r - 1) r) in *.
  assert (Hx : x = map (fun i => nth i r 0) (seq 0 (length r - 1)))
    by (apply firstn_as_nth; lia).
  assert (Hy : skipn 1 r = map Ropp x).
  { rewrite (skipn_one_as_nth r Hr), Hx, map_map.
    apply map_ext_in. intros i Hi. apply in_seq in Hi.
    apply Halt. lia. }
  assert (Hxl : length x = (length r - 1)%nat).
  { rewrite Hx, length_map, length_seq. reflexivity. }
  assert (Hpos : 0 < sum_sq_dev x).
  { pose proof (Rsum_sq_nonneg (fun t => t - mean_of x) x) as Hnn.
    fold (sum_sq_dev x) in Hnn.
    destruct Hnn as [Hlt | Heq]; [ exact Hlt | exfalso ].
    symmetry in Heq. unfold sum_sq_dev in Heq.
    pose proof (Rsum_sq_zero_all (fun t => t - mean_of x) x Heq) as Hall.
    assert (Hin0 : In (nth 0 r 0) x).
    { rewrite Hx. apply in_map_iff. exists 0%nat. split; [ reflexivity | ].
      apply in_seq. lia. }
    assert (Hin1 : In (nth 1 r 0) x).
    { rewrite Hx. apply in_map_iff. exists 1%nat. split; [ reflexivity | ].
      apply in_seq. lia. }
    pose proof (Hall _ Hin0) as E0. pose proof (Hall _ Hin1) as E1.
    cbv beta in E0, E1.
    rewrite (Halt 0%nat) in E1 by lia. lra. }
  assert (Hyl : length (skipn 1 r) = (length r - 1)%nat)
    by apply length_skipn.
  assert (Hcorr : corrcoef_01 x (skipn 1 r) = Ok (Fin (-1))).
  { rewrite Hy. apply corrcoef_with_negation; [ lia | exact Hpos ]. }
  set (y := skipn 1 r) in *.
  rewrite corrcoef_01_same_length in Hcorr by (rewrite Hxl, Hyl; reflexivity).
  injection Hcorr as Hcorr.
  rewrite Hnt in Hrun.
  destruct (Z.ltb_spec 10 (len r)) as [_ | Hle];
    [ | unfold len in Hle; lia ].
  rewrite Hcorr in Hrun. cbn [fabs] in Hrun.
  rewrite (proj2 (flt_Fin_false (Rabs (-1)) 0.3)) in Hrun.
  2:{ rewrite Rabs_left by lra. lra. }
  eexists. eexists. exact Hrun.
Qed.

(** For residuals that are all equal (more than 10 of them)
    residual_analysis prints "some autocorrelation present" once the
    normality test has returned: the two lagged rows have no spread, the
    correlation np.corrcoef yields for them is not a number below 0.3 in
    magnitude (it is nan when the deviations from the mean are all zero),
    and the comparison with 0.3 is false. *)
Theorem constant_residuals_are_flagged
    (c : R) (preds acts : list R) (s p : float) :
  length preds = length acts ->
  (10 < length preds)%nat ->
  let r := zip_with Rminus acts preds in
  constant c r ->
  normaltest r = Ok (s, p) ->
  exists b n,
    residual_analysis preds acts = ([b; n; SomeAutocorrelation], Ok tt).
Proof.
  intros Hlen Hn r Hc Hnt.
  assert (Hne : preds <> []) by (destruct preds; [ simpl in Hn; lia | discriminate ]).
  destruct (residual_analysis_nonempty preds acts Hlen Hne) as [Hr Hrun].
  cbv zeta in Hrun. fold r in Hrun, Hr.
  assert (Hrl : length r = length preds).
  { unfold r. rewrite zip_with_length by (symmetry; exact Hlen).
    symmetry. exact Hlen. }
  assert (Hcorr : corrcoef_01 (firstn (length r - 1) r) (skipn 1 r) = Ok NaN).
  { apply (corrcoef_of_constants c).
    - rewrite length_firstn. lia.
    - rewrite length_firstn, length_skipn. lia.
    - apply constant_parts. exact Hc. }
  assert (Hl : length (firstn (length r - 1) r) = length (skipn 1 r))
    by (rewrite length_firstn, length_skipn; lia).
  set (x := firstn (length r - 1) r) in *.
  set (y := skipn 1 r) in *.
  rewrite (corrcoef_01_same_length x y Hl) in Hcorr.
  injection Hcorr as Hcorr.
  rewrite Hnt in Hrun.
  destruct (Z.ltb_spec 10 (len r)) as [_ | Hle];
    [ | unfold len in Hle; lia ].
  rewrite Hcorr in Hrun.
  eexists. eexists. exact Hrun.
Qed.

End AutocorrelationVerdicts.

(** The theorem at twelve predictions of 0 against actual values that
    alternate between 1 and -1. *)
Lemma alternating_residuals_are_flagged_witness :
  exists b n,
    residual_analysis (H := Diagnostics.always_normal)
      [0; 0; 0; 0; 0; 0; 0; 0; 0; 0; 0; 0]
      [1; -1; 1; -1; 1; -1; 1; -1; 1; -1; 1; -1]
    = ([b; n; SomeAutocorrelation], Ok tt).
Proof.
  refine (alternating_residuals_are_flagged
            (nt := Diagnostics.always_normal)
            [0; 0; 0; 0; 0; 0; 0; 0; 0; 0; 0; 0]
            [1; -1; 1; -1; 1; -1; 1; -1; 1; -1; 1; -1]
            (Fin 0) (Fin 1) eq_refl _ _ _ eq_refl).
  - simpl. lia.
  - simpl. lra.
  - intros i Hi.
    do 11 (destruct i as [| i]; [ simpl; lra | ]).
    simpl in Hi. lia.
Defined.

(** The theorem at twelve predictions of 0 against actual values of 1. *)
Lemma constant_residuals_are_flagged_witness :
  exists b n,
    residual_analysis (H := Diagnostics.always_normal)
      [0; 0; 0; 0; 0; 0; 0; 0; 0; 0; 0; 0]
      [1; 1; 1; 1; 1; 1; 1; 1; 1; 1; 1; 1]
    = ([b; n; SomeAutocorrelation], Ok tt).
Proof.
  refine (constant_residuals_are_flagged
            (nt := Diagnostics.always_normal) 1
            [0; 0; 0; 0; 0; 0; 0; 0; 0; 0; 0; 0]
            [1; 1; 1; 1; 1; 1; 1; 1; 1; 1; 1; 1]
            (Fin 0) (Fin 1) eq_refl _ _ eq_refl).
  - simpl. lia.
  - repeat constructor; lra.
Defined.

(* ===================================================================== *)
(** * The whole backtest *)
(* ===================================================================== *)

Section WholeRun.

Open Scope R_scope.

Context {svm : Libsvm} {nq : NormalQuantile} {nt : Normaltest}
        {rng : Pipeline.RandomNormal}.

Lemma synthetic_demand_length : length Pipeline.synthetic_demand = 84%nat.
Proof.
  unfold Pipeline.synthetic_demand. rewrite length_map, length_seq.
  reflexivity.
Qed.

Lemma synthetic_prices_length :
  length (Pipeline.synthetic_prices Pipeline.synthetic_demand) = 84%nat.
Proof.
  unfold Pipeline.synthetic_prices.
  rewrite length_map, length_combine, length_seq, Nat.min_id.
  apply synthetic_demand_length.
Qed.

Lemma validate_against_real_markets_returns :
  exists d, validate_against_real_markets = Returned d.
Proof.
  unfold validate_against_real_markets. cbn [actual_increase_pct].
  rewrite !truediv_nonzero by lra. cbn [and_then].
  eexists. reflexivity.
Qed.

Lemma sensitivity_analysis_returns :
  exists f, sensitivity_analysis = Returned f.
Proof.
  unfold sensitivity_analysis.
  cbn [dc_capacity_2030 dc_utilization infrastructure_cost_per_mw
       cost_passthrough_pct].
  rewrite !calculate_rate_impact_value by lra. cbn [and_then].
  eexists. reflexivity.
Qed.

(** Whatever values the random generator draws, run_comprehensive_backtest
    can only be stopped by the normality test.  The cross-validation with
    5 splits and the walk-forward run with its 24-month window both return
    on the 84 generated months, the latter with 60 predictions and their
    actual values.  If the normality test returns on their residuals, the
    run reaches its end: the cross-validation table has 5 rows, trained on
    14, 28, 42, 56 and 70 months and tested on 14 months each; the
    confidence intervals are those of the 60 predictions; and the residual
    analysis has printed its three classification lines, the
    autocorrelation check included.  If the test raises, the run stops
    with that exception after the bias line was printed. *)
Theorem backtest_stops_only_at_normality_test :
  let demand := Pipeline.synthetic_demand in
  let prices := Pipeline.synthetic_prices demand in
  exists P A m,
    walk_forward_validation demand prices 24 = Ok (P, A, m) /\
    length P = 60%nat /\ length A = 60%nat /\
    match normaltest (zip_with Rminus A P) with
    | Raise e =>
        exists b,
          Pipeline.run_comprehensive_backtest
          = ([b], inl (Pipeline.LibraryError e))
    | Ok _ =>
        exists printed f,
          Pipeline.run_comprehensive_backtest = (printed, inr f) /\
          length printed = 3%nat /\
          map (fun row => (dict_get row "train_size"%string,
                           dict_get row "test_size"%string))
              (Pipeline.cv_results f) =
            [(Some (VInt 14), Some (VInt 14));
             (Some (VInt 28), Some (VInt 14));
             (Some (VInt 42), Some (VInt 14));
             (Some (VInt 56), Some (VInt 14));
             (Some (VInt 70), Some (VInt 14))] /\
          Pipeline.predictions f = P /\
          Pipeline.actuals f = A /\
          calculate_confidence_intervals P A 0.95
          = Ok (Pipeline.ci_results f)
    end.
Proof.
  intros D Pr.
  assert (HD : length D = 84%nat) by apply synthetic_demand_length.
  assert (HP : length Pr = 84%nat) by apply synthetic_prices_length.
  destruct (cross_validation_rows_of_folds D Pr 5) as (rows & Hcv & Hsizes);
    [ lia | lia | lia | ].
  rewrite HD in Hsizes. change (Z.of_nat 5) with 5%Z in Hcv.
  change (84 / (5 + 1))%nat with 14%nat in Hsizes.
  cbn [seq map Nat.sub Nat.mul Nat.add Z.of_nat Pos.of_succ_nat Pos.succ]
    in Hsizes.
  pose proof (walk_forward_unfolded D Pr 24) as Hwf.
  cbv zeta in Hwf. rewrite HD in Hwf.
  change (Z.of_nat 24) with 24%Z in Hwf.
  set (P := map (step_prediction D Pr 24) (seq 24 (84 - 24))) in *.
  set (A := map (fun i => nth i Pr 0) (seq 24 (84 - 24))) in *.
  assert (HPl : length P = 60%nat)
    by (unfold P; rewrite length_map, length_seq; reflexivity).
  assert (HAl : length A = 60%nat)
    by (unfold A; rewrite length_map, length_seq; reflexivity).
  assert (HPne : P <> []) by (intros E; rewrite E in HPl; discriminate HPl).
  assert (HAne : A <> []) by (intros E; rewrite E in HAl; discriminate HAl).
  destruct (wf_metrics_ok P A) as (mse & mae & r2 & mape & da & _ & _ & _ & _
                                   & _ & Hm); [ congruence | exact HAne | ].
  rewrite Hm in Hwf. cbn [bind] in Hwf.
  specialize (Hwf ltac:(lia) ltac:(lia)).
  destruct validate_against_real_markets_returns as [mv Hmv].
  destruct sensitivity_analysis_returns as [sf Hsf].
  assert (Hci : exists d, calculate_confidence_intervals P A 0.95 = Ok d).
  { unfold calculate_confidence_intervals.
    pose proof (ci_frame_nonempty P A 0.95) as Hf. cbv zeta in Hf.
    rewrite Hf; [ | congruence | exact HPne | lra ].
    cbn [bind]. eexists. reflexivity. }
  destruct Hci as [d Hd].
  destruct (residual_analysis_nonempty P A) as [_ Hra];
    [ congruence | exact HPne | ].
  cbv zeta in Hra.
  assert (Hl : (10 <? len (zip_with Rminus A P))%Z = true).
  { apply Z.ltb_lt. unfold len. rewrite zip_with_length by congruence.
    rewrite HAl. lia. }
  rewrite Hl in Hra.
  eexists. eexists. eexists. split; [ exact Hwf | ].
  split; [ exact HPl | ]. split; [ exact HAl | ].
  unfold Pipeline.run_comprehensive_backtest.
  fold D. fold Pr. rewrite Hcv, Hwf, Hmv, Hsf, Hd, Hra.
  destruct (normaltest (zip_with Rminus A P)) as [[s p] | e].
  - eexists. eexists. split; [ reflexivity | ].
    cbn [Pipeline.cv_results Pipeline.predictions Pipeline.actuals
         Pipeline.ci_results].
    split; [ reflexivity | ]. split; [ exact Hsizes | ].
    split; [ reflexivity | ]. split; reflexivity.
  - eexists. reflexivity.
Qed.

End WholeRun.
